(** * Timeout escalation over a shared Redis store

    A shallow embedding of the timeout index (type [TimeoutManager] of
    package [phase1]), the leader election and the two detectors (type
    [LeaderElection] of [phase1], type [StreamProducer] of [phase2]) and
    the stream consumer (type [StreamConsumer] of [phase2]) of
    redis-timeout-tracking-poc, together with the properties of its
    specification that concern them.  Every Go method keeps its name.

    The Go code talks to Redis through go-redis v8.  Every method of the
    program becomes a computation in a state monad over a [World]: the
    shared store, the outcome of the successive network calls, the wall
    clock, and the fields of the Go objects that the methods mutate
    ([le.isLeader], the Prometheus counters).  Logging and latency
    histograms are left out.

    The later sections add the hourly cleanup of [phase1], the HTTP
    handlers of [phase2], the reading of the environment (package
    [config]) and the thresholds of package [constants]. *)

From Stdlib Require Import ZArith Lia Ascii String.
From stdpp Require Import gmap strings list sorting pretty.

Local Open Scope Z_scope.

(** ** Machine integers

    [int64] (and [int], on the 64-bit targets the service is built for) is
    a [Z] kept in range by [wrap64] after every arithmetic operation the
    source performs. *)

Definition min_int64 : Z := - 2 ^ 63.
Definition max_int64 : Z := 2 ^ 63 - 1.

Definition in_int64 (z : Z) : bool := (min_int64 <=? z) && (z <=? max_int64).

Definition wrap64 (z : Z) : Z := (z + 2 ^ 63) mod 2 ^ 64 - 2 ^ 63.

Definition sub64 (a b : Z) : Z := wrap64 (a - b).
Definition mul64 (a b : Z) : Z := wrap64 (a * b).

(** ** strconv

    [strconv.Atoi] and [strconv.ParseInt(s, 10, 64)] accept an optional
    sign followed by at least one decimal digit, and fail when the number
    does not fit in 64 bits. *)

Definition digit_of (a : ascii) : option Z :=
  let n := Z.of_N (N_of_ascii a) in
  if (48 <=? n) && (n <=? 57) then Some (n - 48) else None.

Fixpoint parse_digits (acc : Z) (s : string) : option Z :=
  match s with
  | EmptyString => Some acc
  | String a s' =>
      match digit_of a with
      | Some d => parse_digits (acc * 10 + d) s'
      | None => None
      end
  end.

Definition split_sign (s : string) : bool * string :=
  match s with
  | String "+"%char r => (false, r)
  | String "-"%char r => (true, r)
  | _ => (false, s)
  end.

Definition ParseInt (s : string) : option Z :=
  let '(neg, body) := split_sign s in
  match body with
  | EmptyString => None
  | _ =>
      match parse_digits 0 body with
      | Some n =>
          let z := if neg then - n else n in
          if in_int64 z then Some z else None
      | None => None
      end
  end.

Definition Atoi (s : string) : option Z := ParseInt s.

(** [fmt.Sprintf("%d", z)] and the decimal rendering go-redis applies to
    integer arguments. *)
Definition itoa (z : Z) : string := pretty z.


(** ** Errors and models (package [models]) *)

Inductive error : Type :=
  | redis_Nil                                   (* redis.Nil *)
  | io_error                                    (* a failed round trip *)
  | server_error (msg : string)                 (* an error reply of the server *)
  | errorf (msg : string)                       (* fmt.Errorf without %w *)
  | wrapf (msg : string) (cause : error).       (* fmt.Errorf("msg: %w", err) *)

(** [err != nil] and [err == redis.Nil] *)
Definition failed (err : option error) : bool :=
  match err with Some _ => true | None => false end.
Definition is_Nil (err : option error) : bool :=
  match err with Some redis_Nil => true | _ => false end.

(** Times are kept as the milliseconds since the epoch that [UnixMilli]
    returns: the program reads no other component of a [time.Time]. *)

Module AgentMessage.
Record t : Type := mk
  { ConversationID : string; AgentID : string; MessageID : string; Timestamp : Z }.
End AgentMessage.

Module CustomerResponse.
Record t : Type := mk
  { ConversationID : string; CustomerID : string; MessageID : string; Timestamp : Z }.
End CustomerResponse.

Module TimeoutEvent.
Record t : Type := mk
  { ConversationID : string;
    Level : Z;
    AgentMessageTime : Z;
    DetectedAt : Z;
    Attempt : Z }.
End TimeoutEvent.

(** ** Configuration (package [config]) *)

Record Config : Type := mkConfig
  { TimeoutIntervalMS : Z;
    CheckIntervalMS : Z;
    LeaderElectionTTL : Z;
    PodID : string;
    ConsumerGroupName : string }.

(** ** The store

    Redis holds, per data type, a map from keys to values.  A sorted set
    maps members to scores, a hash maps fields to strings, a string key
    carries its remaining time to live in seconds ([None]: no expiry), a
    stream is its entries in append order and its consumer groups.  Which
    consumer owns a pending entry, and for how long it has been idle, is
    not recorded: the recovery loop that depends on it is not modelled.

    Scores are IEEE doubles on the server.  The only scores this program
    writes are [float64(t)] for a millisecond timestamp [t], and it reads
    them back with [int64(score)]; both conversions are exact up to 2^53
    (the year 287396), so the model keeps the integer itself. *)

Inductive iface : Type :=            (* the dynamic values of a map[string]interface{} *)
  | VString (s : string)
  | VInt (z : Z).

Record XMessage : Type := mkXMessage
  { ID : string; Values : gmap string iface }.

Record Group : Type := mkGroup
  { last_delivered : nat;      (* how many entries the group has handed out *)
    pel : gset string }.       (* ids handed out and not yet acknowledged *)

Record Stream : Type := mkStream
  { entries : list XMessage;
    groups : gmap string Group }.

#[global] Instance error_eq_dec : EqDecision error.
Proof. solve_decision. Defined.

#[global] Instance Stream_inhabited : Inhabited Stream :=
  populate (mkStream [] ∅).

Record Redis : Type := mkRedis
  { zsets : gmap string (gmap string Z);
    hashes : gmap string (gmap string string);
    strings : gmap string (string * option Z);
    streams : gmap string Stream }.

Definition set_zsets (f : gmap string (gmap string Z) → gmap string (gmap string Z))
    (r : Redis) : Redis :=
  mkRedis (f (zsets r)) (hashes r) (strings r) (streams r).
Definition set_hashes
    (f : gmap string (gmap string string) → gmap string (gmap string string))
    (r : Redis) : Redis :=
  mkRedis (zsets r) (f (hashes r)) (strings r) (streams r).
Definition set_strings
    (f : gmap string (string * option Z) → gmap string (string * option Z))
    (r : Redis) : Redis :=
  mkRedis (zsets r) (hashes r) (f (strings r)) (streams r).
Definition set_streams (f : gmap string Stream → gmap string Stream)
    (r : Redis) : Redis :=
  mkRedis (zsets r) (hashes r) (strings r) (f (streams r)).

(** *** Server side of the commands the program issues

    Each takes the store to the reply and the new store.  A nil reply is
    what go-redis turns into the error [redis.Nil]. *)

Record Z_ : Type := mkZ { Score : Z; Member : string }.   (* redis.Z *)

Definition zadd (key : string) (z : Z_) (r : Redis) : Z * Redis :=
  let zs := zsets r !!! key in
  (match zs !! Member z with Some _ => 0 | None => 1 end,
   set_zsets <[key := <[Member z := Score z]> zs]> r).

Definition zrem (key member : string) (r : Redis) : Z * Redis :=
  let zs := zsets r !!! key in
  (match zs !! member with Some _ => 1 | None => 0 end,
   set_zsets <[key := delete member zs]> r).

Definition zcard (key : string) (r : Redis) : Z * Redis :=
  (Z.of_nat (size (zsets r !!! key)), r).

(** Sorted sets are ordered by score, and by member among equal scores. *)
Definition z_le (a b : Z_) : Prop :=
  Score a < Score b ∨ (Score a = Score b ∧ String.leb (Member a) (Member b) = true).

#[global] Instance z_le_dec a b : Decision (z_le a b).
Proof. unfold z_le. apply _. Defined.

Definition in_range (lo hi : Z) (score : Z) : bool :=
  (lo <=? score) && (score <=? hi).

Definition zrangebyscore (key : string) (lo hi : Z) (r : Redis) : list Z_ * Redis :=
  let zs := zsets r !!! key in
  (merge_sort z_le
     ((λ p, mkZ p.2 p.1) <$> map_to_list (filter (λ p, in_range lo hi p.2 = true) zs)),
   r).

Definition zremrangebyscore (key : string) (lo hi : Z) (r : Redis) : Z * Redis :=
  let zs := zsets r !!! key in
  (Z.of_nat (size (filter (λ p, in_range lo hi p.2 = true) zs)),
   set_zsets <[key := filter (λ p, in_range lo hi p.2 ≠ true) zs]> r).

Definition hget (key field : string) (r : Redis) : option string * Redis :=
  ((hashes r !!! key) !! field, r).

Definition hset (key field value : string) (r : Redis) : Z * Redis :=
  let h := hashes r !!! key in
  (match h !! field with Some _ => 0 | None => 1 end,
   set_hashes <[key := <[field := value]> h]> r).

Definition hdel (key field : string) (r : Redis) : Z * Redis :=
  let h := hashes r !!! key in
  (match h !! field with Some _ => 1 | None => 0 end,
   set_hashes <[key := delete field h]> r).

(** [SET key value NX [EX ttl]]: go-redis adds the expiry only for a
    positive TTL. *)
Definition set_nx (key value : string) (ttl : Z) (r : Redis) : option string * Redis :=
  match strings r !! key with
  | Some _ => (None, r)
  | None =>
      (Some "OK",
       set_strings <[key := (value, if 0 <? ttl then Some ttl else None)]> r)
  end.

Definition get (key : string) (r : Redis) : option string * Redis :=
  (fst <$> strings r !! key, r).

(** [EXPIRE key ttl]: 1 when the key exists; a non-positive [ttl] deletes it. *)
Definition expire (key : string) (ttl : Z) (r : Redis) : Z * Redis :=
  match strings r !! key with
  | Some (v, _) =>
      (1, set_strings (if 0 <? ttl then <[key := (v, Some ttl)]> else delete key) r)
  | None => (0, r)
  end.

Definition del (key : string) (r : Redis) : Z * Redis :=
  match strings r !! key with
  | Some _ => (1, set_strings (delete key) r)
  | None => (0, r)
  end.

(** Stream ids are assigned by the server and increase with every append. *)
Definition next_id (s : Stream) : string :=
  itoa (Z.of_nat (length (entries s)) + 1) +:+ "-0".

Definition xadd (key : string) (values : gmap string iface) (r : Redis) : string * Redis :=
  let s := streams r !!! key in
  let id := next_id s in
  (id, set_streams <[key := mkStream (entries s ++ [mkXMessage id values]) (groups s)]> r).

Definition xack (key group id : string) (r : Redis) : Z * Redis :=
  let s := streams r !!! key in
  match groups s !! group with
  | Some g =>
      (if bool_decide (id ∈ pel g) then 1 else 0,
       set_streams
         <[key := mkStream (entries s)
                    (<[group := mkGroup (last_delivered g) (pel g ∖ {[id]})]> (groups s))]> r)
  | None => (0, r)
  end.

(** [XGROUP CREATE key group $ MKSTREAM] *)
Definition BUSYGROUP : string := "BUSYGROUP Consumer Group name already exists".

Definition xgroup_create_mkstream (key group : string) (r : Redis)
    : (string * option error) * Redis :=
  let s := streams r !!! key in
  match groups s !! group with
  | Some _ => (("", Some (server_error BUSYGROUP)), r)
  | None =>
      (("OK", None),
       set_streams
         <[key := mkStream (entries s)
                    (<[group := mkGroup (length (entries s)) ∅]> (groups s))]> r)
  end.

(** [XREADGROUP GROUP group consumer COUNT count BLOCK _ STREAMS key >]:
    the entries not yet handed out, at most [count] of them, which become
    pending; a nil reply when the block times out with nothing to hand out. *)
Definition xreadgroup (key group : string) (count : nat) (r : Redis)
    : (list XMessage * option error) * Redis :=
  let s := streams r !!! key in
  match groups s !! group with
  | None => (([], Some (server_error "NOGROUP")), r)
  | Some g =>
      match take count (drop (last_delivered g) (entries s)) with
      | [] => (([], Some redis_Nil), r)
      | msgs =>
          ((msgs, None),
           set_streams
             <[key := mkStream (entries s)
                        (<[group := mkGroup (last_delivered g + length msgs)
                                      (pel g ∪ list_to_set (ID <$> msgs))]> (groups s))]> r)
      end
  end.

(** ** The world of one replica

    [net] lists what happens to the successive round trips to the store:
    [None] is a healthy call; a lost request leaves the store untouched, a
    lost reply hides a command that the server did run; the client sees an
    error in both cases.  Once the list is used up every call is healthy.
    [now_ms] and [later] are the successive readings of the wall clock. *)

Inductive fault : Type := RequestLost | ReplyLost.

Record Metrics : Type := mkMetrics
  { WaitingConversationsCount : Z;
    TimeoutNotificationsSent : gmap string nat;
    TimeoutLeaderChanges : nat;
    StreamMessagesProcessed : gmap string nat }.

Record World : Type := mkWorld
  { rdb : Redis;
    net : list (option fault);
    now_ms : Z;
    later : list Z;
    isLeader : bool;                     (* le.isLeader *)
    metrics : Metrics;
    notified : list TimeoutEvent.t }.    (* what phase 1 handed to sendNotification *)

Definition set_rdb (r : Redis) (w : World) : World :=
  mkWorld r (net w) (now_ms w) (later w) (isLeader w) (metrics w) (notified w).
Definition set_net (n : list (option fault)) (w : World) : World :=
  mkWorld (rdb w) n (now_ms w) (later w) (isLeader w) (metrics w) (notified w).
Definition set_isLeader (b : bool) (w : World) : World :=
  mkWorld (rdb w) (net w) (now_ms w) (later w) b (metrics w) (notified w).
Definition set_metrics (f : Metrics → Metrics) (w : World) : World :=
  mkWorld (rdb w) (net w) (now_ms w) (later w) (isLeader w) (f (metrics w)) (notified w).
Definition set_notified (l : list TimeoutEvent.t) (w : World) : World :=
  mkWorld (rdb w) (net w) (now_ms w) (later w) (isLeader w) (metrics w) l.

Definition M (A : Type) : Type := World → A * World.

Definition ret {A} (a : A) : M A := λ w, (a, w).
Definition bind {A B} (m : M A) (k : A → M B) : M B :=
  λ w, let '(a, w') := m w in k a w'.

Notation "'let*' p ':=' m 'in' k" := (bind m (λ p, k))
  (at level 10, p pattern, m at level 100, k at level 200, only parsing).
Notation "m1 ';;;' m2" := (bind m1 (λ _, m2))
  (at level 100, m2 at level 200, right associativity, only parsing).

Definition run {A} (m : M A) (w : World) : World := (m w).2.
Definition result {A} (m : M A) (w : World) : A := (m w).1.

Definition modify (f : World → World) : M unit := λ w, (tt, f w).
Definition gets {A} (f : World → A) : M A := λ w, (f w, w).

(** [time.Now().UnixMilli()]: the current reading; the clock then moves
    on to the next one. *)
Definition advance (w : World) : World :=
  match later w with
  | [] => w
  | t :: ts => mkWorld (rdb w) (net w) t ts (isLeader w) (metrics w) (notified w)
  end.

Definition time_Now : M Z := λ w, (now_ms w, advance w).

(** One round trip: the client's view [(value, err)] of a server command. *)
Definition next_fault (w : World) : option fault :=
  match net w with
  | Some f :: _ => Some f
  | _ => None
  end.

Definition call {A} (zero : A) (op : Redis → (A * option error) * Redis)
    : M (A * option error) :=
  λ w,
    let rest := tail (net w) in
    match next_fault w with
    | None => let '(a, r) := op (rdb w) in (a, set_net rest (set_rdb r w))
    | Some RequestLost => ((zero, Some io_error), set_net rest w)
    | Some ReplyLost =>
        let '(_, r) := op (rdb w) in ((zero, Some io_error), set_net rest (set_rdb r w))
    end.

Definition replied {A} (op : Redis → A * Redis) (r : Redis) : (A * option error) * Redis :=
  let '(a, r') := op r in ((a, None), r').

(** A nil reply reaches the caller as the zero value and [redis.Nil]. *)
Definition nilable {A} (zero : A) (op : Redis → option A * Redis) (r : Redis)
    : (A * option error) * Redis :=
  let '(a, r') := op r in
  (match a with Some v => (v, None) | None => (zero, Some redis_Nil) end, r').

(** *** go-redis client calls *)

Definition ZCard (key : string) : M (Z * option error) :=
  call 0 (replied (zcard key)).
Definition ZRangeByScoreWithScores (key : string) (Min Max : Z) : M (list Z_ * option error) :=
  call [] (replied (zrangebyscore key Min Max)).
Definition ZRemRangeByScore (key : string) (Min Max : Z) : M (Z * option error) :=
  call 0 (replied (zremrangebyscore key Min Max)).
Definition HGet (key field : string) : M (string * option error) :=
  call "" (nilable "" (hget key field)).
Definition HSet (key field : string) (value : Z) : M (Z * option error) :=
  call 0 (replied (hset key field (itoa value))).
Definition Get (key : string) : M (string * option error) :=
  call "" (nilable "" (get key)).
Definition XAdd (key : string) (values : gmap string iface) : M (string * option error) :=
  call "" (replied (xadd key values)).
Definition XAck (key group id : string) : M (Z * option error) :=
  call 0 (replied (xack key group id)).
Definition XGroupCreateMkStream (key group : string) : M (string * option error) :=
  call "" (xgroup_create_mkstream key group).

Record XStream : Type := mkXStream { Stream_ : string; Messages : list XMessage }.

Definition XReadGroup (key group consumer : string) (Count : nat)
    : M (list XStream * option error) :=
  call [] (λ r, let '((msgs, err), r') := xreadgroup key group Count r in
                ((if failed err then [] else [mkXStream key msgs], err), r')).

(** [SetArgs] returns a [*StatusCmd]; go-redis v8 reads its reply with
    [ReadString], which reports the nil reply of a refused [NX] write as
    [redis.Nil]. *)
Definition SetArgs_NX (key value : string) (TTL : Z) : M (string * option error) :=
  call "" (nilable "" (set_nx key value TTL)).

(** A pipeline queues commands and sends them in one round trip; [Exec]
    returns the first error. None of the queued commands can fail on the
    server here. *)
Inductive Cmd : Type :=
  | ZAdd (key : string) (z : Z_)
  | ZRem (key member : string)
  | HDel (key field : string).

Definition run_cmd (c : Cmd) (r : Redis) : Redis :=
  match c with
  | ZAdd key z => (zadd key z r).2
  | ZRem key member => (zrem key member r).2
  | HDel key field => (hdel key field r).2
  end.

Definition Exec (pipe : list Cmd) : M (unit * option error) :=
  call tt (replied (λ r, (tt, foldl (λ r c, run_cmd c r) r pipe))).

(** ** Keys (the constants of packages [phase1] and [phase2]) *)

Definition LeaderKey : string := "timeout:leader".
Definition WaitingConversationsKey : string := "waiting_conversations".
Definition NotificationStatesKey : string := "notification_states".
Definition TimeoutEventsStream : string := "timeout_events".

(** The waiting index W, the notification state S, the lease L, the
    event stream E and the pending set P of the specification, in that
    order. *)
Definition waiting (r : Redis) : gmap string Z := zsets r !!! WaitingConversationsKey.
Definition states (r : Redis) : gmap string string := hashes r !!! NotificationStatesKey.
Definition lease (r : Redis) : option (string * option Z) := strings r !! LeaderKey.
Definition events (r : Redis) : list XMessage := entries (streams r !!! TimeoutEventsStream).
Definition pending (group : string) (r : Redis) : gset string :=
  default ∅ (pel <$> groups (streams r !!! TimeoutEventsStream) !! group).

(** ** The timeout index ([pkg/phase1/timeout_manager.go]) *)

Module TimeoutManager.

Definition TrackAgentMessage (agentMsg : AgentMessage.t) : M (option error) :=
  let timestamp := AgentMessage.Timestamp agentMsg in
  let pipe :=
    [ ZAdd WaitingConversationsKey
        {| Score := timestamp; Member := AgentMessage.ConversationID agentMsg |};
      HDel NotificationStatesKey (AgentMessage.ConversationID agentMsg) ] in
  let* (_, err) := Exec pipe in
  match err with
  | Some e => ret (Some (wrapf "failed to track agent message" e))
  | None => ret None
  end.

Definition ClearTimeout (customerResp : CustomerResponse.t) : M (option error) :=
  let pipe :=
    [ ZRem WaitingConversationsKey (CustomerResponse.ConversationID customerResp);
      HDel NotificationStatesKey (CustomerResponse.ConversationID customerResp) ] in
  let* (_, err) := Exec pipe in
  match err with
  | Some e => ret (Some (wrapf "failed to clear timeout" e))
  | None => ret None
  end.

Definition GetWaitingConversationsCount : M (Z * option error) :=
  let* (count, err) := ZCard WaitingConversationsKey in
  match err with
  | Some e => ret (0, Some (wrapf "failed to get waiting conversations count" e))
  | None => ret (count, None)
  end.

Definition GetNotificationState (conversationID : string) : M (Z * option error) :=
  let* (levelStr, err) := HGet NotificationStatesKey conversationID in
  match err with
  | Some redis_Nil => ret (0, None)
  | Some e => ret (0, Some (wrapf "failed to get notification state" e))
  | None =>
      match Atoi levelStr with
      | Some level => ret (level, None)
      | None => ret (0, Some (errorf "invalid notification level format"))
      end
  end.

(** [maxAge] is the duration, in whole milliseconds (the callers pass
    hours).  The function returns an [error] only; the number of removed
    entries goes to the log. *)
Definition CleanupExpiredConversations (maxAge : Z) : M (option error) :=
  let* now := time_Now in
  let cutoff := now - maxAge in
  let* (removed, err) := ZRemRangeByScore WaitingConversationsKey 0 cutoff in
  match err with
  | Some e => ret (Some (wrapf "failed to cleanup expired conversations" e))
  | None => ret None
  end.

End TimeoutManager.

(** ** The due level

    Both detectors ([processConversationTimeout] in phase 1,
    [processTimeoutDetection] in phase 2) carry the same two fragments:
    the reading of the stored level and the choice of the new one. *)

(** [currentLevel := 0; if currentLevelStr != "" { if level, err :=
    strconv.Atoi(currentLevelStr); err == nil { currentLevel = level } }] *)
Definition currentLevelOf (currentLevelStr : string) : Z :=
  if String.eqb currentLevelStr "" then 0
  else match Atoi currentLevelStr with
       | Some level => level
       | None => 0
       end.

(** The chain of comparisons; [None] is the [return] of the last branch. *)
Definition dueLevel (waitTime timeoutInterval currentLevel : Z) : option Z :=
  if (waitTime >? mul64 timeoutInterval 3) && (currentLevel <? 3) then Some 3
  else if (waitTime >? mul64 timeoutInterval 2) && (currentLevel <? 2) then Some 2
  else if (waitTime >? timeoutInterval) && (currentLevel <? 1) then Some 1
  else None.

Definition inc_label (label : string) (m : gmap string nat) : gmap string nat :=
  <[label := S (default O (m !! label))]> m.

Definition inc_TimeoutNotificationsSent (label : string) (m : Metrics) : Metrics :=
  mkMetrics (WaitingConversationsCount m) (inc_label label (TimeoutNotificationsSent m))
    (TimeoutLeaderChanges m) (StreamMessagesProcessed m).
Definition inc_StreamMessagesProcessed (label : string) (m : Metrics) : Metrics :=
  mkMetrics (WaitingConversationsCount m) (TimeoutNotificationsSent m)
    (TimeoutLeaderChanges m) (inc_label label (StreamMessagesProcessed m)).
Definition inc_TimeoutLeaderChanges (m : Metrics) : Metrics :=
  mkMetrics (WaitingConversationsCount m) (TimeoutNotificationsSent m)
    (S (TimeoutLeaderChanges m)) (StreamMessagesProcessed m).
Definition set_WaitingConversationsCount (n : Z) (m : Metrics) : Metrics :=
  mkMetrics n (TimeoutNotificationsSent m) (TimeoutLeaderChanges m)
    (StreamMessagesProcessed m).

(** Go's [for _, x := range xs { body(x) }] *)
Fixpoint for_range {A} (xs : list A) (body : A → M unit) : M unit :=
  match xs with
  | [] => ret tt
  | x :: xs' => body x ;;; for_range xs' body
  end.

(** ** Leader election and the phase 1 detector ([pkg/phase1/leader.go]) *)

Module LeaderElection.

(** The Lua scripts of [renewLeadership] and [resignLeadership]. *)
Definition renew_script (key argv1 : string) (argv2 : Z) (r : Redis) : Z * Redis :=
  if decide ((get key r).1 = Some argv1) then expire key argv2 r else (0, r).

Definition resign_script (key argv1 : string) (r : Redis) : Z * Redis :=
  if decide ((get key r).1 = Some argv1) then del key r else (0, r).

Definition renewLeadership (config : Config) : M unit :=
  let* (val, err) :=
    call 0 (replied (renew_script LeaderKey (PodID config) (LeaderElectionTTL config))) in
  match err with
  | Some _ => modify (set_isLeader false)
  | None => if val =? 0 then modify (set_isLeader false) else ret tt
  end.

Definition resignLeadership (config : Config) : M unit :=
  let* (_, err) := call 0 (replied (resign_script LeaderKey (PodID config))) in
  modify (set_isLeader false).

(** The [else] branch of [tryBecomeLeader]: the write was refused. *)
Definition checkLostLeadership (config : Config) : M unit :=
  let* leader := gets isLeader in
  if leader then
    let* (currentLeader, err) := Get LeaderKey in
    if failed err || negb (String.eqb currentLeader (PodID config))
    then modify (set_isLeader false)
    else ret tt
  else ret tt.

Definition tryBecomeLeader (config : Config) : M unit :=
  let* (val, err) :=
    SetArgs_NX LeaderKey (PodID config) (LeaderElectionTTL config) in
  match err with
  | Some _ => ret tt
  | None =>
      if String.eqb val "OK" then
        let* leader := gets isLeader in
        (if negb leader
         then modify (set_metrics inc_TimeoutLeaderChanges) ;;;
              modify (set_isLeader true)
         else ret tt) ;;;
        renewLeadership config
      else checkLostLeadership config
  end.

Definition IsLeader (config : Config) : M bool :=
  let* (currentLeader, err) := Get LeaderKey in
  match err with
  | Some _ => modify (set_isLeader false) ;;; ret false
  | None =>
      let isActualLeader := String.eqb currentLeader (PodID config) in
      modify (set_isLeader isActualLeader) ;;; ret isActualLeader
  end.

Definition Stop (config : Config) : M unit :=
  let* leader := gets isLeader in
  if leader then resignLeadership config else ret tt.

(** Phase 1 notifies by logging the event; [notified] keeps that log. *)
Definition sendNotification (conversationID : string) (level : Z) (startTime : Z)
    : M (option error) :=
  let* detectedAt := time_Now in
  let notification :=
    TimeoutEvent.mk conversationID level startTime detectedAt 1 in
  modify (λ w, set_notified (notified w ++ [notification]) w) ;;;
  ret None.

Definition processConversationTimeout (config : Config) (conversationID : string)
    (startTime now : Z) : M unit :=
  let waitTime := sub64 now startTime in
  let timeoutInterval := TimeoutIntervalMS config in
  let* (currentLevelStr, err) := HGet NotificationStatesKey conversationID in
  if failed err && negb (is_Nil err) then ret tt
  else
    let currentLevel := currentLevelOf currentLevelStr in
    match dueLevel waitTime timeoutInterval currentLevel with
    | None => ret tt
    | Some newLevel =>
        let* err := sendNotification conversationID newLevel startTime in
        match err with
        | Some _ => ret tt
        | None =>
            let* (_, err) := HSet NotificationStatesKey conversationID newLevel in
            match err with
            | Some _ => ret tt
            | None =>
                modify (set_metrics
                          (inc_TimeoutNotificationsSent ("level" +:+ itoa newLevel)))
            end
        end
    end.

Definition checkTimeouts (config : Config) : M unit :=
  let* now := time_Now in
  let* (conversations, err) := ZRangeByScoreWithScores WaitingConversationsKey 0 now in
  match err with
  | Some _ => ret tt
  | None =>
      modify (set_metrics
                (set_WaitingConversationsCount (Z.of_nat (length conversations)))) ;;;
      for_range conversations (λ conv,
        let conversationID := Member conv in
        let startTime := Score conv in
        processConversationTimeout config conversationID startTime now)
  end.

(** One tick of [leaderElectionLoop] and of [timeoutCheckLoop]. *)
Definition leaderElectionTick (config : Config) : M unit := tryBecomeLeader config.

Definition timeoutCheckTick (config : Config) : M unit :=
  let* leader := gets isLeader in
  if leader then checkTimeouts config else ret tt.

End LeaderElection.

(** ** The phase 2 detector (type [StreamProducer], package [phase2]) *)

Module StreamProducer.
Section producer.

(** [json.Marshal] of a [models.TimeoutEvent]; [None] is its error (the
    encoder of [time.Time] refuses years outside 0..9999). *)
Variable json_Marshal : TimeoutEvent.t → option string.

Definition createConsumerGroup (config : Config) : M (option error) :=
  let* (_, err) := XGroupCreateMkStream TimeoutEventsStream (ConsumerGroupName config) in
  match err with
  | Some e =>
      if bool_decide (e = server_error BUSYGROUP) then ret None
      else ret (Some (wrapf "failed to create consumer group" e))
  | None => ret None
  end.

(** The fields of a stream entry, as the client sends them: integers in
    decimal. *)
Definition stream_values (event : TimeoutEvent.t) (eventData : string)
    : gmap string iface :=
  {[ "conversation_id" := VString (TimeoutEvent.ConversationID event);
     "level" := VString (itoa (TimeoutEvent.Level event));
     "agent_message_time" := VString (itoa (TimeoutEvent.AgentMessageTime event));
     "detected_at" := VString (itoa (TimeoutEvent.DetectedAt event));
     "attempt" := VString (itoa (TimeoutEvent.Attempt event));
     "event_data" := VString eventData ]}.

Definition publishTimeoutEvent (conversationID : string) (level : Z) (startTime : Z)
    : M (option error) :=
  let* detectedAt := time_Now in
  let event := TimeoutEvent.mk conversationID level startTime detectedAt 1 in
  match json_Marshal event with
  | None => ret (Some (errorf "failed to marshal timeout event"))
  | Some eventData =>
      let* (messageID, err) := XAdd TimeoutEventsStream (stream_values event eventData) in
      match err with
      | Some e => ret (Some (wrapf "failed to add message to stream" e))
      | None => ret None
      end
  end.

Definition processTimeoutDetection (config : Config) (conversationID : string)
    (startTime now : Z) : M unit :=
  let waitTime := sub64 now startTime in
  let timeoutInterval := TimeoutIntervalMS config in
  let* (currentLevelStr, err) := HGet NotificationStatesKey conversationID in
  if failed err && negb (is_Nil err) then ret tt
  else
    let currentLevel := currentLevelOf currentLevelStr in
    match dueLevel waitTime timeoutInterval currentLevel with
    | None => ret tt
    | Some newLevel =>
        let* err := publishTimeoutEvent conversationID newLevel startTime in
        match err with
        | Some _ => ret tt
        | None =>
            (* a failed HSet is logged and nothing else *)
            let* (_, err) := HSet NotificationStatesKey conversationID newLevel in
            ret tt
        end
    end.

Definition detectAndPublishTimeouts (config : Config) : M unit :=
  let* now := time_Now in
  let* (conversations, err) := ZRangeByScoreWithScores WaitingConversationsKey 0 now in
  match err with
  | Some _ => ret tt
  | None =>
      modify (set_metrics
                (set_WaitingConversationsCount (Z.of_nat (length conversations)))) ;;;
      for_range conversations (λ conv,
        let conversationID := Member conv in
        let startTime := Score conv in
        processTimeoutDetection config conversationID startTime now)
  end.

(** One tick of [timeoutDetectionLoop]. *)
Definition timeoutDetectionTick (config : Config) : M unit :=
  let* leader := LeaderElection.IsLeader config in
  if leader then detectAndPublishTimeouts config else ret tt.

End producer.
End StreamProducer.

(** ** The event consumer (type [StreamConsumer], package [phase2]) *)

Module StreamConsumer.

Definition consumerName (config : Config) : string := "consumer-" +:+ PodID config.

(** [v, ok := message.Values[key].(string)] *)
Definition as_string (v : option iface) : option string :=
  match v with
  | Some (VString s) => Some s
  | _ => None
  end.

Definition parseTimeoutEvent (message : XMessage) : TimeoutEvent.t + error :=
  match as_string (Values message !! "conversation_id") with
  | None => inr (errorf "missing or invalid conversation_id")
  | Some convID =>
  match as_string (Values message !! "level") with
  | None => inr (errorf "missing or invalid level")
  | Some levelStr =>
  match Atoi levelStr with
  | None => inr (errorf "invalid level format")
  | Some level =>
  match as_string (Values message !! "agent_message_time") with
  | None => inr (errorf "missing or invalid agent_message_time")
  | Some agentTimeStr =>
  match ParseInt agentTimeStr with
  | None => inr (errorf "invalid agent_message_time format")
  | Some agentTime =>
  match as_string (Values message !! "detected_at") with
  | None => inr (errorf "missing or invalid detected_at")
  | Some detectedAtStr =>
  match ParseInt detectedAtStr with
  | None => inr (errorf "invalid detected_at format")
  | Some detectedAt =>
  match as_string (Values message !! "attempt") with
  | None => inl (TimeoutEvent.mk convID level agentTime detectedAt 1)
  | Some attemptStr =>
  match Atoi attemptStr with
  | None => inr (errorf "invalid attempt format")
  | Some attempt => inl (TimeoutEvent.mk convID level agentTime detectedAt attempt)
  end end end end end end end end end.

(** The consumer's own sink logs the event, waits 10 ms, and returns [nil]. *)
Definition sendNotification (event : TimeoutEvent.t) : option error := None.

Definition acknowledgeMessage (config : Config) (messageID : string) : M (option error) :=
  let* (_, err) := XAck TimeoutEventsStream (ConsumerGroupName config) messageID in
  ret err.

Section consumer.

(** The notification sink: an outside service, which does not touch
    the store.  The program passes [sendNotification]; the branch for
    a failing sink is the one a real service would take. *)
Variable sink : TimeoutEvent.t → option error.

Definition processMessageWith (config : Config) (message : XMessage) : M unit :=
  match parseTimeoutEvent message with
  | inr _ =>
      modify (set_metrics (inc_StreamMessagesProcessed "parse_error")) ;;;
      acknowledgeMessage config (ID message) ;;;
      ret tt
  | inl event =>
      match sink event with
      | Some _ =>
          modify (set_metrics (inc_StreamMessagesProcessed "notification_error"))
      | None =>
          let* err := acknowledgeMessage config (ID message) in
          match err with
          | Some _ => ret tt
          | None =>
              modify (set_metrics (inc_StreamMessagesProcessed "success")) ;;;
              modify (set_metrics
                        (inc_TimeoutNotificationsSent
                           ("level" +:+ itoa (TimeoutEvent.Level event))))
          end
      end
  end.

Definition consumeMessagesWith (config : Config) : M unit :=
  let* (streams, err) :=
    XReadGroup TimeoutEventsStream (ConsumerGroupName config) (consumerName config) 10 in
  match err with
  | Some _ => ret tt
  | None =>
      for_range streams (λ stream,
        for_range (Messages stream) (λ message,
          processMessageWith config message))
  end.

End consumer.

Definition processMessage : Config → XMessage → M unit :=
  processMessageWith sendNotification.

Definition consumeMessages : Config → M unit :=
  consumeMessagesWith sendNotification.

End StreamConsumer.

(** ** The hourly cleanup (type [Service] of [phase1], [pkg/phase1/service.go]) *)

Module phase1_Service.

(** [24 * time.Hour], in milliseconds. *)
Definition cleanupMaxAge : Z := 24 * 3600 * 1000.

(** One tick of [cleanupRoutine]; a failed cleanup is logged. *)
Definition cleanupTick (config : Config) : M unit :=
  let* leader := LeaderElection.IsLeader config in
  if leader then
    let* err := TimeoutManager.CleanupExpiredConversations cleanupMaxAge in
    ret tt
  else ret tt.

End phase1_Service.

(** ** The HTTP handlers (type [Service] of [phase2], [pkg/phase2/handlers.go])

    A handler receives the [id] of the route and the request body as
    [json.Decoder] leaves it: [None] when decoding fails, and a timestamp
    of [None] for the zero [time.Time] of an omitted field.  It answers
    with a status code and a body. *)

Module phase2_Service.

Module AgentRequest.
Record t : Type := mk
  { AgentID : string; MessageID : string; Timestamp : option Z }.
End AgentRequest.

Module CustomerRequest.
Record t : Type := mk
  { CustomerID : string; MessageID : string; Timestamp : option Z }.
End CustomerRequest.

Inductive Body : Type :=
  | PlainText (msg : string)                                  (* http.Error *)
  | Tracked (conversation_id : string) (tracked_at : Z)
  | Cleared (conversation_id : string) (cleared_at : Z)
  | Health (is_leader : bool) (waiting_conversations : Z) (timestamp : Z)
  | Status (pod_id : string) (is_leader : bool) (waiting_conversations : Z)
           (timestamp : Z).

Record Response : Type := mkResponse { StatusCode : Z; Payload : Body }.

Definition StatusOK : Z := 200.
Definition StatusBadRequest : Z := 400.
Definition StatusInternalServerError : Z := 500.
Definition StatusServiceUnavailable : Z := 503.

Definition http_Error (msg : string) (code : Z) : Response :=
  mkResponse code (PlainText msg).

(** [if request.Timestamp.IsZero() { request.Timestamp = time.Now() }] *)
Definition orNow (timestamp : option Z) : M Z :=
  match timestamp with
  | Some t => ret t
  | None => time_Now
  end.

Definition handleAgentMessage (conversationID : string) (decoded : option AgentRequest.t)
    : M Response :=
  if String.eqb conversationID "" then
    ret (http_Error "Missing conversation ID" StatusBadRequest)
  else
    match decoded with
    | None => ret (http_Error "Invalid request body" StatusBadRequest)
    | Some request =>
        let* timestamp := orNow (AgentRequest.Timestamp request) in
        let agentMsg :=
          AgentMessage.mk conversationID (AgentRequest.AgentID request)
            (AgentRequest.MessageID request) timestamp in
        let* err := TimeoutManager.TrackAgentMessage agentMsg in
        match err with
        | Some _ => ret (http_Error "Internal server error" StatusInternalServerError)
        | None => ret (mkResponse StatusOK (Tracked conversationID timestamp))
        end
    end.

Definition handleCustomerResponse (conversationID : string)
    (decoded : option CustomerRequest.t) : M Response :=
  if String.eqb conversationID "" then
    ret (http_Error "Missing conversation ID" StatusBadRequest)
  else
    match decoded with
    | None => ret (http_Error "Invalid request body" StatusBadRequest)
    | Some request =>
        let* timestamp := orNow (CustomerRequest.Timestamp request) in
        let customerResp :=
          CustomerResponse.mk conversationID (CustomerRequest.CustomerID request)
            (CustomerRequest.MessageID request) timestamp in
        let* err := TimeoutManager.ClearTimeout customerResp in
        match err with
        | Some _ => ret (http_Error "Internal server error" StatusInternalServerError)
        | None => ret (mkResponse StatusOK (Cleared conversationID timestamp))
        end
    end.

(** [s.IsLeader()] is [sp.leaderElection.IsLeader()]. *)
Definition handleHealth (config : Config) : M Response :=
  let* (count, err) := TimeoutManager.GetWaitingConversationsCount in
  match err with
  | Some _ => ret (http_Error "Health check failed" StatusServiceUnavailable)
  | None =>
      let* leader := LeaderElection.IsLeader config in
      let* now := time_Now in
      ret (mkResponse StatusOK (Health leader count now))
  end.

Definition handleStatus (config : Config) : M Response :=
  let* (count, err) := TimeoutManager.GetWaitingConversationsCount in
  match err with
  | Some _ => ret (http_Error "Failed to get status" StatusInternalServerError)
  | None =>
      let* leader := LeaderElection.IsLeader config in
      let* now := time_Now in
      ret (mkResponse StatusOK (Status (PodID config) leader count now))
  end.

End phase2_Service.

(** ** The environment ([pkg/config/config.go])

    [os.Getenv] returns the empty string for a variable that is not set.
    [Load] is given the identifier that [generatePodID] draws from the
    host name and a fresh UUID; of the fields it fills, the ones of
    [Config] above are kept. *)

Module config_pkg.

Definition os_Getenv (env : gmap string string) (key : string) : string :=
  default "" (env !! key).

Definition getEnv (env : gmap string string) (key defaultValue : string) : string :=
  let value := os_Getenv env key in
  if negb (String.eqb value "") then value else defaultValue.

Definition getEnvInt (env : gmap string string) (key : string) (defaultValue : Z) : Z :=
  let value := os_Getenv env key in
  if negb (String.eqb value "") then
    match Atoi value with
    | Some intValue => intValue
    | None => defaultValue
    end
  else defaultValue.

Definition getEnvInt64 (env : gmap string string) (key : string) (defaultValue : Z) : Z :=
  let value := os_Getenv env key in
  if negb (String.eqb value "") then
    match ParseInt value with
    | Some intValue => intValue
    | None => defaultValue
    end
  else defaultValue.

Definition Load (env : gmap string string) (generatePodID : string) : Config :=
  {| TimeoutIntervalMS := getEnvInt64 env "TIMEOUT_INTERVAL_MS" 30000;
     CheckIntervalMS := getEnvInt64 env "CHECK_INTERVAL_MS" 1000;
     LeaderElectionTTL := getEnvInt env "LEADER_ELECTION_TTL" 10;
     PodID := getEnv env "POD_ID" generatePodID;
     ConsumerGroupName := getEnv env "CONSUMER_GROUP_NAME" "timeout-processors" |}.

End config_pkg.

(** ** The thresholds of package [constants] *)

Module constants.

Definition TimeoutLevel1Multiplier : Z := 1.
Definition TimeoutLevel2Multiplier : Z := 2.
Definition TimeoutLevel3Multiplier : Z := 3.

Definition TimeoutLevel1 : Z := 1.
Definition TimeoutLevel2 : Z := 2.
Definition TimeoutLevel3 : Z := 3.

Definition GetTimeoutThresholdMS (baseIntervalMS level : Z) : Z :=
  if level =? TimeoutLevel1 then mul64 baseIntervalMS TimeoutLevel1Multiplier
  else if level =? TimeoutLevel2 then mul64 baseIntervalMS TimeoutLevel2Multiplier
  else if level =? TimeoutLevel3 then mul64 baseIntervalMS TimeoutLevel3Multiplier
  else baseIntervalMS.

End constants.

(** ** Observations used in the statements *)

(** The level a detector reads for a conversation. *)
Definition storedLevel (r : Redis) (c : string) : Z :=
  currentLevelOf (default "" (states r !! c)).

(** The stream entry [m] is the encoding of [event]. *)
Definition carries (m : XMessage) (event : TimeoutEvent.t) : Prop :=
  ∃ data, Values m = StreamProducer.stream_values event data.

(** The next [n] round trips are healthy. *)
Definition healthy (n : nat) (w : World) : Prop :=
  Forall (λ o, o = None) (take n (net w)).

(** The level that is due for a conversation, as both detectors compute
    it from the store. *)
Definition due (config : Config) (c : string) (s now : Z) (r : Redis) : option Z :=
  dueLevel (sub64 now s) (TimeoutIntervalMS config) (storedLevel r c).

(** What a step of either detector can do to the store. *)
Inductive outcome : Type :=
  | Untouched
  | Appended (event : TimeoutEvent.t) (data : string)
  | Escalated (event : TimeoutEvent.t) (data : string).

Definition store_after (r : Redis) (o : outcome) : Redis :=
  match o with
  | Untouched => r
  | Appended event data =>
      (xadd TimeoutEventsStream (StreamProducer.stream_values event data) r).2
  | Escalated event data =>
      (hset NotificationStatesKey (TimeoutEvent.ConversationID event)
         (itoa (TimeoutEvent.Level event))
         (xadd TimeoutEventsStream (StreamProducer.stream_values event data) r).2).2
  end.

(** Between the stores [r] and [r'], exactly one entry was appended to the
    event stream, and it is the encoding of [event]. *)
Definition appended_one (r r' : Redis) (event : TimeoutEvent.t) : Prop :=
  ∃ m, events r' = events r ++ [m] ∧ carries m event.

(** The conversation that a stream entry names. *)
Definition entry_conversation (m : XMessage) : option string :=
  StreamConsumer.as_string (Values m !! "conversation_id").

(** The reading of the cleanup that the specification gives: an entry of
    the waiting index is removed exactly when its score is below
    [now - maxAge]. *)
Definition removes_exactly_below (maxAge : Z) (w : World) : Prop :=
  let w' := run (TimeoutManager.CleanupExpiredConversations maxAge) w in
  ∀ c score,
    waiting (rdb w) !! c = Some score →
    (waiting (rdb w') !! c = None ↔ score < now_ms w - maxAge).

(** A computation that leaves a healthy network healthy. *)
Definition quiet {A} (m : M A) : Prop := ∀ w, net w = [] → net (m w).2 = [].

(** ** Concrete worlds *)

Definition empty_redis : Redis := mkRedis ∅ ∅ ∅ ∅.
Definition no_metrics : Metrics := mkMetrics 0 ∅ O ∅.

(** A follower in front of the store [r], at time [now], with a healthy
    network and a clock that stands still. *)
Definition world_at (r : Redis) (now : Z) : World :=
  mkWorld r [] now [] false no_metrics [].

(** At [now = 4000]: [conv_a] was written to exactly 3 s ago, [conv_b]
    5 ms earlier, and [conv_z] carries a timestamp from before the epoch. *)
Definition cleanup_world : World :=
  world_at
    (set_zsets
       <[WaitingConversationsKey :=
           {[ "conv_a" := 1000; "conv_b" := 995; "conv_z" := -5 ]}]>
       empty_redis)
    4000.

(** The replica [pod-a] believes it leads and holds the lease, of which
    3 of the 10 seconds are left. *)
Definition config_a : Config :=
  mkConfig 1000 100 10 "pod-a" "timeout-processors".

Definition leader_world : World :=
  set_isLeader true
    (world_at (set_strings <[LeaderKey := ("pod-a", Some 3)]> empty_redis) 7000).

(** An encoder that accepts every event. *)
Definition json_stub (event : TimeoutEvent.t) : option string := Some "{}".

(** Scenario A of the specification, with [N = 1000]: [convA] was written
    to at time 0 and nothing has been published for it. *)
Definition scenario_A (now : Z) : World :=
  world_at (set_zsets <[WaitingConversationsKey := {[ "convA" := 0 ]}]> empty_redis) now.

(** Two waiting conversations at time 3001: [convA] since 0, [convB] since
    1500. *)
Definition two_waiting : Redis :=
  set_zsets <[WaitingConversationsKey := {[ "convA" := 0; "convB" := 1500 ]}]> empty_redis.

(** The same, with a network that loses the second request. *)
Definition lossy_world : World :=
  set_net [None; Some RequestLost] (world_at two_waiting 3001).

(** Scenario C: [convC], waiting since 0, has reached level 2. *)
Definition scenario_C : World :=
  world_at
    (set_hashes <[NotificationStatesKey := {[ "convC" := "2" ]}]>
       (set_zsets <[WaitingConversationsKey := {[ "convC" := 0 ]}]> empty_redis))
    2500.

(** [convA], waiting since 0, with a stored level that is no number. *)
Definition garbled_world : World :=
  world_at
    (set_hashes <[NotificationStatesKey := {[ "convA" := "two" ]}]>
       (set_zsets <[WaitingConversationsKey := {[ "convA" := 0 ]}]> empty_redis))
    2001.

(** The level that a stream entry names. *)
Definition entry_level (m : XMessage) : option string :=
  StreamConsumer.as_string (Values m !! "level").

(** A leader's detection pass, and [n] of them in a row. *)
Definition pass : M unit :=
  StreamProducer.detectAndPublishTimeouts json_stub config_a.

Fixpoint passes (n : nat) : M unit :=
  match n with
  | O => ret tt
  | S n' => pass ;;; passes n'
  end.

(** The clock of scenario A: a pass and the event it publishes read the
    same millisecond; the passes are at 1001, 2001, 3001 and 4000 ms. *)
Definition scenario_A_clock : World :=
  mkWorld (rdb (scenario_A 0)) [] 1001 [1001; 2001; 2001; 3001; 3001; 4000]
    false no_metrics [].

(** A second replica, [pod-b]. *)
Definition config_b : Config :=
  mkConfig 1000 100 10 "pod-b" "timeout-processors".

(** How many entries of the event stream a consumer group has been
    handed. *)
Definition delivered (group : string) (r : Redis) : nat :=
  default O (last_delivered <$> groups (streams r !!! TimeoutEventsStream) !! group).

(** The event stream holds a level 1 event for [convA] and an entry
    without fields; the consumer group has been handed neither. *)
Definition unread_world : World :=
  world_at
    (set_streams
       <[TimeoutEventsStream :=
           mkStream
             [ mkXMessage "1-0"
                 (StreamProducer.stream_values (TimeoutEvent.mk "convA" 1 0 1001 1) "{}");
               mkXMessage "2-0" ∅ ]
             {[ "timeout-processors" := mkGroup 0 ∅ ]}]>
       empty_redis)
    1500.

(** Every reading of the wall clock is an [int64], as [UnixMilli]
    returns one. *)
Definition clock_ok (w : World) : Prop :=
  in_int64 (now_ms w) = true ∧ Forall (λ t, in_int64 t = true) (later w).

(** The event stream holds one entry and no consumer group yet. *)
Definition ungrouped_world : World :=
  world_at
    (set_streams
       <[TimeoutEventsStream :=
           mkStream
             [ mkXMessage "1-0"
                 (StreamProducer.stream_values (TimeoutEvent.mk "convA" 1 0 1001 1) "{}") ]
             ∅]>
       empty_redis)
    1500.

(** The replica [pod-a] holds the lease, a little more than a day after
    the epoch; [conv_old] has waited for longer than a day, [conv_new] for
    a second. *)
Definition day_old_world : World :=
  world_at
    (set_strings <[LeaderKey := ("pod-a", Some 3)]>
       (set_zsets
          <[WaitingConversationsKey := {[ "conv_old" := 1000; "conv_new" := 99999000 ]}]>
          empty_redis))
    100000000.

(** * Properties *)

(** ** The store and the client *)

Section client.

Context {A : Type} (zero : A) (op : Redis → (A * option error) * Redis).

Lemma call_healthy w :
  next_fault w = None →
  call zero op w = ((op (rdb w)).1, set_net (tail (net w)) (set_rdb (op (rdb w)).2 w)).
Proof. intros H. unfold call. rewrite H. by destruct (op (rdb w)). Qed.

Lemma call_request_lost w :
  next_fault w = Some RequestLost →
  call zero op w = ((zero, Some io_error), set_net (tail (net w)) w).
Proof. intros H. unfold call. by rewrite H. Qed.

Lemma call_reply_lost w :
  next_fault w = Some ReplyLost →
  call zero op w
  = ((zero, Some io_error), set_net (tail (net w)) (set_rdb (op (rdb w)).2 w)).
Proof. intros H. unfold call. rewrite H. by destruct (op (rdb w)). Qed.

(** Whatever happens to the call, the store is either untouched or the
    one the command produces, and an untouched store comes with an error
    or with the command's own reply. *)
Lemma call_cases w :
  (call zero op w = ((op (rdb w)).1, set_net (tail (net w)) (set_rdb (op (rdb w)).2 w)))
  ∨ (call zero op w = ((zero, Some io_error), set_net (tail (net w)) w))
  ∨ (call zero op w
     = ((zero, Some io_error), set_net (tail (net w)) (set_rdb (op (rdb w)).2 w))).
Proof.
  destruct (next_fault w) as [[]|] eqn:H;
    eauto using call_healthy, call_request_lost, call_reply_lost.
Qed.

End client.

Lemma healthy_next n w : healthy (S n) w → next_fault w = None.
Proof.
  unfold healthy, next_fault. destruct (net w) as [|[f|] l]; simpl; try done.
  intros H. by apply Forall_cons in H as [? _].
Qed.

Lemma healthy_nil n w : net w = [] → healthy n w.
Proof. unfold healthy. intros ->. by rewrite take_nil. Qed.

(** Views of the store after each server command. *)

#[local] Arguments zadd : simpl never.
#[local] Arguments zrem : simpl never.
#[local] Arguments hset : simpl never.
#[local] Arguments hdel : simpl never.
#[local] Arguments xadd : simpl never.
#[local] Arguments xack : simpl never.
#[local] Arguments zrangebyscore : simpl never.
#[local] Arguments zremrangebyscore : simpl never.

Lemma waiting_zadd z r :
  waiting (zadd WaitingConversationsKey z r).2 = <[Member z := Score z]> (waiting r).
Proof. unfold waiting, zadd. simpl. by rewrite lookup_total_insert_eq. Qed.

Lemma waiting_zrem c r :
  waiting (zrem WaitingConversationsKey c r).2 = delete c (waiting r).
Proof. unfold waiting, zrem. simpl. by rewrite lookup_total_insert_eq. Qed.

Lemma states_hdel c r :
  states (hdel NotificationStatesKey c r).2 = delete c (states r).
Proof. unfold states, hdel. simpl. by rewrite lookup_total_insert_eq. Qed.

Lemma states_hset c v r :
  states (hset NotificationStatesKey c v r).2 = <[c := v]> (states r).
Proof. unfold states, hset. simpl. by rewrite lookup_total_insert_eq. Qed.

Lemma storedLevel_absent r c : states r !! c = None → storedLevel r c = 0.
Proof. unfold storedLevel. by intros ->. Qed.

(** ** The timeout index *)

Section timeout_index.

Import TimeoutManager.

Lemma Exec_result_None pipe w :
  (Exec pipe w).1.2 = None →
  rdb (Exec pipe w).2 = foldl (λ r c, run_cmd c r) (rdb w) pipe.
Proof.
  unfold Exec. destruct (call_cases tt
    (replied (λ r, (tt, foldl (λ r c, run_cmd c r) r pipe))) w) as [-> | [-> | ->]];
    simpl; done.
Qed.

Lemma Exec_cases pipe w :
  rdb (Exec pipe w).2 = rdb w
  ∨ rdb (Exec pipe w).2 = foldl (λ r c, run_cmd c r) (rdb w) pipe.
Proof.
  unfold Exec. destruct (call_cases tt
    (replied (λ r, (tt, foldl (λ r c, run_cmd c r) r pipe))) w) as [-> | [-> | ->]];
    simpl; auto.
Qed.

Lemma Exec_healthy pipe w :
  next_fault w = None →
  (Exec pipe w).1.2 = None.
Proof. intros H. unfold Exec. by rewrite call_healthy. Qed.


Lemma ClearTimeout_result customerResp w :
  result (ClearTimeout customerResp) w = None →
  rdb (run (ClearTimeout customerResp) w)
  = (hdel NotificationStatesKey (CustomerResponse.ConversationID customerResp)
       (zrem WaitingConversationsKey
          (CustomerResponse.ConversationID customerResp) (rdb w)).2).2.
Proof.
  unfold result, run, ClearTimeout, bind.
  destruct (Exec _ w) as [[u err] w'] eqn:HE.
  destruct err; simpl; [done|]. intros _.
  match type of HE with
  | Exec ?pipe _ = _ => pose proof (Exec_result_None pipe w) as H
  end.
  rewrite HE in H. by apply H.
Qed.

Lemma waiting_hdel c r : waiting (hdel NotificationStatesKey c r).2 = waiting r.
Proof. done. Qed.


Lemma states_zrem c r : states (zrem WaitingConversationsKey c r).2 = states r.
Proof. done. Qed.


(** C6. After [ClearTimeout] for conversation [c] has succeeded, [c] is
    in neither the waiting index nor the notification state; over a
    healthy round trip the call succeeds whether or not [c] was tracked,
    and when it was not, both maps are left as they were. *)
Theorem C6_clear_timeout_idempotent (customerResp : CustomerResponse.t) (w : World) :
  let c := CustomerResponse.ConversationID customerResp in
  let r' := rdb (run (ClearTimeout customerResp) w) in
  (result (ClearTimeout customerResp) w = None →
     waiting r' !! c = None ∧ states r' !! c = None)
  ∧ (next_fault w = None → result (ClearTimeout customerResp) w = None)
  ∧ (waiting (rdb w) !! c = None → states (rdb w) !! c = None →
     waiting r' = waiting (rdb w) ∧ states r' = states (rdb w)
     ∧ lease r' = lease (rdb w) ∧ events r' = events (rdb w)).
Proof.
  intros c r'. split; [|split].
  - intros Hok. subst r'. rewrite (ClearTimeout_result _ _ Hok).
    rewrite waiting_hdel, states_hdel, waiting_zrem. fold c.
    by rewrite !lookup_delete_eq.
  - intros H. unfold result, ClearTimeout, bind.
    pose proof (Exec_healthy
      [ZRem WaitingConversationsKey c; HDel NotificationStatesKey c] w H) as HE.
    fold c. destruct (Exec _ w) as [[u err] w']. simpl in HE. by subst err.
  - intros HW HS.
    assert (r' = rdb (Exec [ZRem WaitingConversationsKey c;
                            HDel NotificationStatesKey c] w).2) as ->.
    { subst r'. unfold run, ClearTimeout, bind. fold c.
      by destruct (Exec _ w) as [[u [e|]] w']. }
    destruct (Exec_cases [ZRem WaitingConversationsKey c;
                          HDel NotificationStatesKey c] w) as [-> | ->]; [done|].
    change (foldl _ (rdb w) _)
      with (hdel NotificationStatesKey c (zrem WaitingConversationsKey c (rdb w)).2).2.
    rewrite waiting_hdel, states_hdel, waiting_zrem, states_zrem.
    by rewrite !delete_id.
Qed.

End timeout_index.

(** ** Machine arithmetic and the due level *)

Lemma wrap64_exact z : min_int64 ≤ z ≤ max_int64 → wrap64 z = z.
Proof.
  unfold wrap64, min_int64, max_int64. intros H.
  rewrite Z.mod_small; lia.
Qed.

Lemma in_int64_spec z : in_int64 z = true ↔ min_int64 ≤ z ≤ max_int64.
Proof. unfold in_int64. rewrite andb_true_iff, !Z.leb_le. done. Qed.

(** With [3 * N] representable, the chain of comparisons is the one of
    the specification, over the integers. *)
Lemma dueLevel_exact wait N cur :
  min_int64 ≤ 3 * N ≤ max_int64 →
  dueLevel wait N cur
  = if decide (wait > 3 * N ∧ cur < 3) then Some 3
    else if decide (wait > 2 * N ∧ cur < 2) then Some 2
    else if decide (wait > N ∧ cur < 1) then Some 1
    else None.
Proof.
  intros H. unfold dueLevel, mul64.
  rewrite !wrap64_exact by (unfold min_int64, max_int64 in *; lia).
  rewrite !Z.gtb_ltb.
  repeat case_decide;
    repeat match goal with
           | |- context [?a <? ?b] => destruct (Z.ltb_spec a b)
           end; simpl; try done; lia.
Qed.

Lemma dueLevel_levels wait N cur lvl :
  dueLevel wait N cur = Some lvl → lvl = 1 ∨ lvl = 2 ∨ lvl = 3.
Proof.
  unfold dueLevel. repeat case_match; naive_solver.
Qed.

(** Only a level above the current one is ever due. *)
Lemma dueLevel_above wait N cur lvl : dueLevel wait N cur = Some lvl → cur < lvl.
Proof.
  unfold dueLevel.
  repeat match goal with
         | |- context [?a <? ?b] => destruct (Z.ltb_spec a b)
         end; rewrite ?andb_false_r; simpl; repeat case_match; naive_solver lia.
Qed.

(** ** The detectors *)

#[local] Arguments advance : simpl never.

Lemma set_rdb_same w : set_rdb (rdb w) w = w.
Proof. by destruct w. Qed.

Lemma rdb_advance w : rdb (advance w) = rdb w.
Proof. unfold advance. by destruct (later w). Qed.

Lemma net_advance w : net (advance w) = net w.
Proof. unfold advance. by destruct (later w). Qed.

Lemma next_fault_advance w : next_fault (advance w) = next_fault w.
Proof. unfold next_fault. by rewrite net_advance. Qed.

Lemma HGet_healthy key c w :
  next_fault w = None →
  HGet key c w
  = ((default "" ((hashes (rdb w) !!! key) !! c),
      match (hashes (rdb w) !!! key) !! c with
      | Some _ => None
      | None => Some redis_Nil
      end),
     set_net (tail (net w)) w).
Proof.
  intros Hf. unfold HGet. rewrite call_healthy by done.
  unfold nilable, hget. simpl. rewrite set_rdb_same. by destruct (_ !! c).
Qed.

Lemma HGet_faulty key c w f :
  next_fault w = Some f →
  HGet key c w = (("", Some io_error), set_net (tail (net w)) w).
Proof.
  intros Hf. unfold HGet. destruct f.
  - by rewrite call_request_lost.
  - rewrite call_reply_lost by done. simpl. by rewrite set_rdb_same.
Qed.

Lemma healthy_after n w w' :
  healthy (S n) w → net w' = tail (net w) → healthy n w'.
Proof.
  unfold healthy. intros H ->. destruct (net w) as [|o l]; simpl.
  - by rewrite take_nil.
  - by apply Forall_cons in H as [_ ?].
Qed.

Lemma nil_is_not_failure (o : option string) :
  failed (match o with Some _ => None | None => Some redis_Nil end)
  && negb (is_Nil (match o with Some _ => None | None => Some redis_Nil end)) = false.
Proof. by destruct o. Qed.

(** Views after an append and after a state write. *)

Lemma events_xadd values r :
  events (xadd TimeoutEventsStream values r).2
  = events r ++ [mkXMessage (next_id (streams r !!! TimeoutEventsStream)) values].
Proof. unfold events, xadd. simpl. by rewrite lookup_total_insert_eq. Qed.

Lemma states_xadd values r : states (xadd TimeoutEventsStream values r).2 = states r.
Proof. done. Qed.

Lemma waiting_xadd values r : waiting (xadd TimeoutEventsStream values r).2 = waiting r.
Proof. done. Qed.

Lemma events_hset c v r : events (hset NotificationStatesKey c v r).2 = events r.
Proof. done. Qed.

Lemma waiting_hset c v r : waiting (hset NotificationStatesKey c v r).2 = waiting r.
Proof. done. Qed.

Section producer_facts.

Import StreamProducer.

Variable json_Marshal : TimeoutEvent.t → option string.
Variable config : Config.

#[local] Abbreviation process := (processTimeoutDetection json_Marshal config).


Lemma processTimeoutDetection_cases c s now w :
  ∃ o, rdb (run (process c s now) w) = store_after (rdb w) o
       ∧ match o with
         | Untouched => True
         | Appended event data | Escalated event data =>
             ∃ lvl, due config c s now (rdb w) = Some lvl
                    ∧ event = TimeoutEvent.mk c lvl s (now_ms w) 1
                    ∧ json_Marshal event = Some data
         end.
Proof.
  unfold run, processTimeoutDetection, bind.
  destruct (next_fault w) as [f|] eqn:Hf;
    [rewrite (HGet_faulty _ _ _ f) by done; by exists Untouched|].
  rewrite HGet_healthy by done.
  fold (states (rdb w)). rewrite nil_is_not_failure.
  fold (storedLevel (rdb w) c). fold (due config c s now (rdb w)).
  destruct (due config c s now (rdb w)) as [lvl|] eqn:Hdue; [|by exists Untouched].
  unfold publishTimeoutEvent, bind, time_Now. simpl.
  destruct (json_Marshal _) as [data|] eqn:Hj;
    [|exists Untouched; simpl; by rewrite rdb_advance].
  unfold XAdd, HSet.
  match goal with
  | |- context [call ?z ?op ?w0] =>
      destruct (call_cases z op w0) as [-> | [-> | ->]]
  end; simpl; rewrite ?rdb_advance.
  - match goal with
    | |- context [call ?z ?op ?w0] =>
        destruct (call_cases z op w0) as [-> | [-> | ->]]
    end; simpl; rewrite ?rdb_advance.
    + exists (Escalated (TimeoutEvent.mk c lvl s (now_ms w) 1) data). eauto.
    + exists (Appended (TimeoutEvent.mk c lvl s (now_ms w) 1) data). eauto.
    + exists (Escalated (TimeoutEvent.mk c lvl s (now_ms w) 1) data). eauto.
  - by exists Untouched.
  - exists (Appended (TimeoutEvent.mk c lvl s (now_ms w) 1) data). eauto.
Qed.

(** Over healthy round trips, and with an event that can be encoded,
    the step appends the due event and then records its level. *)
Lemma processTimeoutDetection_healthy c s now w lvl data :
  healthy 3 w →
  due config c s now (rdb w) = Some lvl →
  json_Marshal (TimeoutEvent.mk c lvl s (now_ms w) 1) = Some data →
  rdb (run (process c s now) w)
  = store_after (rdb w) (Escalated (TimeoutEvent.mk c lvl s (now_ms w) 1) data).
Proof.
  intros Hh Hdue Hj.
  unfold run, processTimeoutDetection, bind.
  rewrite HGet_healthy by by eapply healthy_next.
  fold (states (rdb w)). rewrite nil_is_not_failure.
  fold (storedLevel (rdb w) c). fold (due config c s now (rdb w)). rewrite Hdue.
  unfold publishTimeoutEvent, bind, time_Now. simpl. rewrite Hj.
  assert (healthy 2 (advance (set_net (tail (net w)) w))) as Hh2.
  { eapply healthy_after; [done|]. by rewrite net_advance. }
  unfold XAdd. rewrite call_healthy by by eapply healthy_next.
  simpl. unfold HSet. rewrite call_healthy.
  - simpl. by rewrite rdb_advance.
  - eapply healthy_next, healthy_after; [done|]. simpl. by rewrite net_advance.
Qed.

Lemma processTimeoutDetection_not_due c s now w :
  due config c s now (rdb w) = None → rdb (run (process c s now) w) = rdb w.
Proof.
  intros Hdue.
  destruct (processTimeoutDetection_cases c s now w) as ([| |] & -> & H);
    [done| |]; destruct H as (lvl & ? & _); congruence.
Qed.

Lemma appended_one_escalated r event data :
  appended_one r (store_after r (Escalated event data)) event.
Proof.
  unfold appended_one, store_after. rewrite events_hset, events_xadd.
  eexists. split; [done|]. by exists data.
Qed.

(** C1. The comparisons of the due-level computation are strict.  For a
    positive base interval [N] whose triple fits in an [int64], a
    conversation at level 0, healthy round trips and an event that can
    be encoded: a wait of exactly [N] appends nothing and a wait of
    [N + 1] appends one level 1 event; a wait of [2 * N] still gives
    level 1 and [2 * N + 1] gives level 2; a wait of [3 * N] still gives
    level 2 and [3 * N + 1] gives level 3. *)
Theorem C1_thresholds_are_strict c s now w :
  let N := TimeoutIntervalMS config in
  let wait := sub64 now s in
  let r' := rdb (run (process c s now) w) in
  0 < N → 3 * N ≤ max_int64 →
  storedLevel (rdb w) c = 0 →
  healthy 3 w →
  (∀ lvl, is_Some (json_Marshal (TimeoutEvent.mk c lvl s (now_ms w) 1))) →
  (wait = N → events r' = events (rdb w))
  ∧ (wait = N + 1 → appended_one (rdb w) r' (TimeoutEvent.mk c 1 s (now_ms w) 1))
  ∧ (wait = 2 * N → appended_one (rdb w) r' (TimeoutEvent.mk c 1 s (now_ms w) 1))
  ∧ (wait = 2 * N + 1 → appended_one (rdb w) r' (TimeoutEvent.mk c 2 s (now_ms w) 1))
  ∧ (wait = 3 * N → appended_one (rdb w) r' (TimeoutEvent.mk c 2 s (now_ms w) 1))
  ∧ (wait = 3 * N + 1 → appended_one (rdb w) r' (TimeoutEvent.mk c 3 s (now_ms w) 1)).
Proof.
  intros N wait r' HN H3N Hcur Hh Hj.
  assert (∀ lvl, due config c s now (rdb w) = Some lvl →
                 appended_one (rdb w) r' (TimeoutEvent.mk c lvl s (now_ms w) 1)) as Hpub.
  { intros lvl Hdue. destruct (Hj lvl) as [data Hdata]. subst r'.
    rewrite (processTimeoutDetection_healthy _ _ _ _ _ _ Hh Hdue Hdata).
    apply appended_one_escalated. }
  assert (due config c s now (rdb w)
          = if decide (wait > 3 * N ∧ 0 < 3) then Some 3
            else if decide (wait > 2 * N ∧ 0 < 2) then Some 2
            else if decide (wait > N ∧ 0 < 1) then Some 1 else None) as Hdue.
  { unfold due. rewrite Hcur. apply dueLevel_exact.
    unfold min_int64, max_int64 in *. fold N. lia. }
  repeat split; intros Hw.
  - subst r'. rewrite processTimeoutDetection_not_due; [done|].
    rewrite Hdue. repeat case_decide; try done; lia.
  - apply Hpub. rewrite Hdue. repeat case_decide; try done; lia.
  - apply Hpub. rewrite Hdue. repeat case_decide; try done; lia.
  - apply Hpub. rewrite Hdue. repeat case_decide; try done; lia.
  - apply Hpub. rewrite Hdue. repeat case_decide; try done; lia.
  - apply Hpub. rewrite Hdue. repeat case_decide; try done; lia.
Qed.

End producer_facts.

(** ** The scan *)

Lemma zrangebyscore_store key lo hi r : (zrangebyscore key lo hi r).2 = r.
Proof. done. Qed.

Lemma zrangebyscore_elem key lo hi r conv :
  conv ∈ (zrangebyscore key lo hi r).1
  ↔ (zsets r !!! key) !! Member conv = Some (Score conv) ∧ lo ≤ Score conv ≤ hi.
Proof.
  unfold zrangebyscore. simpl. rewrite merge_sort_Permutation.
  rewrite list_elem_of_fmap. split.
  - intros ([c s] & -> & H). simpl.
    apply elem_of_map_to_list, map_lookup_filter_Some in H as [H Hr].
    simpl in Hr. unfold in_range in Hr.
    apply andb_true_iff in Hr as [?%Z.leb_le ?%Z.leb_le]. done.
  - intros [H Hr]. exists (Member conv, Score conv). split; [by destruct conv|].
    apply elem_of_map_to_list, map_lookup_filter_Some. split; [done|].
    simpl. unfold in_range. apply andb_true_iff. split; apply Z.leb_le; lia.
Qed.

Lemma zrangebyscore_NoDup key lo hi r :
  NoDup (Member <$> (zrangebyscore key lo hi r).1).
Proof.
  unfold zrangebyscore. simpl. rewrite merge_sort_Permutation.
  rewrite <- list_fmap_compose.
  apply (NoDup_fmap_fst (map_to_list (filter _ (zsets r !!! key)))).
  - intros c s1 s2 H1 H2.
    apply elem_of_map_to_list in H1, H2. congruence.
  - apply NoDup_map_to_list.
Qed.

Lemma for_range_cons {A} (x : A) xs body w :
  run (for_range (x :: xs) body) w = run (for_range xs body) (run (body x) w).
Proof. unfold run. simpl. unfold bind. by destruct (body x w). Qed.

Lemma for_range_nil {A} (body : A → M unit) w : run (for_range [] body) w = w.
Proof. done. Qed.

Lemma for_range_app {A} (xs ys : list A) body w :
  run (for_range (xs ++ ys) body) w = run (for_range ys body) (run (for_range xs body) w).
Proof.
  revert w. induction xs as [|x xs IH]; intros w; [done|].
  simpl app. by rewrite !for_range_cons, IH.
Qed.

(** ** A detection pass of phase 2 *)

Section producer_pass.

Import StreamProducer.

Variable json_Marshal : TimeoutEvent.t → option string.
Variable config : Config.

#[local] Abbreviation process := (processTimeoutDetection json_Marshal config).
#[local] Abbreviation body now :=
  (λ conv : Z_, process (Member conv) (Score conv) now).

Lemma step_events c s now w :
  ∃ new, events (rdb (run (process c s now) w)) = events (rdb w) ++ new
         ∧ (new = []
            ∨ ∃ m lvl, new = [m]
                       ∧ carries m (TimeoutEvent.mk c lvl s (now_ms w) 1)
                       ∧ due config c s now (rdb w) = Some lvl).
Proof.
  destruct (processTimeoutDetection_cases json_Marshal config c s now w)
    as ([|ev data|ev data] & -> & H); unfold store_after.
  - exists []. by rewrite app_nil_r; auto.
  - destruct H as (lvl & Hdue & -> & _). rewrite events_xadd.
    eexists. split; [done|]. right. eexists _, lvl. split; [done|].
    split; [by exists data|done].
  - destruct H as (lvl & Hdue & -> & _). rewrite events_hset, events_xadd.
    eexists. split; [done|]. right. eexists _, lvl. split; [done|].
    split; [by exists data|done].
Qed.

Lemma step_waiting c s now w :
  waiting (rdb (run (process c s now) w)) = waiting (rdb w).
Proof.
  by destruct (processTimeoutDetection_cases json_Marshal config c s now w)
    as ([|ev data|ev data] & -> & H).
Qed.

(** The state of a conversation is written only by its own step, and
    only to the level that the step found due and appended. *)
Lemma step_states c s now w :
  states (rdb (run (process c s now) w)) = states (rdb w)
  ∨ ∃ lvl, due config c s now (rdb w) = Some lvl
           ∧ states (rdb (run (process c s now) w)) = <[c := itoa lvl]> (states (rdb w))
           ∧ appended_one (rdb w) (rdb (run (process c s now) w))
               (TimeoutEvent.mk c lvl s (now_ms w) 1).
Proof.
  destruct (processTimeoutDetection_cases json_Marshal config c s now w)
    as ([|ev data|ev data] & Hr & H); rewrite Hr; unfold store_after; auto.
  destruct H as (lvl & Hdue & -> & _). right. exists lvl.
  cbn [TimeoutEvent.ConversationID TimeoutEvent.Level].
  rewrite states_hset, states_xadd. split; [done|]. split; [done|].
  apply (appended_one_escalated _ (TimeoutEvent.mk c lvl s (now_ms w) 1)).
Qed.

Lemma step_states_other c s now w d :
  d ≠ c → states (rdb (run (process c s now) w)) !! d = states (rdb w) !! d.
Proof.
  intros Hd. destruct (step_states c s now w) as [-> | (lvl & _ & -> & _)]; [done|].
  by rewrite lookup_insert_ne.
Qed.

(** Every entry that a pass over [cs] appends encodes an event for one
    of the conversations of [cs], at a level that the comparisons found
    due for its wait. *)
Lemma pass_events cs now w :
  ∃ new,
    events (rdb (run (for_range cs (body now)) w)) = events (rdb w) ++ new
    ∧ Forall (λ m, ∃ conv lvl t cur,
                conv ∈ cs
                ∧ carries m (TimeoutEvent.mk (Member conv) lvl (Score conv) t 1)
                ∧ dueLevel (sub64 now (Score conv)) (TimeoutIntervalMS config) cur
                  = Some lvl) new.
Proof.
  revert w. induction cs as [|conv cs IH]; intros w.
  - exists []. by rewrite for_range_nil, app_nil_r.
  - rewrite for_range_cons.
    destruct (IH (run (body now conv) w)) as (new2 & -> & Hnew2).
    destruct (step_events (Member conv) (Score conv) now w) as (new1 & -> & Hnew1).
    exists (new1 ++ new2). split; [by rewrite app_assoc|].
    apply Forall_app. split.
    + destruct Hnew1 as [-> | (m & lvl & -> & Hm & Hdue)]; [done|].
      apply Forall_singleton. exists conv, lvl, (now_ms w), (storedLevel (rdb w) (Member conv)).
      split; [by apply elem_of_cons; left|done].
    + eapply Forall_impl; [done|]. simpl.
      intros m (conv' & lvl & t & cur & ? & ? & ?).
      exists conv', lvl, t, cur. split; [by apply elem_of_cons; right|done].
Qed.

(** C2. Every entry that a detection pass appends to the event stream
    carries a level among 1, 2 and 3, and the wait of its conversation at
    the time of the pass, [now - AgentMessageTime], exceeds that level
    times the base interval [N] (for an [N] whose triple fits in an
    [int64], and a clock reading that is an [int64]). *)
Theorem C2_appended_events_are_due (w : World) :
  let N := TimeoutIntervalMS config in
  let now := now_ms w in
  min_int64 ≤ 3 * N ≤ max_int64 →
  min_int64 ≤ now ≤ max_int64 →
  ∃ new,
    events (rdb (run (detectAndPublishTimeouts json_Marshal config) w))
    = events (rdb w) ++ new
    ∧ Forall (λ m, ∃ event,
                carries m event
                ∧ (TimeoutEvent.Level event = 1 ∨ TimeoutEvent.Level event = 2
                   ∨ TimeoutEvent.Level event = 3)
                ∧ now - TimeoutEvent.AgentMessageTime event
                  > TimeoutEvent.Level event * N) new.
Proof.
  intros N now HN Hnow.
  unfold run, detectAndPublishTimeouts, bind, time_Now, ZRangeByScoreWithScores.
  match goal with
  | |- context [call ?z ?op ?w0] =>
      destruct (call_cases z op w0) as [-> | [-> | ->]]
  end; simpl; rewrite ?rdb_advance;
    try (exists []; by rewrite app_nil_r).
  fold now.
  match goal with
  | |- context [for_range ?cs ?b ?w0] =>
      change ((for_range cs b w0).2) with (run (for_range cs b) w0);
      destruct (pass_events cs now w0) as (new & -> & Hnew)
  end.
  simpl. exists new. split; [done|].
  eapply Forall_impl; [done|]. simpl.
  intros m (conv & lvl & t & cur & Hin & Hm & Hdue).
  apply zrangebyscore_elem in Hin as [_ Hrange].
  eexists. split; [done|]. simpl.
  split; [by eapply dueLevel_levels|].
  rewrite dueLevel_exact in Hdue by done.
  unfold sub64 in Hdue. rewrite wrap64_exact in Hdue
    by (unfold min_int64, max_int64 in *; lia).
  fold N in Hdue. repeat case_decide; simplify_eq; lia.
Qed.

End producer_pass.

(** ** Computations that leave a healthy network healthy *)

Lemma quiet_ret {A} (a : A) : quiet (ret a).
Proof. by intros w. Qed.

Lemma quiet_bind {A B} (m : M A) (k : A → M B) :
  quiet m → (∀ a, quiet (k a)) → quiet (bind m k).
Proof.
  intros Hm Hk w Hw. unfold bind. specialize (Hm w Hw).
  destruct (m w) as [a w']. by apply Hk.
Qed.

Lemma quiet_call {A} (zero : A) op : quiet (call zero op).
Proof.
  intros w Hw. destruct (call_cases zero op w) as [-> | [-> | ->]]; simpl;
    by rewrite Hw.
Qed.

Lemma quiet_time_Now : quiet time_Now.
Proof. intros w Hw. unfold time_Now. simpl. by rewrite net_advance. Qed.

Lemma quiet_modify f : (∀ w, net (f w) = net w) → quiet (modify f).
Proof. intros Hf w Hw. unfold modify. simpl. by rewrite Hf. Qed.

Lemma quiet_gets {A} (f : World → A) : quiet (gets f).
Proof. by intros w. Qed.

Lemma quiet_for_range {A} (xs : list A) body :
  (∀ x, quiet (body x)) → quiet (for_range xs body).
Proof.
  intros Hb. induction xs as [|x xs IH]; simpl.
  - apply quiet_ret.
  - apply quiet_bind; [apply Hb | by intros _].
Qed.

#[local] Ltac quiet_step :=
  first
    [ apply quiet_ret
    | apply quiet_time_Now
    | apply quiet_call
    | apply quiet_gets
    | apply quiet_modify; by intros []
    | apply quiet_for_range; intros ?
    | apply quiet_bind; [|intros ?]
    | match goal with
      | |- quiet (match ?x with _ => _ end) => destruct x
      | |- quiet (let 'pair _ _ := ?x in _) => destruct x
      | |- quiet (λ w, _) => idtac
      end ].

Lemma quiet_processTimeoutDetection json_Marshal config c s now :
  quiet (StreamProducer.processTimeoutDetection json_Marshal config c s now).
Proof.
  unfold StreamProducer.processTimeoutDetection, StreamProducer.publishTimeoutEvent,
    HGet, HSet, XAdd.
  repeat quiet_step.
Qed.

Lemma carries_conversation m event :
  carries m event → entry_conversation m = Some (TimeoutEvent.ConversationID event).
Proof.
  intros [data H]. unfold entry_conversation. rewrite H.
  unfold StreamProducer.stream_values. by rewrite lookup_insert_eq.
Qed.

Lemma storedLevel_same r r' c :
  states r' !! c = states r !! c → storedLevel r' c = storedLevel r c.
Proof. unfold storedLevel. by intros ->. Qed.

Section healthy_pass.

Import StreamProducer.

Variable json_Marshal : TimeoutEvent.t → option string.
Variable config : Config.

Hypothesis marshal_total : ∀ event, is_Some (json_Marshal event).

#[local] Abbreviation process := (processTimeoutDetection json_Marshal config).
#[local] Abbreviation body now :=
  (λ conv : Z_, process (Member conv) (Score conv) now).

Lemma pass_foreign cs now w c :
  c ∉ Member <$> cs →
  ∃ new,
    events (rdb (run (for_range cs (body now)) w)) = events (rdb w) ++ new
    ∧ Forall (λ m, entry_conversation m ≠ Some c) new.
Proof.
  intros Hc. destruct (pass_events json_Marshal config cs now w) as (new & -> & Hnew).
  exists new. split; [done|]. eapply Forall_impl; [done|]. simpl.
  intros m (conv & lvl & t & cur & Hin & Hm & _).
  rewrite (carries_conversation _ _ Hm). simpl. intros [= <-].
  apply Hc, list_elem_of_fmap. eauto.
Qed.

(** In a pass over distinct conversations, with a healthy network, a
    conversation that is due gets exactly one entry, at the due level. *)
Lemma pass_one cs now w conv lvl :
  net w = [] →
  NoDup (Member <$> cs) →
  conv ∈ cs →
  due config (Member conv) (Score conv) now (rdb w) = Some lvl →
  ∃ pre m post t,
    events (rdb (run (for_range cs (body now)) w)) = events (rdb w) ++ pre ++ m :: post
    ∧ carries m (TimeoutEvent.mk (Member conv) lvl (Score conv) t 1)
    ∧ Forall (λ m', entry_conversation m' ≠ Some (Member conv)) (pre ++ post).
Proof.
  revert w. induction cs as [|x cs IH]; intros w Hnet Hnd Hin Hdue.
  - by apply elem_of_nil in Hin.
  - rewrite for_range_cons. simpl in Hnd. apply NoDup_cons in Hnd as [Hx Hnd].
    apply elem_of_cons in Hin as [<- | Hin].
    + destruct (marshal_total
        (TimeoutEvent.mk (Member conv) lvl (Score conv) (now_ms w) 1)) as [data Hdata].
      destruct (pass_foreign cs now (run (body now conv) w) (Member conv) Hx)
        as (post & -> & Hpost).
      rewrite (processTimeoutDetection_healthy json_Marshal config _ _ _ _ lvl data);
        [|by apply healthy_nil|done|done].
      unfold store_after. rewrite events_hset, events_xadd.
      eexists [], _, post, (now_ms w). split; [by rewrite <- app_assoc|].
      split; [by exists data|done].
    + assert (Member x ≠ Member conv) as Hne.
      { intros Heq. apply Hx. rewrite Heq. apply list_elem_of_fmap. eauto. }
      destruct (IH (run (body now x) w)) as (pre & m & post & t & -> & Hm & Hrest).
      * by apply quiet_processTimeoutDetection.
      * done.
      * done.
      * unfold due in *. erewrite storedLevel_same; [done|].
        by apply step_states_other.
      * destruct (step_events json_Marshal config (Member x) (Score x) now w)
          as (new1 & -> & Hnew1).
        exists (new1 ++ pre), m, post, t. split; [by rewrite <- !app_assoc|].
        split; [done|]. rewrite <- app_assoc. apply Forall_app. split; [|done].
        destruct Hnew1 as [-> | (m1 & l1 & -> & Hm1 & _)]; [done|].
        apply Forall_singleton. rewrite (carries_conversation _ _ Hm1). simpl.
        congruence.
Qed.

(** C3. A detection pass over a healthy network finds a conversation at
    stored level 0 whose wait exceeds [3 * N]: among the entries the pass
    appends, exactly one is for that conversation, and its level is 3;
    levels 1 and 2 are not published for it. *)
Theorem C3_level_max_not_sequential (c : string) (s : Z) (w : World) :
  let N := TimeoutIntervalMS config in
  let now := now_ms w in
  let r' := rdb (run (detectAndPublishTimeouts json_Marshal config) w) in
  0 ≤ N → 3 * N ≤ max_int64 →
  now ≤ max_int64 →
  net w = [] →
  waiting (rdb w) !! c = Some s → 0 ≤ s →
  storedLevel (rdb w) c = 0 →
  now - s > 3 * N →
  ∃ pre m post t,
    events r' = events (rdb w) ++ pre ++ m :: post
    ∧ carries m (TimeoutEvent.mk c 3 s t 1)
    ∧ Forall (λ m', entry_conversation m' ≠ Some c) (pre ++ post).
Proof.
  intros N now r' HN H3N Hnow Hnet HW Hs Hcur Hwait. subst r'.
  unfold run, detectAndPublishTimeouts, bind, time_Now, ZRangeByScoreWithScores.
  rewrite call_healthy
    by (unfold next_fault; by rewrite net_advance, Hnet).
  simpl. rewrite rdb_advance. fold now.
  match goal with
  | |- context [for_range ?cs ?b ?w0] =>
      change ((for_range cs b w0).2) with (run (for_range cs b) w0);
      destruct (pass_one cs now w0 (mkZ s c) 3) as (pre & m & post & t & -> & Hm & Hrest)
  end.
  - simpl. by rewrite net_advance, Hnet.
  - apply zrangebyscore_NoDup.
  - apply zrangebyscore_elem. simpl. split; [done|]. lia.
  - simpl. rewrite ?rdb_advance, ?zrangebyscore_store. unfold due. rewrite Hcur.
    rewrite dueLevel_exact by (unfold min_int64, max_int64 in *; fold N; lia).
    unfold sub64. rewrite wrap64_exact by (unfold min_int64, max_int64 in *; lia).
    fold N. case_decide; [done|lia].
  - simpl. by exists pre, m, post, t.
Qed.

Lemma pass_states_other cs now w c :
  c ∉ Member <$> cs →
  states (rdb (run (for_range cs (body now)) w)) !! c = states (rdb w) !! c.
Proof.
  revert w. induction cs as [|x cs IH]; intros w Hc; [done|].
  rewrite for_range_cons. simpl in Hc. apply not_elem_of_cons in Hc as [Hx Hc].
  rewrite IH by done. by apply step_states_other.
Qed.

Lemma pass_waiting cs now w :
  waiting (rdb (run (for_range cs (body now)) w)) = waiting (rdb w).
Proof.
  revert w. induction cs as [|x cs IH]; intros w; [done|].
  rewrite for_range_cons, IH. apply step_waiting.
Qed.

(** The state that a healthy pass leaves for a due conversation. *)
Lemma pass_one_state cs now w conv lvl :
  net w = [] →
  NoDup (Member <$> cs) →
  conv ∈ cs →
  due config (Member conv) (Score conv) now (rdb w) = Some lvl →
  states (rdb (run (for_range cs (body now)) w)) !! Member conv = Some (itoa lvl).
Proof.
  revert w. induction cs as [|x cs IH]; intros w Hnet Hnd Hin Hdue.
  - by apply elem_of_nil in Hin.
  - rewrite for_range_cons. simpl in Hnd. apply NoDup_cons in Hnd as [Hx Hnd].
    apply elem_of_cons in Hin as [<- | Hin].
    + destruct (marshal_total
        (TimeoutEvent.mk (Member conv) lvl (Score conv) (now_ms w) 1)) as [data Hdata].
      rewrite pass_states_other by done.
      rewrite (processTimeoutDetection_healthy json_Marshal config _ _ _ _ lvl data);
        [|by apply healthy_nil|done|done].
      unfold store_after. cbn [TimeoutEvent.ConversationID TimeoutEvent.Level].
      by rewrite states_hset, lookup_insert_eq.
    + assert (Member x ≠ Member conv) as Hne.
      { intros Heq. apply Hx. rewrite Heq. apply list_elem_of_fmap. eauto. }
      apply IH; [by apply quiet_processTimeoutDetection|done|done|].
      unfold due in *. erewrite storedLevel_same; [done|].
      by apply step_states_other.
Qed.

(** The step of a conversation whose append fails: the read of the state
    is healthy, the round trip of the append is not. *)
Lemma processTimeoutDetection_append_fails c s now w f rest lvl :
  net w = None :: Some f :: rest →
  due config c s now (rdb w) = Some lvl →
  states (rdb (run (process c s now) w)) = states (rdb w)
  ∧ net (run (process c s now) w) = rest.
Proof.
  intros Hnet Hdue.
  unfold run, processTimeoutDetection, bind.
  rewrite HGet_healthy by (unfold next_fault; by rewrite Hnet).
  fold (states (rdb w)). rewrite nil_is_not_failure.
  fold (storedLevel (rdb w) c). fold (due config c s now (rdb w)). rewrite Hdue.
  unfold publishTimeoutEvent, bind, time_Now. simpl.
  destruct (marshal_total (TimeoutEvent.mk c lvl s (now_ms w) 1)) as [data ->].
  unfold XAdd.
  assert (next_fault (advance (set_net (tail (net w)) w)) = Some f) as Hf.
  { unfold next_fault. rewrite net_advance. simpl. by rewrite Hnet. }
  destruct f.
  - rewrite call_request_lost by done. simpl.
    by rewrite rdb_advance, net_advance, Hnet.
  - rewrite call_reply_lost by done. simpl.
    by rewrite rdb_advance, net_advance, Hnet.
Qed.

(** The step of a conversation whose append succeeds and whose state
    write is lost on the way to the server. *)
Lemma processTimeoutDetection_state_write_lost c s now w rest lvl data :
  net w = None :: None :: Some RequestLost :: rest →
  due config c s now (rdb w) = Some lvl →
  json_Marshal (TimeoutEvent.mk c lvl s (now_ms w) 1) = Some data →
  rdb (run (process c s now) w)
  = store_after (rdb w) (Appended (TimeoutEvent.mk c lvl s (now_ms w) 1) data).
Proof.
  intros Hnet Hdue Hdata.
  unfold run, processTimeoutDetection, bind.
  rewrite HGet_healthy by (unfold next_fault; by rewrite Hnet).
  fold (states (rdb w)). rewrite nil_is_not_failure.
  fold (storedLevel (rdb w) c). fold (due config c s now (rdb w)). rewrite Hdue.
  unfold publishTimeoutEvent, bind, time_Now. simpl. rewrite Hdata.
  unfold XAdd. rewrite call_healthy
    by (unfold next_fault; rewrite net_advance; simpl; by rewrite Hnet).
  simpl. unfold HSet. rewrite call_request_lost
    by (unfold next_fault; simpl; rewrite net_advance; simpl; by rewrite Hnet).
  simpl. by rewrite rdb_advance.
Qed.

(** C7. A detector step appends the event before it writes the
    notification state, and writes the state only after the append has
    succeeded: a state that changed comes with the appended event; when the
    state write is lost the event is already in the stream.  When the round
    trip of the append fails for a conversation, at any position of the
    pass, its state is as it was, also at the end of the pass, its waiting
    entry is kept, so a later pass finds it due again; and every later
    conversation of the pass that is due gets its event and its state. *)
Theorem C7_publish_before_state (cs1 cs2 : list Z_) (conv : Z_) (now : Z) (w : World) :
  let c := Member conv in
  let s := Score conv in
  let w1 := run (for_range cs1 (body now)) w in
  let w2 := run (process c s now) w1 in
  let w3 := run (for_range (cs1 ++ conv :: cs2) (body now)) w in
  (states (rdb w2) ≠ states (rdb w1) →
   ∃ lvl, due config c s now (rdb w1) = Some lvl
          ∧ appended_one (rdb w1) (rdb w2) (TimeoutEvent.mk c lvl s (now_ms w1) 1)
          ∧ states (rdb w2) = <[c := itoa lvl]> (states (rdb w1)))
  ∧ (∀ lvl rest,
       net w1 = None :: None :: Some RequestLost :: rest →
       due config c s now (rdb w1) = Some lvl →
       appended_one (rdb w1) (rdb w2) (TimeoutEvent.mk c lvl s (now_ms w1) 1)
       ∧ states (rdb w2) = states (rdb w1))
  ∧ (∀ lvl f,
       net w1 = [None; Some f] →
       due config c s now (rdb w1) = Some lvl →
       NoDup (Member <$> cs1 ++ conv :: cs2) →
       states (rdb w2) = states (rdb w1)
       ∧ states (rdb w3) !! c = states (rdb w1) !! c
       ∧ waiting (rdb w3) = waiting (rdb w1)
       ∧ (∀ now', due config c s now' (rdb w3) = due config c s now' (rdb w1))
       ∧ (∀ d l,
            d ∈ cs2 →
            due config (Member d) (Score d) now (rdb w1) = Some l →
            states (rdb w3) !! Member d = Some (itoa l)
            ∧ ∃ pre m post t,
                events (rdb w3) = events (rdb w2) ++ pre ++ m :: post
                ∧ carries m (TimeoutEvent.mk (Member d) l (Score d) t 1))).
Proof.
  intros c s w1 w2 w3.
  assert (w3 = run (for_range cs2 (body now)) w2) as Hw3.
  { subst w3. by rewrite for_range_app, for_range_cons. }
  split; [|split].
  - intros Hchanged.
    destruct (step_states json_Marshal config c s now w1) as [? | (lvl & ? & ? & ?)];
      [done|]. by exists lvl.
  - intros lvl rest Hnet Hdue.
    destruct (marshal_total (TimeoutEvent.mk c lvl s (now_ms w1) 1)) as [data Hdata].
    subst w2.
    rewrite (processTimeoutDetection_state_write_lost c s now w1 rest lvl data)
      by done.
    unfold store_after. rewrite states_xadd. split; [|done].
    unfold appended_one. rewrite events_xadd. eexists. split; [done|]. by exists data.
  - intros lvl f Hnet Hdue Hnd.
    destruct (processTimeoutDetection_append_fails c s now w1 f [] lvl Hnet Hdue)
      as [Hstates Hnet2]. fold w2 in Hstates, Hnet2.
    rewrite fmap_app, fmap_cons in Hnd.
    apply NoDup_app in Hnd as (_ & _ & Hnd). apply NoDup_cons in Hnd as [Hc Hnd2].
    assert (states (rdb w3) !! c = states (rdb w1) !! c) as Hc3.
    { rewrite Hw3, pass_states_other by done. by rewrite Hstates. }
    split; [done|]. split; [done|]. split.
    { rewrite Hw3, pass_waiting. apply step_waiting. }
    split.
    { intros now'. unfold due. by erewrite storedLevel_same. }
    intros d l Hd Hdue_d.
    assert (due config (Member d) (Score d) now (rdb w2) = Some l) as Hdue2.
    { unfold due in *. erewrite storedLevel_same; [done|]. by rewrite Hstates. }
    rewrite Hw3. split.
    + by apply pass_one_state.
    + destruct (pass_one cs2 now w2 d l Hnet2 Hnd2 Hd Hdue2)
        as (pre & m & post & t & ? & ? & _).
      by exists pre, m, post, t.
Qed.

End healthy_pass.

(** ** A stored level that is not a number *)

Lemma currentLevelOf_unparsable v : Atoi v = None → currentLevelOf v = 0.
Proof. unfold currentLevelOf. intros ->. by destruct (String.eqb v ""). Qed.

Lemma next_fault_same w w' : net w' = net w → next_fault w' = next_fault w.
Proof. unfold next_fault. by intros ->. Qed.

Lemma replied_store {A} (op : Redis → A * Redis) r : (replied op r).2 = (op r).2.
Proof. unfold replied. by destruct (op r). Qed.

Lemma replied_reply {A} (op : Redis → A * Redis) r :
  (replied op r).1 = ((op r).1, None).
Proof. unfold replied. by destruct (op r). Qed.

Section unparsable_state.

Import StreamProducer.

Variable json_Marshal : TimeoutEvent.t → option string.
Variable config : Config.

#[local] Abbreviation process := (processTimeoutDetection json_Marshal config).

(** The step takes the same course, with the same outcome, from a store
    that holds an unparsable level for the conversation and from the store
    that holds none. *)
Lemma processTimeoutDetection_unparsable c s now w v :
  states (rdb w) !! c = Some v →
  Atoi v = None →
  ∃ o, rdb (run (process c s now) w) = store_after (rdb w) o
       ∧ rdb (run (process c s now) (set_rdb (hdel NotificationStatesKey c (rdb w)).2 w))
         = store_after (hdel NotificationStatesKey c (rdb w)).2 o
       ∧ match o with
         | Untouched => True
         | Appended event data | Escalated event data =>
             TimeoutEvent.ConversationID event = c
         end.
Proof.
  intros Hv Hatoi.
  set (w0 := set_rdb (hdel NotificationStatesKey c (rdb w)).2 w).
  assert (net w0 = net w) as Hnet0 by done.
  assert (now_ms w0 = now_ms w) as Hnow0 by done.
  unfold run, processTimeoutDetection, bind.
  destruct (next_fault w) as [f|] eqn:Hf.
  { rewrite (HGet_faulty _ _ w f), (HGet_faulty _ _ w0 f) by done.
    by exists Untouched. }
  rewrite (HGet_healthy _ _ w), (HGet_healthy _ _ w0) by done.
  fold (states (rdb w)) (states (rdb w0)).
  assert (states (rdb w0) !! c = None) as ->.
  { change (rdb w0) with (hdel NotificationStatesKey c (rdb w)).2.
    by rewrite states_hdel, lookup_delete_eq. }
  rewrite Hv. simpl. rewrite currentLevelOf_unparsable by done.
  change (currentLevelOf "") with 0.
  destruct (dueLevel _ _ 0) as [lvl|]; [|by exists Untouched].
  unfold publishTimeoutEvent, bind, time_Now. simpl.
  destruct (json_Marshal _) as [data|];
    [|exists Untouched; simpl; by rewrite !rdb_advance].
  set (event := TimeoutEvent.mk c lvl s (now_ms w) 1).
  unfold XAdd, HSet.
  set (w1 := advance (set_net (tail (net w)) w)).
  set (w10 := advance (set_net (tail (net w)) w0)).
  assert (next_fault w10 = next_fault w1) as Hf1.
  { apply next_fault_same. unfold w10, w1. by rewrite !net_advance. }
  destruct (next_fault w1) as [[]|] eqn:Hf1'.
  - rewrite !call_request_lost by done. exists Untouched.
    unfold w1, w10. cbn [fst snd ret rdb set_net store_after].
    by rewrite !rdb_advance.
  - rewrite !call_reply_lost by done. exists (Appended event data).
    unfold w1, w10. cbn [fst snd ret rdb set_net set_rdb store_after].
    by rewrite !replied_store, !rdb_advance.
  - rewrite !call_healthy by done. rewrite !replied_reply.
    cbn [fst snd ret].
    set (w2 := set_net _ (set_rdb _ w1)).
    set (w20 := set_net _ (set_rdb _ w10)).
    assert (next_fault w20 = next_fault w2) as Hf2.
    { apply next_fault_same. unfold w20, w2, w10, w1. cbn [net set_net set_rdb].
      by rewrite !net_advance. }
    assert (rdb w2 = store_after (rdb w) (Appended event data)) as Hr2.
    { unfold w2, w1. cbn [rdb set_net set_rdb store_after].
      by rewrite replied_store, rdb_advance. }
    assert (rdb w20
            = store_after (hdel NotificationStatesKey c (rdb w)).2 (Appended event data))
      as Hr20.
    { unfold w20, w10. cbn [rdb set_net set_rdb store_after].
      by rewrite replied_store, rdb_advance. }
    destruct (next_fault w2) as [[]|] eqn:Hf2'.
    + rewrite !call_request_lost by done. exists (Appended event data).
      cbn [fst snd ret rdb set_net]. by rewrite Hr2, Hr20.
    + rewrite !call_reply_lost by done. exists (Escalated event data).
      cbn [fst snd ret rdb set_net set_rdb]. by rewrite !replied_store, Hr2, Hr20.
    + rewrite !call_healthy by done. exists (Escalated event data).
      cbn [fst snd ret rdb set_net set_rdb]. by rewrite !replied_store, Hr2, Hr20.
Qed.

(** C10. When the notification state holds, for a conversation, a value
    that does not parse as an integer, the step of the detector neither
    fails nor skips the conversation: it reads the level as 0 and goes on
    exactly as from a store without that entry: the same entries are
    appended, and the state is either left as it was or written as it
    would be there.  Over healthy round trips the level that is due from 0
    is published and recorded over the unparsable value. *)
Theorem C10_unparsable_level_reads_as_zero c s now w v :
  let w0 := set_rdb (hdel NotificationStatesKey c (rdb w)).2 w in
  let w' := run (process c s now) w in
  let w0' := run (process c s now) w0 in
  states (rdb w) !! c = Some v →
  Atoi v = None →
  storedLevel (rdb w) c = 0
  ∧ events (rdb w') = events (rdb w0')
  ∧ (states (rdb w') = states (rdb w) ∨ states (rdb w') = states (rdb w0'))
  ∧ (∀ lvl data,
       healthy 3 w →
       dueLevel (sub64 now s) (TimeoutIntervalMS config) 0 = Some lvl →
       json_Marshal (TimeoutEvent.mk c lvl s (now_ms w) 1) = Some data →
       appended_one (rdb w) (rdb w') (TimeoutEvent.mk c lvl s (now_ms w) 1)
       ∧ states (rdb w') !! c = Some (itoa lvl)).
Proof.
  intros w0 w' w0' Hv Hatoi.
  assert (storedLevel (rdb w) c = 0) as Hcur.
  { unfold storedLevel. rewrite Hv. by apply currentLevelOf_unparsable. }
  split; [done|].
  destruct (processTimeoutDetection_unparsable c s now w v Hv Hatoi)
    as (o & Hr & Hr0 & Ho).
  fold w' in Hr. fold w0 w0' in Hr0. rewrite Hr, Hr0.
  split; [|split].
  - destruct o; unfold store_after;
      rewrite ?events_hset, ?events_xadd; done.
  - destruct o as [|event data|event data]; unfold store_after; auto.
    right. subst c. rewrite !states_hset, !states_xadd, states_hdel.
    by rewrite insert_delete_eq.
  - intros lvl data Hh Hdue Hdata. rewrite <- Hr. subst w'.
    rewrite (processTimeoutDetection_healthy json_Marshal config c s now w lvl data);
      [|done|by unfold due; rewrite Hcur|done].
    split; [apply appended_one_escalated|].
    unfold store_after. cbn [TimeoutEvent.ConversationID TimeoutEvent.Level].
    by rewrite states_hset, lookup_insert_eq.
Qed.

End unparsable_state.

(** ** The event consumer *)

Lemma pending_xack group id r :
  pending group (xack TimeoutEventsStream group id r).2 = pending group r ∖ {[id]}.
Proof.
  unfold pending, xack.
  destruct (groups (streams r !!! TimeoutEventsStream) !! group) as [g|] eqn:Hg.
  - cbn [snd streams set_streams]. rewrite lookup_total_insert_eq.
    cbn [groups]. by rewrite lookup_insert_eq.
  - cbn [snd]. rewrite Hg. simpl. by rewrite empty_difference_L.
Qed.

Lemma metrics_call {A} (zero : A) op w : metrics (call zero op w).2 = metrics w.
Proof. by destruct (call_cases zero op w) as [-> | [-> | ->]]. Qed.

Section consumer_facts.

Import StreamConsumer.

Variable sink : TimeoutEvent.t → option error.
Variable config : Config.

#[local] Abbreviation group := (ConsumerGroupName config).

Lemma acknowledgeMessage_healthy id w :
  next_fault w = None →
  pending group (rdb (run (acknowledgeMessage config id) w)) = pending group (rdb w) ∖ {[id]}
  ∧ result (acknowledgeMessage config id) w = None.
Proof.
  intros Hf. unfold run, result, acknowledgeMessage, bind, XAck.
  rewrite call_healthy by done. rewrite replied_reply. simpl.
  by rewrite replied_store, pending_xack.
Qed.

(** C8. The consumer acknowledges a stream entry exactly when its fields
    do not parse, or they parse and the notification sink succeeds.  With
    the entry pending and a healthy round trip for the acknowledgement: the
    entry leaves the pending set if and only if one of the two holds; a
    parse failure also adds one to the parse-error counter; and when the
    sink returns an error, no command is sent at all: the store and the
    pending set are as they were. *)
Theorem C8_ack_iff_poison_or_delivered (message : XMessage) (w : World) :
  let w' := run (processMessageWith sink config message) w in
  let parse_errors (x : World) :=
    default O (StreamMessagesProcessed (metrics x) !! "parse_error") in
  (ID message ∈ pending group (rdb w) →
   next_fault w = None →
   (ID message ∉ pending group (rdb w')
    ↔ (∃ e, parseTimeoutEvent message = inr e)
      ∨ (∃ event, parseTimeoutEvent message = inl event ∧ sink event = None)))
  ∧ ((∃ e, parseTimeoutEvent message = inr e) →
     parse_errors w' = S (parse_errors w))
  ∧ (∀ event e,
       parseTimeoutEvent message = inl event → sink event = Some e →
       rdb w' = rdb w ∧ net w' = net w
       ∧ (ID message ∈ pending group (rdb w) → ID message ∈ pending group (rdb w'))).
Proof.
  intros w' parse_errors. subst w'. unfold processMessageWith.
  split; [|split].
  - intros Hin Hf.
    destruct (parseTimeoutEvent message) as [event|e] eqn:Hparse.
    + destruct (sink event) as [e|] eqn:Hsink.
      * unfold run, modify. simpl. split; [done|].
        intros [[? [=]] | (? & [= <-] & ?)]. congruence.
      * split; [|intros _].
        { intros _. right. by exists event. }
        unfold run, bind.
        destruct (acknowledgeMessage_healthy (ID message) w Hf) as [Hp Hr].
        unfold run, result in Hp, Hr.
        destruct (acknowledgeMessage config (ID message) w) as [err w1].
        simpl in Hp, Hr. subst err. simpl. rewrite Hp.
        rewrite elem_of_difference, elem_of_singleton. by intros [_ ?].
    + split; [intros _; left; by exists e|intros _].
      unfold run, bind, modify. simpl.
      destruct (acknowledgeMessage_healthy (ID message)
                  (set_metrics (inc_StreamMessagesProcessed "parse_error") w) Hf)
        as [Hp _].
      unfold run in Hp.
      destruct (acknowledgeMessage config (ID message) _) as [err w1].
      simpl in *. rewrite Hp.
      rewrite elem_of_difference, elem_of_singleton. by intros [_ ?].
  - intros [e He]. rewrite He. unfold run, acknowledgeMessage, XAck, modify, bind.
    cbn [fst snd].
    match goal with
    | |- context [call ?z ?op ?w0] =>
        pose proof (metrics_call z op w0) as Hm; destruct (call z op w0) as [[? ?] ?]
    end.
    unfold parse_errors. cbn [fst snd ret] in *. rewrite Hm.
    cbn [metrics set_metrics StreamMessagesProcessed inc_StreamMessagesProcessed].
    unfold inc_label. by rewrite lookup_insert_eq.
  - intros event e Hparse Hsink. rewrite Hparse, Hsink.
    unfold run, modify. simpl. done.
Qed.

End consumer_facts.

(** An entry without one of the four required fields, or with one that is
    not a string, does not parse: it is a poison pill. *)
Lemma parseTimeoutEvent_required_field message field :
  field ∈ ["conversation_id"; "level"; "agent_message_time"; "detected_at"] →
  StreamConsumer.as_string (Values message !! field) = None →
  ∃ e, StreamConsumer.parseTimeoutEvent message = inr e.
Proof.
  intros Hin Hnone. unfold StreamConsumer.parseTimeoutEvent.
  repeat (apply elem_of_cons in Hin as [-> | Hin]);
    [| | | |by apply elem_of_nil in Hin];
    rewrite ?Hnone; repeat case_match; eauto.
Qed.

(** What the producer appends for an event, the consumer parses back. *)
Example parse_published_event :
  StreamConsumer.parseTimeoutEvent
    (mkXMessage "1-0"
       (StreamProducer.stream_values (TimeoutEvent.mk "convA" 2 0 2001 1) "{}"))
  = inl (TimeoutEvent.mk "convA" 2 0 2001 1).
Proof. vm_compute. reflexivity. Qed.

(** Scenario F of the specification: an entry without [conversation_id] is
    acknowledged and counted as a parse error. *)
Example scenario_F :
  let message := mkXMessage "1-0" {[ "level" := VString "1" ]} in
  let r :=
    set_streams
      <[TimeoutEventsStream :=
          mkStream [message] {[ "timeout-processors" := mkGroup 1 {[ "1-0" ]} ]}]>
      empty_redis in
  let w' := run (StreamConsumer.processMessage config_a message) (world_at r 0) in
  pending "timeout-processors" r = {[ "1-0" ]}
  ∧ pending "timeout-processors" (rdb w') = ∅
  ∧ StreamMessagesProcessed (metrics w') !! "parse_error" = Some 1%nat.
Proof. vm_compute. repeat split; reflexivity. Qed.

(** ** Cleanup of the waiting index *)

Lemma waiting_zremrangebyscore lo hi r :
  waiting (zremrangebyscore WaitingConversationsKey lo hi r).2
  = filter (λ p, in_range lo hi p.2 ≠ true) (waiting r).
Proof. unfold waiting, zremrangebyscore. simpl. by rewrite lookup_total_insert_eq. Qed.

Lemma states_zremrangebyscore lo hi r :
  states (zremrangebyscore WaitingConversationsKey lo hi r).2 = states r.
Proof. done. Qed.

Section cleanup.

Import TimeoutManager.

(** C9, as the code has it.  Over a healthy round trip
    [CleanupExpiredConversations] returns [nil] (its only result is an
    [error]; the number of removed entries is logged, not returned),
    removes from the waiting index exactly the entries whose score lies in
    the closed range from 0 to [now - maxAge], and keeps every other entry
    with its score.  Whatever happens to the round trip, the notification
    state is left untouched. *)
Theorem C9_cleanup_removes_closed_range (maxAge : Z) (w : World) :
  let cutoff := now_ms w - maxAge in
  let w' := run (CleanupExpiredConversations maxAge) w in
  (next_fault w = None →
   result (CleanupExpiredConversations maxAge) w = None
   ∧ ∀ c, waiting (rdb w') !! c
          = match waiting (rdb w) !! c with
            | Some score => if in_range 0 cutoff score then None else Some score
            | None => None
            end)
  ∧ states (rdb w') = states (rdb w).
Proof.
  intros cutoff w'. subst w'.
  unfold run, result, CleanupExpiredConversations, ZRemRangeByScore, time_Now, bind.
  cbn [fst snd]. fold cutoff. split.
  - intros Hf. rewrite call_healthy by by rewrite next_fault_advance.
    rewrite replied_reply, replied_store. cbn [fst snd ret rdb set_net set_rdb].
    split; [done|]. intros c. rewrite rdb_advance, waiting_zremrangebyscore.
    destruct (waiting (rdb w) !! c) as [score|] eqn:Hc.
    + destruct (in_range 0 cutoff score) eqn:Hr.
      * apply map_lookup_filter_None. right. intros score' Hc'. simpl.
        rewrite Hc in Hc'. injection Hc' as <-. rewrite Hr. intros H. by apply H.
      * apply map_lookup_filter_Some. split; [done|]. simpl. by rewrite Hr.
    + apply map_lookup_filter_None. by left.
  - match goal with
    | |- context [call ?z ?op ?w0] =>
        destruct (call_cases z op w0) as [-> | [-> | ->]]
    end; rewrite ?replied_reply, ?replied_store;
      cbn [fst snd ret rdb set_net set_rdb];
      rewrite ?states_zremrangebyscore, rdb_advance; done.
Qed.

End cleanup.

(** C9, as the specification words it, fails on the code.  With
    [now = 4000] and [maxAge = 3000]: the entry of score 1000 is not below
    [now - maxAge] and is removed; the entry of score -5 is below it and is
    kept; and the value returned is the same [nil] when two entries are
    removed as when none is. *)
Lemma C9_cleanup_is_not_exactly_below :
  let cleaned := run (TimeoutManager.CleanupExpiredConversations 3000) cleanup_world in
  ¬ removes_exactly_below 3000 cleanup_world
  ∧ (waiting (rdb cleanup_world) !! "conv_a" = Some 1000
     ∧ waiting (rdb cleaned) !! "conv_a" = None)
  ∧ (waiting (rdb cleanup_world) !! "conv_z" = Some (-5)
     ∧ waiting (rdb cleaned) !! "conv_z" = Some (-5))
  ∧ (size (waiting (rdb cleanup_world)) = 3%nat ∧ size (waiting (rdb cleaned)) = 1%nat
     ∧ result (TimeoutManager.CleanupExpiredConversations 3000) cleanup_world = None
     ∧ result (TimeoutManager.CleanupExpiredConversations 3000) (world_at empty_redis 4000)
       = None).
Proof.
  assert (waiting (rdb cleanup_world) !! "conv_a" = Some 1000) as Hin
    by (vm_compute; reflexivity).
  assert (waiting (rdb (run (TimeoutManager.CleanupExpiredConversations 3000)
                         cleanup_world)) !! "conv_a" = None) as Hgone
    by (vm_compute; reflexivity).
  split.
  - intros H. apply (H "conv_a" 1000) in Hin as [Hrem _].
    apply Hrem in Hgone. vm_compute in Hgone. discriminate.
  - vm_compute. repeat split; reflexivity.
Qed.

(** ** The lease *)

Section lease.

Import LeaderElection.

Variable config : Config.

Lemma set_nx_held key value ttl r v :
  strings r !! key = Some v → set_nx key value ttl r = (None, r).
Proof. unfold set_nx. by intros ->. Qed.

(** While the lease key exists, whoever holds it, a tick of the election
    changes neither the store nor the replica's belief: go-redis reports
    the refused write as [redis.Nil], which [tryBecomeLeader] treats as any
    other error. *)
Lemma tryBecomeLeader_refused w v :
  lease (rdb w) = Some v →
  rdb (run (tryBecomeLeader config) w) = rdb w
  ∧ isLeader (run (tryBecomeLeader config) w) = isLeader w
  ∧ metrics (run (tryBecomeLeader config) w) = metrics w.
Proof.
  intros Hv. unfold lease in Hv. unfold run, tryBecomeLeader, SetArgs_NX, bind.
  match goal with
  | |- context [call ?z ?op ?w0] =>
      destruct (call_cases z op w0) as [-> | [-> | ->]]
  end; unfold nilable; rewrite ?(set_nx_held _ _ _ _ v Hv); simpl;
    by rewrite ?set_rdb_same.
Qed.

(** The branch written for a refused write reads the key and may step
    down; it sends no command that changes the store. *)
Lemma checkLostLeadership_store w :
  rdb (run (checkLostLeadership config) w) = rdb w.
Proof.
  unfold run, checkLostLeadership, Get, gets, bind. cbn [fst snd].
  destruct (isLeader w); [|done].
  match goal with
  | |- context [call ?z ?op ?w0] =>
      destruct (call_cases z op w0) as [-> | [-> | ->]]
  end; unfold nilable, get; cbn [fst snd];
    repeat case_match; done.
Qed.

(** What the renewal does when the replica holds the key. *)
Lemma renewLeadership_extends w ttl :
  next_fault w = None →
  lease (rdb w) = Some (PodID config, ttl) →
  0 < LeaderElectionTTL config →
  lease (rdb (run (renewLeadership config) w))
  = Some (PodID config, Some (LeaderElectionTTL config))
  ∧ isLeader (run (renewLeadership config) w) = isLeader w
  ∧ metrics (run (renewLeadership config) w) = metrics w.
Proof.
  intros Hf Hl Httl. unfold run, renewLeadership, bind.
  rewrite call_healthy by done. rewrite replied_reply, replied_store.
  unfold renew_script, get, expire. unfold lease in Hl. rewrite Hl. simpl.
  rewrite decide_True by done. simpl.
  assert ((0 <? LeaderElectionTTL config) = true) as -> by by apply Z.ltb_lt.
  simpl. unfold lease. simpl. by rewrite lookup_insert_eq.
Qed.

(** A successful write: the key was absent. *)
Lemma tryBecomeLeader_acquires w :
  healthy 2 w →
  lease (rdb w) = None →
  0 < LeaderElectionTTL config →
  let w' := run (tryBecomeLeader config) w in
  lease (rdb w') = Some (PodID config, Some (LeaderElectionTTL config))
  ∧ isLeader w' = true
  ∧ TimeoutLeaderChanges (metrics w')
    = if isLeader w then TimeoutLeaderChanges (metrics w)
      else S (TimeoutLeaderChanges (metrics w)).
Proof.
  intros Hh Hl Httl w'. subst w'.
  unfold run, tryBecomeLeader, SetArgs_NX, bind.
  rewrite call_healthy by by eapply healthy_next.
  unfold nilable, set_nx. unfold lease in Hl. rewrite Hl.
  assert ((0 <? LeaderElectionTTL config) = true) as Hpos by by apply Z.ltb_lt.
  rewrite Hpos. cbn [fst snd]. change (String.eqb "OK" "OK") with true. cbv iota.
  unfold gets, modify. cbn [fst snd].
  set (w1 := set_net _ (set_rdb _ w)).
  assert (lease (rdb w1) = Some (PodID config, Some (LeaderElectionTTL config))) as Hl1.
  { unfold lease, w1. simpl. by rewrite lookup_insert_eq. }
  assert (next_fault w1 = None) as Hf1.
  { eapply healthy_next, healthy_after; [done|]. done. }
  assert (isLeader w1 = isLeader w) as Hlead1 by done.
  assert (metrics w1 = metrics w) as Hm1 by done.
  rewrite Hlead1. destruct (isLeader w) eqn:Hw; cbn [negb]; cbv beta iota.
  - unfold ret. cbv beta iota.
    destruct (renewLeadership_extends w1 _ Hf1 Hl1 Httl) as (H1 & H2 & H3).
    unfold run in H1, H2, H3. by rewrite H1, H2, H3, Hlead1, Hm1.
  - set (w2 := set_isLeader true (set_metrics inc_TimeoutLeaderChanges w1)).
    destruct (renewLeadership_extends w2 (Some (LeaderElectionTTL config)))
      as (H1 & H2 & H3); try done.
    unfold run in H1, H2, H3. rewrite H1, H2, H3. by rewrite <- Hm1.
Qed.

(** C4, at the failing input.  The replica [pod-a] leads and holds the
    lease with 3 of its 10 seconds left.  A tick of the election leaves the
    lease at 3 seconds: the write is refused and nothing renews the lease,
    neither along the path that go-redis makes the code take nor in the
    branch written for a refused write; [renewLeadership], called on the
    same world, would bring it back to 10 seconds. *)
Theorem C4_refused_write_does_not_renew :
  let w' := run (tryBecomeLeader config_a) leader_world in
  lease (rdb leader_world) = Some ("pod-a", Some 3)
  ∧ isLeader leader_world = true
  ∧ lease (rdb w') = Some ("pod-a", Some 3)
  ∧ isLeader w' = true
  ∧ lease (rdb (run (checkLostLeadership config_a) leader_world)) = Some ("pod-a", Some 3)
  ∧ lease (rdb (run (renewLeadership config_a) leader_world)) = Some ("pod-a", Some 10).
Proof. vm_compute. repeat split; reflexivity. Qed.

End lease.

(** ** The phase 1 detector

    [processConversationTimeout] reads the level and chooses the due one
    with the same code as phase 2; it hands the event to [sendNotification]
    where phase 2 appends to the stream. *)

Lemma notified_advance w : notified (advance w) = notified w.
Proof. unfold advance. by destruct (later w). Qed.

Lemma metrics_advance w : metrics (advance w) = metrics w.
Proof. unfold advance. by destruct (later w). Qed.

Section phase1_facts.

Import LeaderElection.

Variable config : Config.

(** Whatever the network does, the step notifies at most once, and then
    at the due level. *)
Lemma processConversationTimeout_notified c s now w :
  notified (run (processConversationTimeout config c s now) w) = notified w
  ∨ ∃ lvl, due config c s now (rdb w) = Some lvl
           ∧ notified (run (processConversationTimeout config c s now) w)
             = notified w ++ [TimeoutEvent.mk c lvl s (now_ms w) 1].
Proof.
  unfold run, processConversationTimeout, bind.
  destruct (next_fault w) as [f|] eqn:Hf;
    [rewrite (HGet_faulty _ _ _ f) by done; by left|].
  rewrite HGet_healthy by done.
  fold (states (rdb w)). rewrite nil_is_not_failure.
  fold (storedLevel (rdb w) c). fold (due config c s now (rdb w)).
  destruct (due config c s now (rdb w)) as [lvl|] eqn:Hdue; [|by left].
  right. exists lvl. split; [done|].
  unfold sendNotification, time_Now, modify, bind. cbn [fst snd ret].
  unfold HSet.
  match goal with
  | |- context [call ?z ?op ?w0] =>
      destruct (call_cases z op w0) as [-> | [-> | ->]]
  end; rewrite ?replied_reply; simpl; by rewrite notified_advance.
Qed.

Lemma processConversationTimeout_not_due c s now w :
  due config c s now (rdb w) = None →
  rdb (run (processConversationTimeout config c s now) w) = rdb w
  ∧ notified (run (processConversationTimeout config c s now) w) = notified w.
Proof.
  intros Hdue. unfold run, processConversationTimeout, bind.
  destruct (next_fault w) as [f|] eqn:Hf;
    [by rewrite (HGet_faulty _ _ _ f) by done|].
  rewrite HGet_healthy by done.
  fold (states (rdb w)). rewrite nil_is_not_failure.
  fold (storedLevel (rdb w) c). fold (due config c s now (rdb w)).
  by rewrite Hdue.
Qed.

(** Over healthy round trips the step notifies at the due level, records
    the level and counts the notification. *)
Lemma processConversationTimeout_healthy c s now w lvl :
  healthy 2 w →
  due config c s now (rdb w) = Some lvl →
  let w' := run (processConversationTimeout config c s now) w in
  notified w' = notified w ++ [TimeoutEvent.mk c lvl s (now_ms w) 1]
  ∧ states (rdb w') = <[c := itoa lvl]> (states (rdb w))
  ∧ TimeoutNotificationsSent (metrics w')
    = inc_label ("level" +:+ itoa lvl) (TimeoutNotificationsSent (metrics w)).
Proof.
  intros Hh Hdue w'. subst w'.
  unfold run, processConversationTimeout, bind.
  rewrite HGet_healthy by by eapply healthy_next.
  fold (states (rdb w)). rewrite nil_is_not_failure.
  fold (storedLevel (rdb w) c). fold (due config c s now (rdb w)). rewrite Hdue.
  unfold sendNotification, time_Now, modify, bind. cbn [fst snd ret].
  unfold HSet. rewrite call_healthy.
  - rewrite replied_reply. cbn [fst snd]. rewrite replied_store.
    cbn [notified metrics rdb set_net set_rdb set_metrics set_notified
         TimeoutNotificationsSent inc_TimeoutNotificationsSent].
    by rewrite states_hset, notified_advance, metrics_advance, rdb_advance.
  - eapply healthy_next, healthy_after; [done|].
    cbn [net set_notified]. by rewrite net_advance.
Qed.

(** X15.  The step of phase 1 has the thresholds of phase 2.  For a
    positive base interval [N] whose triple fits in an [int64], a
    conversation at level 0 and healthy round trips,
    [processConversationTimeout] hands out nothing at a wait of exactly
    [N], level 1 at [N + 1], level 2 at [2 * N + 1], and level 3, without
    levels 1 and 2, at any wait above [3 * N]. *)
Lemma phase1_thresholds c s now w :
  let N := TimeoutIntervalMS config in
  let wait := sub64 now s in
  let sent lvl :=
    notified (run (processConversationTimeout config c s now) w)
    = notified w ++ [TimeoutEvent.mk c lvl s (now_ms w) 1] in
  0 < N → 3 * N ≤ max_int64 →
  storedLevel (rdb w) c = 0 →
  healthy 2 w →
  (wait = N → notified (run (processConversationTimeout config c s now) w) = notified w)
  ∧ (wait = N + 1 → sent 1)
  ∧ (wait = 2 * N + 1 → sent 2)
  ∧ (wait > 3 * N → sent 3).
Proof.
  intros N wait sent HN H3N Hcur Hh.
  assert (due config c s now (rdb w)
          = if decide (wait > 3 * N ∧ 0 < 3) then Some 3
            else if decide (wait > 2 * N ∧ 0 < 2) then Some 2
            else if decide (wait > N ∧ 0 < 1) then Some 1 else None) as Hdue.
  { unfold due. rewrite Hcur. apply dueLevel_exact.
    unfold min_int64, max_int64 in *. fold N. lia. }
  repeat split; intros Hw.
  - apply processConversationTimeout_not_due.
    rewrite Hdue. repeat case_decide; try done; lia.
  - apply processConversationTimeout_healthy; [done|].
    rewrite Hdue. repeat case_decide; try done; lia.
  - apply processConversationTimeout_healthy; [done|].
    rewrite Hdue. repeat case_decide; try done; lia.
  - apply processConversationTimeout_healthy; [done|].
    rewrite Hdue. repeat case_decide; try done; lia.
Qed.

End phase1_facts.

(** ** The properties at concrete inputs *)

Lemma json_stub_total event : is_Some (json_stub event).
Proof. by exists "{}". Defined.

(** Scenario A at its first boundary: nothing at 1000 ms, level 1 at 1001 ms. *)
Lemma C1_witness :
  events (rdb (run (StreamProducer.processTimeoutDetection json_stub config_a
                      "convA" 0 1000) (scenario_A 1000)))
  = events (rdb (scenario_A 1000))
  ∧ appended_one (rdb (scenario_A 1001))
      (rdb (run (StreamProducer.processTimeoutDetection json_stub config_a
                   "convA" 0 1001) (scenario_A 1001)))
      (TimeoutEvent.mk "convA" 1 0 1001 1).
Proof.
  assert (0 < TimeoutIntervalMS config_a) as HN by reflexivity.
  assert (3 * TimeoutIntervalMS config_a ≤ max_int64) as H3N
    by (vm_compute; discriminate).
  split.
  - assert (storedLevel (rdb (scenario_A 1000)) "convA" = 0) as Hcur
      by (vm_compute; reflexivity).
    assert (healthy 3 (scenario_A 1000)) as Hh by apply Forall_nil_2.
    destruct (C1_thresholds_are_strict json_stub config_a "convA" 0 1000
                (scenario_A 1000) HN H3N Hcur Hh (λ lvl, json_stub_total _))
      as (H & _).
    apply H. vm_compute. reflexivity.
  - assert (storedLevel (rdb (scenario_A 1001)) "convA" = 0) as Hcur
      by (vm_compute; reflexivity).
    assert (healthy 3 (scenario_A 1001)) as Hh by apply Forall_nil_2.
    destruct (C1_thresholds_are_strict json_stub config_a "convA" 0 1001
                (scenario_A 1001) HN H3N Hcur Hh (λ lvl, json_stub_total _))
      as (_ & H & _).
    apply H. vm_compute. reflexivity.
Defined.

(** A pass at 3001 ms over [convA] (waiting 3001 ms) and [convB] (waiting
    1501 ms). *)
Lemma C2_witness :
  ∃ new,
    events (rdb (run (StreamProducer.detectAndPublishTimeouts json_stub config_a)
                   (world_at two_waiting 3001)))
    = events (rdb (world_at two_waiting 3001)) ++ new
    ∧ Forall (λ m, ∃ event,
                carries m event
                ∧ (TimeoutEvent.Level event = 1 ∨ TimeoutEvent.Level event = 2
                   ∨ TimeoutEvent.Level event = 3)
                ∧ 3001 - TimeoutEvent.AgentMessageTime event
                  > TimeoutEvent.Level event * 1000) new.
Proof.
  apply (C2_appended_events_are_due json_stub config_a (world_at two_waiting 3001)).
  - vm_compute. split; discriminate.
  - vm_compute. split; discriminate.
Defined.

(** In that pass [convA] goes from level 0 straight to level 3. *)
Lemma C3_witness :
  ∃ pre m post t,
    events (rdb (run (StreamProducer.detectAndPublishTimeouts json_stub config_a)
                   (world_at two_waiting 3001)))
    = events (rdb (world_at two_waiting 3001)) ++ pre ++ m :: post
    ∧ carries m (TimeoutEvent.mk "convA" 3 0 t 1)
    ∧ Forall (λ m', entry_conversation m' ≠ Some "convA") (pre ++ post).
Proof.
  apply (C3_level_max_not_sequential json_stub config_a json_stub_total "convA" 0
           (world_at two_waiting 3001)).
  - vm_compute. discriminate.
  - vm_compute. discriminate.
  - vm_compute. discriminate.
  - reflexivity.
  - vm_compute. reflexivity.
  - vm_compute. discriminate.
  - vm_compute. reflexivity.
  - vm_compute. reflexivity.
Defined.


(** The append for [convA] is lost: its state stays absent to the end of
    the pass, and [convB], behind it, is published and recorded. *)
Lemma C7_witness :
  states (rdb (run (for_range [mkZ 0 "convA"; mkZ 1500 "convB"]
                      (λ conv, StreamProducer.processTimeoutDetection json_stub config_a
                                 (Member conv) (Score conv) 3001))
                 lossy_world)) !! "convA"
  = states (rdb lossy_world) !! "convA"
  ∧ states (rdb (run (for_range [mkZ 0 "convA"; mkZ 1500 "convB"]
                        (λ conv, StreamProducer.processTimeoutDetection json_stub config_a
                                   (Member conv) (Score conv) 3001))
                   lossy_world)) !! "convB"
    = Some (itoa 1).
Proof.
  destruct (C7_publish_before_state json_stub config_a json_stub_total
              [] [mkZ 1500 "convB"] (mkZ 0 "convA") 3001 lossy_world)
    as (_ & _ & H).
  destruct (H 3 RequestLost) as (_ & HA & _ & _ & HB).
  - reflexivity.
  - vm_compute. reflexivity.
  - apply (bool_decide_unpack _). vm_compute. exact I.
  - split; [exact HA|].
    destruct (HB (mkZ 1500 "convB") 1) as [HB1 _].
    + apply elem_of_cons. left. reflexivity.
    + vm_compute. reflexivity.
    + exact HB1.
Defined.

(** A stored level that reads "two" counts as 0: at 2001 ms the step
    publishes level 2 and records it. *)
Lemma C10_witness :
  storedLevel (rdb garbled_world) "convA" = 0
  ∧ appended_one (rdb garbled_world)
      (rdb (run (StreamProducer.processTimeoutDetection json_stub config_a
                   "convA" 0 2001) garbled_world))
      (TimeoutEvent.mk "convA" 2 0 2001 1)
  ∧ states (rdb (run (StreamProducer.processTimeoutDetection json_stub config_a
                        "convA" 0 2001) garbled_world)) !! "convA"
    = Some (itoa 2).
Proof.
  destruct (C10_unparsable_level_reads_as_zero json_stub config_a
              "convA" 0 2001 garbled_world "two") as (H0 & _ & _ & H).
  - vm_compute. reflexivity.
  - vm_compute. reflexivity.
  - split; [exact H0|].
    apply (H 2 "{}").
    + apply Forall_nil_2.
    + vm_compute. reflexivity.
    + reflexivity.
Defined.

(** Scenario A of the specification: levels 1, 2 and 3 at 1001, 2001 and
    3001 ms, and nothing more at 4000 ms. *)
Example scenario_A_escalates :
  (entry_level <$> events (rdb (run (passes 1) scenario_A_clock)) = [Some "1"])
  ∧ (entry_level <$> events (rdb (run (passes 2) scenario_A_clock))
     = [Some "1"; Some "2"])
  ∧ (entry_level <$> events (rdb (run (passes 3) scenario_A_clock))
     = [Some "1"; Some "2"; Some "3"])
  ∧ (entry_level <$> events (rdb (run (passes 4) scenario_A_clock))
     = [Some "1"; Some "2"; Some "3"])
  ∧ states (rdb (run (passes 4) scenario_A_clock)) !! "convA" = Some "3".
Proof. vm_compute. repeat split; reflexivity. Qed.

(** Scenario B: after a customer response nothing is left to escalate. *)
Example scenario_B_clears :
  let cleared :=
    run (pass ;;;
         TimeoutManager.ClearTimeout (CustomerResponse.mk "convA" "customer_1" "msg_9" 1200) ;;;
         pass ;;; pass) scenario_A_clock in
  entry_level <$> events (rdb cleared) = [Some "1"]
  ∧ waiting (rdb cleared) = ∅
  ∧ states (rdb cleared) = ∅.
Proof. vm_compute. repeat split; reflexivity. Qed.

(** Scenario C: tracking again at 2500 ms restarts the ladder; the passes
    at 3001 ms publish nothing, and the one at 4000 ms publishes level 1,
    not level 3. *)
Example scenario_C_restarts :
  let retracked :=
    run (pass ;;; pass ;;;
         TimeoutManager.TrackAgentMessage (AgentMessage.mk "convA" "agent_1" "msg_2" 2500) ;;;
         pass ;;; pass ;;; pass) scenario_A_clock in
  entry_level <$> events (rdb retracked) = [Some "1"; Some "2"; Some "1"]
  ∧ waiting (rdb retracked) !! "convA" = Some 2500
  ∧ states (rdb retracked) !! "convA" = Some "1".
Proof. vm_compute. repeat split; reflexivity. Qed.

(** * Further properties *)

(** ** Decimal text: [itoa] and [Atoi] are inverse on [int64] *)

Lemma digit_of_pretty_N_char d :
  (d < 10)%N → digit_of (pretty_N_char d) = Some (Z.of_N d).
Proof.
  intros Hd.
  assert (∃ n : nat, d = N.of_nat n ∧ (n < 10)%nat) as (n & -> & Hn).
  { exists (N.to_nat d). split; lia. }
  do 10 (destruct n as [|n]; [vm_compute; reflexivity|]). lia.
Qed.

Lemma split_sign_pretty_N_char d rest :
  (d < 10)%N →
  split_sign (String (pretty_N_char d) rest) = (false, String (pretty_N_char d) rest).
Proof.
  intros Hd.
  assert (∃ n : nat, d = N.of_nat n ∧ (n < 10)%nat) as (n & -> & Hn).
  { exists (N.to_nat d). split; lia. }
  do 10 (destruct n as [|n]; [vm_compute; reflexivity|]). lia.
Qed.

(** Digits are written in front of [s], and read back into the accumulator. *)
Lemma parse_digits_pretty_N_go x :
  ∃ k, 0 ≤ k
       ∧ ∀ s acc, parse_digits acc (pretty_N_go x s)
                  = parse_digits (acc * 10 ^ k + Z.of_N x) s.
Proof.
  induction (N.lt_wf_0 x) as [x _ IH].
  destruct (decide (0 < x)%N) as [Hx|Hx].
  - destruct (IH (x `div` 10)%N) as (k & Hk & Hparse); [by apply N.div_lt|].
    exists (k + 1). split; [lia|]. intros s acc.
    rewrite pretty_N_go_step by done. rewrite Hparse. simpl.
    rewrite digit_of_pretty_N_char by (apply N.mod_lt; lia).
    f_equal. rewrite Z.pow_add_r by lia.
    rewrite (N.div_mod x 10) at 3 by lia. rewrite N2Z.inj_add, N2Z.inj_mul. lia.
  - assert (x = 0%N) as -> by lia. exists 0. split; [done|]. intros s acc.
    rewrite pretty_N_go_0. f_equal. lia.
Qed.

Lemma pretty_N_go_head x s :
  (0 < x)%N →
  ∃ d rest, (d < 10)%N ∧ pretty_N_go x s = String (pretty_N_char d) rest.
Proof.
  revert s. induction (N.lt_wf_0 x) as [x _ IH]. intros s Hx.
  rewrite pretty_N_go_step by done.
  destruct (decide (0 < x `div` 10)%N) as [Hq|Hq].
  - apply IH; [by apply N.div_lt|done].
  - apply N.nlt_ge, N.le_0_r in Hq. rewrite Hq, pretty_N_go_0.
    eexists _, _. split; [|done]. by apply N.mod_lt.
Qed.

Lemma ParseInt_unsigned s n :
  s ≠ EmptyString → split_sign s = (false, s) → parse_digits 0 s = Some n →
  ParseInt s = if in_int64 n then Some n else None.
Proof.
  intros Hs Hsign Hn. unfold ParseInt. rewrite Hsign, Hn. by destruct s.
Qed.

Lemma ParseInt_negative s n :
  s ≠ EmptyString → parse_digits 0 s = Some n →
  ParseInt (String "-" s) = if in_int64 (- n) then Some (- n) else None.
Proof.
  intros Hs Hn. unfold ParseInt. cbn [split_sign]. rewrite Hn. by destruct s.
Qed.

Lemma parse_digits_pretty_N p :
  pretty (N.pos p) ≠ EmptyString
  ∧ split_sign (pretty (N.pos p)) = (false, pretty (N.pos p))
  ∧ parse_digits 0 (pretty (N.pos p)) = Some (Z.pos p).
Proof.
  unfold pretty, pretty_N. rewrite decide_False by done.
  destruct (pretty_N_go_head (N.pos p) "") as (d & rest & Hd & Hs); [lia|].
  split_and!.
  - by rewrite Hs.
  - by rewrite Hs, split_sign_pretty_N_char.
  - destruct (parse_digits_pretty_N_go (N.pos p)) as (k & _ & ->).
    cbn [parse_digits]. f_equal.
Qed.

Lemma Atoi_itoa z : in_int64 z = true → Atoi (itoa z) = Some z.
Proof.
  intros Hz. unfold Atoi, itoa. destruct z as [|p|p].
  - done.
  - destruct (parse_digits_pretty_N p) as (Hne & Hsign & Hn).
    change (pretty (Z.pos p)) with (pretty (N.pos p)).
    rewrite (ParseInt_unsigned _ _ Hne Hsign Hn). by rewrite Hz.
  - destruct (parse_digits_pretty_N p) as (Hne & _ & Hn).
    change (pretty (Z.neg p)) with (String "-" (pretty (N.pos p))).
    rewrite (ParseInt_negative _ _ Hne Hn).
    change (- Z.pos p) with (Z.neg p). by rewrite Hz.
Qed.

(** ** What the producer writes, the consumer reads *)

Lemma in_int64_level lvl : lvl = 1 ∨ lvl = 2 ∨ lvl = 3 → in_int64 lvl = true.
Proof. by intros [-> | [-> | ->]]. Qed.

Section stream_fields.

Import StreamProducer StreamConsumer.

Variables (event : TimeoutEvent.t) (data : string).

Lemma stream_values_conversation_id :
  as_string (stream_values event data !! "conversation_id")
  = Some (TimeoutEvent.ConversationID event).
Proof. unfold stream_values. by simplify_map_eq. Qed.

Lemma stream_values_level :
  as_string (stream_values event data !! "level")
  = Some (itoa (TimeoutEvent.Level event)).
Proof. unfold stream_values. by simplify_map_eq. Qed.

Lemma stream_values_agent_message_time :
  as_string (stream_values event data !! "agent_message_time")
  = Some (itoa (TimeoutEvent.AgentMessageTime event)).
Proof. unfold stream_values. by simplify_map_eq. Qed.

Lemma stream_values_detected_at :
  as_string (stream_values event data !! "detected_at")
  = Some (itoa (TimeoutEvent.DetectedAt event)).
Proof. unfold stream_values. by simplify_map_eq. Qed.

Lemma stream_values_attempt :
  as_string (stream_values event data !! "attempt")
  = Some (itoa (TimeoutEvent.Attempt event)).
Proof. unfold stream_values. by simplify_map_eq. Qed.

End stream_fields.

(** An entry whose fields are the ones [publishTimeoutEvent] sends for
    [event] parses back to [event]. *)
Lemma parse_carried m event :
  carries m event →
  in_int64 (TimeoutEvent.Level event) = true →
  in_int64 (TimeoutEvent.AgentMessageTime event) = true →
  in_int64 (TimeoutEvent.DetectedAt event) = true →
  in_int64 (TimeoutEvent.Attempt event) = true →
  StreamConsumer.parseTimeoutEvent m = inl event.
Proof.
  intros [data Hm] Hl Ha Hd Ht. unfold StreamConsumer.parseTimeoutEvent. rewrite Hm.
  rewrite stream_values_conversation_id, stream_values_level,
    stream_values_agent_message_time, stream_values_detected_at, stream_values_attempt.
  change ParseInt with Atoi. rewrite !Atoi_itoa by done. by destruct event.
Qed.

(** X1.  The fields that [publishTimeoutEvent] puts in a stream entry are
    read back by [parseTimeoutEvent] as the event they were taken from, at
    the millisecond precision of the entry, whatever the entry's id and
    its [event_data]: the decimal text of every [int64] parses to itself. *)
Theorem publish_parse_round_trip (id data : string) (event : TimeoutEvent.t) :
  in_int64 (TimeoutEvent.Level event) = true →
  in_int64 (TimeoutEvent.AgentMessageTime event) = true →
  in_int64 (TimeoutEvent.DetectedAt event) = true →
  in_int64 (TimeoutEvent.Attempt event) = true →
  StreamConsumer.parseTimeoutEvent
    (mkXMessage id (StreamProducer.stream_values event data)) = inl event.
Proof.
  intros Hl Ha Hd Ht. unfold StreamConsumer.parseTimeoutEvent. cbn [Values].
  rewrite stream_values_conversation_id, stream_values_level,
    stream_values_agent_message_time, stream_values_detected_at, stream_values_attempt.
  change ParseInt with Atoi. rewrite !Atoi_itoa by done. by destruct event.
Qed.

Lemma publish_parse_round_trip_witness :
  StreamConsumer.parseTimeoutEvent
    (mkXMessage "7-0"
       (StreamProducer.stream_values
          (TimeoutEvent.mk "convA" 3 (-5) 9223372036854775807 1) "{}"))
  = inl (TimeoutEvent.mk "convA" 3 (-5) 9223372036854775807 1).
Proof.
  apply (publish_parse_round_trip "7-0" "{}"
           (TimeoutEvent.mk "convA" 3 (-5) 9223372036854775807 1));
    vm_compute; reflexivity.
Defined.

(** X2.  [parseTimeoutEvent] reads five fields of an entry and nothing
    else: two entries that agree on them parse alike, whatever their ids,
    their [event_data] and their other fields.  The field [attempt] is
    optional: without it an entry that parses gives the same event with
    attempt 1; with an [attempt] that is a string but no number the entry
    does not parse. *)
Theorem parseTimeoutEvent_reads_five_fields (m m' : XMessage) :
  ((∀ k, k ∈ ["conversation_id"; "level"; "agent_message_time"; "detected_at"; "attempt"] →
         Values m !! k = Values m' !! k) →
   StreamConsumer.parseTimeoutEvent m = StreamConsumer.parseTimeoutEvent m')
  ∧ (∀ event,
       StreamConsumer.parseTimeoutEvent m = inl event →
       StreamConsumer.parseTimeoutEvent (mkXMessage (ID m) (delete "attempt" (Values m)))
       = inl (TimeoutEvent.mk (TimeoutEvent.ConversationID event) (TimeoutEvent.Level event)
                (TimeoutEvent.AgentMessageTime event) (TimeoutEvent.DetectedAt event) 1))
  ∧ (∀ a, Values m !! "attempt" = Some (VString a) → Atoi a = None →
          ∃ e, StreamConsumer.parseTimeoutEvent m = inr e).
Proof.
  split; [|split].
  - intros H. unfold StreamConsumer.parseTimeoutEvent.
    assert (∀ k, bool_decide (k ∈ ["conversation_id"; "level"; "agent_message_time";
                                    "detected_at"; "attempt"]) = true →
                 Values m !! k = Values m' !! k) as H'.
    { intros k Hk. apply bool_decide_eq_true in Hk. by apply H. }
    by rewrite !H' by done.
  - intros event. unfold StreamConsumer.parseTimeoutEvent. cbn [Values].
    rewrite lookup_delete_eq, !lookup_delete_ne by done. cbn [StreamConsumer.as_string].
    repeat case_match; try done; intros [= <-]; done.
  - intros a Ha Hatoi. unfold StreamConsumer.parseTimeoutEvent.
    rewrite Ha. cbn [StreamConsumer.as_string]. rewrite Hatoi.
    repeat case_match; eauto.
Qed.

(** ** The timeout index, queried and composed *)

Lemma run_bind {A B} (m : M A) (k : A → M B) w :
  run (bind m k) w = run (k (result m w)) (run m w).
Proof. unfold run, result, bind. by destruct (m w). Qed.

Lemma result_bind {A B} (m : M A) (k : A → M B) w :
  result (bind m k) w = result (k (result m w)) (run m w).
Proof. unfold run, result, bind. by destruct (m w). Qed.

Lemma healthy_tail n w w' :
  healthy (S (S n)) w → net w' = tail (net w) → next_fault w' = None.
Proof.
  unfold healthy, next_fault. intros H ->.
  destruct (net w) as [|o [|[f|] l]]; simpl in *; try done.
  apply Forall_cons in H as [_ H]. by apply Forall_cons in H as [? _].
Qed.

Section index_queries.

Import TimeoutManager.

Lemma Exec_run_healthy pipe w :
  next_fault w = None →
  Exec pipe w
  = ((tt, None), set_net (tail (net w)) (set_rdb (foldl (λ r c, run_cmd c r) (rdb w) pipe) w)).
Proof. intros H. unfold Exec. rewrite call_healthy by done. by rewrite replied_reply, replied_store. Qed.

Lemma TrackAgentMessage_healthy agentMsg w :
  next_fault w = None →
  TrackAgentMessage agentMsg w
  = (None,
     set_net (tail (net w))
       (set_rdb (hdel NotificationStatesKey (AgentMessage.ConversationID agentMsg)
                   (zadd WaitingConversationsKey
                      (mkZ (AgentMessage.Timestamp agentMsg)
                         (AgentMessage.ConversationID agentMsg)) (rdb w)).2).2 w)).
Proof. intros H. unfold TrackAgentMessage, bind. by rewrite Exec_run_healthy. Qed.

Lemma ClearTimeout_healthy customerResp w :
  next_fault w = None →
  ClearTimeout customerResp w
  = (None,
     set_net (tail (net w))
       (set_rdb (hdel NotificationStatesKey (CustomerResponse.ConversationID customerResp)
                   (zrem WaitingConversationsKey
                      (CustomerResponse.ConversationID customerResp) (rdb w)).2).2 w)).
Proof. intros H. unfold ClearTimeout, bind. by rewrite Exec_run_healthy. Qed.

Lemma ZCard_cases w :
  (ZCard WaitingConversationsKey w).2 = set_net (tail (net w)) w
  ∧ ((next_fault w = None
      ∧ (ZCard WaitingConversationsKey w).1 = (Z.of_nat (size (waiting (rdb w))), None))
     ∨ (next_fault w ≠ None ∧ (ZCard WaitingConversationsKey w).1 = (0, Some io_error))).
Proof.
  unfold ZCard. destruct (next_fault w) as [[]|] eqn:Hf.
  - rewrite call_request_lost by done. split; [done|]. by right.
  - rewrite call_reply_lost by done. rewrite replied_store. cbn [fst snd zcard].
    rewrite set_rdb_same. split; [done|]. by right.
  - rewrite call_healthy by done. rewrite replied_store, replied_reply. cbn [fst snd zcard].
    rewrite set_rdb_same. split; [done|]. by left.
Qed.

(** X3.  [GetNotificationState] sends one read and never changes the
    store.  Whenever it returns without an error, the level it returns is
    the one the detectors read for the conversation.  Over a healthy
    round trip: no entry gives level 0 and no error; a stored number gives
    that number; a stored value that is no number gives an error, where
    the detectors read it as level 0. *)
Theorem GetNotificationState_agrees_with_detector (c : string) (w : World) :
  let level := (result (GetNotificationState c) w).1 in
  let err := (result (GetNotificationState c) w).2 in
  rdb (run (GetNotificationState c) w) = rdb w
  ∧ (err = None → level = storedLevel (rdb w) c)
  ∧ (next_fault w = None →
     match states (rdb w) !! c with
     | None => level = 0 ∧ err = None
     | Some v =>
         match Atoi v with
         | Some l => level = l ∧ err = None
         | None =>
             level = 0 ∧ err = Some (errorf "invalid notification level format")
             ∧ storedLevel (rdb w) c = 0
         end
     end).
Proof.
  intros level err. subst level err.
  unfold result, run, GetNotificationState, bind, storedLevel.
  destruct (next_fault w) as [f|] eqn:Hf.
  - rewrite (HGet_faulty _ _ _ f) by done. by cbn.
  - rewrite HGet_healthy by done. fold (states (rdb w)).
    destruct (states (rdb w) !! c) as [v|] eqn:Hv; simpl.
    + destruct (Atoi v) as [l|] eqn:Hl; simpl.
      * split; [done|]. split; [|done]. intros _. unfold currentLevelOf. rewrite Hl.
        by destruct v.
      * split; [done|]. split; [done|]. intros _.
        by rewrite currentLevelOf_unparsable.
    + done.
Qed.

(** X4.  [GetWaitingConversationsCount] never changes the store; with an
    error it returns 0.  Over healthy round trips, the count that follows
    [TrackAgentMessage] is the size of the waiting index before it, plus
    one exactly when the conversation was not yet waiting. *)
Theorem count_after_track (agentMsg : AgentMessage.t) (w : World) :
  let c := AgentMessage.ConversationID agentMsg in
  rdb (run GetWaitingConversationsCount w) = rdb w
  ∧ ((result GetWaitingConversationsCount w).2 ≠ None →
     (result GetWaitingConversationsCount w).1 = 0)
  ∧ (healthy 2 w →
     result (TrackAgentMessage agentMsg ;;; GetWaitingConversationsCount) w
     = (Z.of_nat (size (waiting (rdb w)))
        + match waiting (rdb w) !! c with Some _ => 0 | None => 1 end,
        None)).
Proof.
  intros c.
  assert (∀ w0, (GetWaitingConversationsCount w0).2 = set_net (tail (net w0)) w0
                ∧ ((GetWaitingConversationsCount w0).1
                   = (Z.of_nat (size (waiting (rdb w0))), None)
                   ∨ (next_fault w0 ≠ None ∧ (GetWaitingConversationsCount w0).1.1 = 0)))
    as Hcount.
  { intros w0. unfold GetWaitingConversationsCount, bind.
    destruct (ZCard_cases w0) as [Hw [[Hf Hr] | [Hf Hr]]];
      destruct (ZCard WaitingConversationsKey w0) as [[n e] w1];
      cbn [fst snd] in *; subst w1; injection Hr as -> ->; cbn; auto. }
  split; [|split].
  - unfold run. by rewrite (proj1 (Hcount w)).
  - unfold result. destruct (Hcount w) as [_ [-> | [_ ->]]]; done.
  - intros Hh. rewrite result_bind. unfold run, result at 1.
    rewrite TrackAgentMessage_healthy by by eapply healthy_next.
    cbn [fst snd]. fold c.
    set (w1 := set_net _ _).
    destruct (Hcount w1) as [_ [-> | [Hf _]]].
    + f_equal. unfold w1. cbn [rdb set_net set_rdb].
      rewrite waiting_hdel, waiting_zadd. cbn [Member Score].
      destruct (waiting (rdb w) !! c) as [s|] eqn:Hc.
      * rewrite map_size_insert_Some by done. lia.
      * rewrite map_size_insert_None by done. lia.
    + destruct Hf. by eapply healthy_tail.
Qed.

(** X5.  Over healthy round trips the last call for a conversation
    decides: tracking twice leaves the store that the second tracking
    alone leaves; tracking and then clearing leaves the store that the
    clearing alone leaves; clearing and then tracking leaves the store
    that the tracking alone leaves. *)
Theorem last_call_decides (c agent1 msg1 agent2 msg2 customer msg3 : string)
    (t1 t2 t3 : Z) (w : World) :
  let track1 := TrackAgentMessage (AgentMessage.mk c agent1 msg1 t1) in
  let track2 := TrackAgentMessage (AgentMessage.mk c agent2 msg2 t2) in
  let clear := ClearTimeout (CustomerResponse.mk c customer msg3 t3) in
  healthy 2 w →
  rdb (run (track1 ;;; track2) w) = rdb (run track2 w)
  ∧ rdb (run (track1 ;;; clear) w) = rdb (run clear w)
  ∧ rdb (run (clear ;;; track2) w) = rdb (run track2 w).
Proof.
  intros track1 track2 clear Hh.
  assert (next_fault w = None) as Hf by by eapply healthy_next.
  assert (∀ r : Redis, next_fault (set_net (tail (net w)) (set_rdb r w)) = None) as Hf2.
  { intros r. by eapply healthy_tail. }
  rewrite !run_bind. unfold run, result, track1, track2, clear.
  rewrite !(TrackAgentMessage_healthy _ w Hf), !(ClearTimeout_healthy _ w Hf).
  cbn [fst snd].
  rewrite !TrackAgentMessage_healthy, !ClearTimeout_healthy by apply Hf2.
  cbn [fst snd rdb set_net set_rdb AgentMessage.ConversationID AgentMessage.Timestamp
       CustomerResponse.ConversationID].
  unfold hdel, zadd, zrem, set_hashes, set_zsets.
  cbn [fst snd zsets hashes strings streams Member Score].
  rewrite !lookup_total_insert_eq, !insert_insert_eq.
  rewrite ?insert_insert_eq, ?delete_insert_eq, ?insert_delete_eq, ?delete_delete_eq.
  done.
Qed.

Lemma last_call_decides_witness :
  rdb (run (TrackAgentMessage (AgentMessage.mk "convC" "agent_1" "msg_1" 2500) ;;;
            ClearTimeout (CustomerResponse.mk "convC" "customer_1" "msg_2" 2600))
         scenario_C)
  = rdb (run (ClearTimeout (CustomerResponse.mk "convC" "customer_1" "msg_2" 2600))
           scenario_C).
Proof.
  destruct (last_call_decides "convC" "agent_1" "msg_1" "agent_1" "msg_1"
              "customer_1" "msg_2" 2500 2500 2600 scenario_C) as (_ & H & _).
  - apply Forall_nil_2.
  - exact H.
Defined.

End index_queries.

(** ** The lease, seen from several replicas *)

Section lease_safety.

Import LeaderElection.

Variable config : Config.

Lemma Get_LeaderKey_cases w :
  (Get LeaderKey w).2 = set_net (tail (net w)) w
  ∧ ((next_fault w = None
      ∧ (Get LeaderKey w).1
        = match lease (rdb w) with
          | Some (holder, _) => (holder, None)
          | None => ("", Some redis_Nil)
          end)
     ∨ (next_fault w ≠ None ∧ (Get LeaderKey w).1 = ("", Some io_error))).
Proof.
  unfold Get. destruct (next_fault w) as [[]|] eqn:Hf.
  - rewrite call_request_lost by done. split; [done|]. by right.
  - rewrite call_reply_lost by done. unfold nilable, get. cbn [fst snd].
    destruct (fst <$> strings (rdb w) !! LeaderKey); cbn [snd]; rewrite set_rdb_same;
      split; try done; by right.
  - rewrite call_healthy by done. unfold nilable, get, lease. cbn [fst snd].
    destruct (strings (rdb w) !! LeaderKey) as [[holder ttl]|]; cbn [fmap option_fmap option_map fst snd];
      rewrite set_rdb_same; split; try done; by left.
Qed.

(** The answer of [IsLeader], the world it leaves, and what a [true]
    tells about the store. *)
Lemma IsLeader_run w :
  ∃ b, IsLeader config w = (b, set_isLeader b (set_net (tail (net w)) w))
       ∧ (b = true → ∃ ttl, lease (rdb w) = Some (PodID config, ttl))
       ∧ (next_fault w = None →
          (∃ ttl, lease (rdb w) = Some (PodID config, ttl)) → b = true).
Proof.
  unfold IsLeader, bind, modify.
  destruct (Get_LeaderKey_cases w) as [Hw [[Hf Hr] | [Hf Hr]]];
    destruct (Get LeaderKey w) as [[currentLeader err] w1];
    cbn [fst snd] in *; subst w1.
  - destruct (lease (rdb w)) as [[holder ttl]|] eqn:Hl; injection Hr as -> ->.
    + exists (String.eqb holder (PodID config)). split; [done|]. split.
      * intros ->%String.eqb_eq. by exists ttl.
      * intros _ [ttl' [= -> ->]]. by apply String.eqb_eq.
    + exists false. split; [done|]. split; [done|]. by intros _ [ttl' ?].
  - injection Hr as -> ->. exists false. by repeat split.
Qed.

(** X6.  [IsLeader] asks the store: it changes nothing there, sets the
    replica's own flag to its answer, and answers [true] only when the
    lease names this replica (over a healthy round trip, exactly then).
    So of two replicas with different identifiers in front of the same
    store, at most one gets [true], whatever the network does and whatever
    their flags were. *)
Theorem IsLeader_exclusive (configB : Config) (w wB : World) :
  let answer := result (IsLeader config) w in
  rdb (run (IsLeader config) w) = rdb w
  ∧ isLeader (run (IsLeader config) w) = answer
  ∧ (answer = true → ∃ ttl, lease (rdb w) = Some (PodID config, ttl))
  ∧ (next_fault w = None →
     (∃ ttl, lease (rdb w) = Some (PodID config, ttl)) → answer = true)
  ∧ (PodID configB ≠ PodID config → rdb wB = rdb w →
     answer = true → result (IsLeader configB) wB = false).
Proof.
  intros answer. subst answer. unfold run, result.
  destruct (IsLeader_run w) as (b & -> & Htrue & Hhealthy). cbn [fst snd].
  split; [done|]. split; [done|]. split; [done|]. split; [done|].
  intros Hne Hrdb Hb. destruct (Htrue Hb) as [ttl Hl].
  clear Htrue Hhealthy.
  unfold IsLeader, bind, modify.
  destruct (Get_LeaderKey_cases wB) as [Hw [[Hf Hr] | [Hf Hr]]];
    destruct (Get LeaderKey wB) as [[currentLeader err] w1];
    cbn [fst snd] in *; subst w1.
  - rewrite Hrdb, Hl in Hr. injection Hr as -> ->. cbn [fst].
    apply String.eqb_neq. congruence.
  - by injection Hr as -> ->.
Qed.

Lemma renew_script_foreign key own ttl r holder t :
  strings r !! key = Some (holder, t) → holder ≠ own →
  renew_script key own ttl r = (0, r).
Proof.
  intros Hl Hne. unfold renew_script, get. rewrite Hl. cbn.
  rewrite decide_False; [done|]. congruence.
Qed.

Lemma resign_script_foreign key own r holder t :
  strings r !! key = Some (holder, t) → holder ≠ own →
  resign_script key own r = (0, r).
Proof.
  intros Hl Hne. unfold resign_script, get. rewrite Hl. cbn.
  rewrite decide_False; [done|]. congruence.
Qed.

(** X7.  A lease that names another replica is out of reach: whatever the
    network does, no step of the election of this replica (a tick, a
    renewal, a resignation, a stop) changes the store, a tick leaves the
    replica's flag and its counters as they were, and after a renewal or a
    stop the replica does not believe it leads. *)
Theorem foreign_lease_is_safe (w : World) (holder : string) (ttl : option Z) :
  lease (rdb w) = Some (holder, ttl) →
  holder ≠ PodID config →
  (rdb (run (leaderElectionTick config) w) = rdb w
   ∧ isLeader (run (leaderElectionTick config) w) = isLeader w
   ∧ metrics (run (leaderElectionTick config) w) = metrics w)
  ∧ (rdb (run (renewLeadership config) w) = rdb w
     ∧ isLeader (run (renewLeadership config) w) = false)
  ∧ (rdb (run (resignLeadership config) w) = rdb w
     ∧ isLeader (run (resignLeadership config) w) = false)
  ∧ (rdb (run (Stop config) w) = rdb w
     ∧ isLeader (run (Stop config) w) = false).
Proof.
  intros Hl Hne.
  assert (rdb (run (resignLeadership config) w) = rdb w
          ∧ isLeader (run (resignLeadership config) w) = false) as Hresign.
  { unfold run, resignLeadership, bind, modify.
    match goal with
    | |- context [call ?z ?op ?w0] =>
        destruct (call_cases z op w0) as [-> | [-> | ->]]
    end; rewrite ?replied_store, ?replied_reply;
      rewrite ?(resign_script_foreign _ _ _ _ _ Hl Hne); cbn; by rewrite ?set_rdb_same. }
  split; [|split; [|split]].
  - by apply (tryBecomeLeader_refused config w (holder, ttl)).
  - unfold run, renewLeadership, bind, modify.
    match goal with
    | |- context [call ?z ?op ?w0] =>
        destruct (call_cases z op w0) as [-> | [-> | ->]]
    end; rewrite ?replied_store, ?replied_reply;
      rewrite ?(renew_script_foreign _ _ _ _ _ _ Hl Hne); cbn; by rewrite ?set_rdb_same.
  - done.
  - unfold run, Stop, gets, bind. cbn [fst snd].
    destruct (isLeader w) eqn:Hw; [apply Hresign|done].
Qed.

End lease_safety.

(** The lease of [pod-a] in front of the replica [pod-b]. *)
Lemma foreign_lease_is_safe_witness :
  rdb (run (LeaderElection.leaderElectionTick config_b) leader_world) = rdb leader_world
  ∧ isLeader (run (LeaderElection.Stop config_b) leader_world) = false.
Proof.
  destruct (foreign_lease_is_safe config_b leader_world "pod-a" (Some 3))
    as ((H1 & _) & _ & _ & (_ & H2)).
  - reflexivity.
  - discriminate.
  - exact (conj H1 H2).
Defined.

(** ** Handing the lease over *)

Lemma resign_script_own key own r t :
  strings r !! key = Some (own, t) →
  LeaderElection.resign_script key own r = (1, set_strings (delete key) r).
Proof.
  intros Hl. unfold LeaderElection.resign_script, get, del. rewrite Hl. cbn.
  by rewrite decide_True.
Qed.

(** X8.  A replica that holds the lease and believes it leads gives the
    lease up when it stops: over a healthy round trip the key is deleted
    and the flag is cleared, and the next tick of another replica over
    healthy round trips takes the lease for its own time to live and makes
    that replica the leader.  A holder whose flag is not set sends
    nothing when it stops, and the lease stays. *)
Theorem lease_handover (configA configB : Config) (wA wB : World) (ttl : option Z) :
  let stopped := run (LeaderElection.Stop configA) wA in
  let wB' := run (LeaderElection.leaderElectionTick configB) (set_rdb (rdb stopped) wB) in
  lease (rdb wA) = Some (PodID configA, ttl) →
  (isLeader wA = true → next_fault wA = None →
   healthy 2 wB → 0 < LeaderElectionTTL configB →
   lease (rdb stopped) = None
   ∧ isLeader stopped = false
   ∧ lease (rdb wB') = Some (PodID configB, Some (LeaderElectionTTL configB))
   ∧ isLeader wB' = true)
  ∧ (isLeader wA = false → stopped = wA).
Proof.
  intros stopped wB' Hl. split.
  - intros Hlead Hf HhB Httl.
    assert (lease (rdb stopped) = None ∧ isLeader stopped = false) as [Hnone Hflag].
    { unfold stopped, run, LeaderElection.Stop, gets, bind. cbn [fst snd]. rewrite Hlead.
      unfold LeaderElection.resignLeadership, bind, modify.
      rewrite call_healthy by done. rewrite replied_reply, replied_store.
      rewrite (resign_script_own _ _ _ _ Hl). cbn [fst snd rdb set_isLeader set_net set_rdb].
      split; [|done]. unfold lease. cbn [strings set_strings]. by rewrite lookup_delete_eq. }
    split; [done|]. split; [done|].
    destruct (tryBecomeLeader_acquires configB (set_rdb (rdb stopped) wB)) as (H1 & H2 & _);
      try done.
  - intros Hlead. unfold stopped, run, LeaderElection.Stop, gets, bind. cbn [fst snd].
    by rewrite Hlead.
Qed.

Lemma lease_handover_witness :
  lease (rdb (run (LeaderElection.Stop config_a) leader_world)) = None
  ∧ lease (rdb (run (LeaderElection.leaderElectionTick config_b)
                  (set_rdb (rdb (run (LeaderElection.Stop config_a) leader_world))
                     (world_at empty_redis 7000))))
    = Some ("pod-b", Some 10).
Proof.
  destruct (lease_handover config_a config_b leader_world (world_at empty_redis 7000)
              (Some 3)) as [H _].
  - reflexivity.
  - destruct H as (H1 & _ & H2 & _).
    + reflexivity.
    + reflexivity.
    + apply Forall_nil_2.
    + reflexivity.
    + exact (conj H1 H2).
Defined.

(** ** Who runs the periodic work *)

Lemma CleanupExpiredConversations_healthy maxAge w :
  next_fault w = None →
  rdb (run (TimeoutManager.CleanupExpiredConversations maxAge) w)
  = (zremrangebyscore WaitingConversationsKey 0 (now_ms w - maxAge) (rdb w)).2.
Proof.
  intros Hf.
  unfold run, TimeoutManager.CleanupExpiredConversations, ZRemRangeByScore, time_Now, bind.
  cbn [fst snd]. rewrite call_healthy by by rewrite next_fault_advance.
  rewrite replied_reply, replied_store. cbn [fst snd ret rdb set_net set_rdb].
  by rewrite rdb_advance.
Qed.

Section periodic_work.

Variable json_Marshal : TimeoutEvent.t → option string.
Variable config : Config.

(** X9.  The detector of phase 2 is gated by the store, not by the
    replica's flag.  A replica that the lease does not name appends no
    event and writes no state in its tick, whatever the network does and
    even when its flag says it leads, and its flag is cleared; a replica
    that the lease names runs the detection pass over a healthy read of
    the lease even when its flag was not set. *)
Theorem detection_tick_needs_the_lease (w : World) :
  let tick := StreamProducer.timeoutDetectionTick json_Marshal config in
  ((∀ ttl, lease (rdb w) ≠ Some (PodID config, ttl)) →
   rdb (run tick w) = rdb w ∧ isLeader (run tick w) = false)
  ∧ ((∃ ttl, lease (rdb w) = Some (PodID config, ttl)) →
     next_fault w = None →
     run tick w
     = run (StreamProducer.detectAndPublishTimeouts json_Marshal config)
         (set_isLeader true (set_net (tail (net w)) w))).
Proof.
  intros tick. subst tick. unfold run, StreamProducer.timeoutDetectionTick, bind.
  destruct (IsLeader_run config w) as (b & -> & Htrue & Hhealthy). split.
  - intros Hl. destruct b; [|done]. destruct Htrue as [ttl Httl]; [done|]. by destruct (Hl ttl).
  - intros Hl Hf. by rewrite (Hhealthy Hf Hl).
Qed.

(** X10.  The hourly cleanup of phase 1 is gated by the store as well: a
    replica that the lease does not name removes nothing, whatever the
    network does; a replica that the lease names removes, over healthy
    round trips, exactly the waiting entries whose score lies between 0
    and the time of the tick less 24 hours. *)
Theorem cleanup_tick_needs_the_lease (w : World) :
  let tick := phase1_Service.cleanupTick config in
  ((∀ ttl, lease (rdb w) ≠ Some (PodID config, ttl)) → rdb (run tick w) = rdb w)
  ∧ ((∃ ttl, lease (rdb w) = Some (PodID config, ttl)) →
     healthy 2 w →
     waiting (rdb (run tick w))
     = filter (λ p, in_range 0 (now_ms w - 86400000) p.2 ≠ true) (waiting (rdb w))
     ∧ states (rdb (run tick w)) = states (rdb w)).
Proof.
  intros tick. subst tick. unfold phase1_Service.cleanupTick. rewrite !run_bind.
  destruct (IsLeader_run config w) as (b & HI & Htrue & Hhealthy).
  assert (result (LeaderElection.IsLeader config) w = b) as ->
    by (unfold result; by rewrite HI).
  assert (run (LeaderElection.IsLeader config) w
          = set_isLeader b (set_net (tail (net w)) w)) as ->
    by (unfold run; by rewrite HI).
  split.
  - intros Hl. destruct b; [|done]. destruct Htrue as [ttl Httl]; [done|]. by destruct (Hl ttl).
  - intros Hl Hh. rewrite (Hhealthy (healthy_next _ _ Hh) Hl).
    set (w1 := set_isLeader true (set_net (tail (net w)) w)).
    assert (next_fault w1 = None) as Hf1 by by eapply healthy_tail.
    rewrite !run_bind. change (run (ret tt) ?x) with x.
    rewrite CleanupExpiredConversations_healthy by done.
    by rewrite waiting_zremrangebyscore, states_zremrangebyscore.
Qed.

End periodic_work.

(** ** The consumer group *)

Section consumer_group.

Import StreamProducer StreamConsumer.

Variable config : Config.

#[local] Abbreviation group := (ConsumerGroupName config).

Lemma xreadgroup_spec r g :
  groups (streams r !!! TimeoutEventsStream) !! group = Some g →
  let msgs := take 10 (drop (last_delivered g) (events r)) in
  xreadgroup TimeoutEventsStream group 10 r
  = match msgs with
    | [] => (([], Some redis_Nil), r)
    | _ =>
        ((msgs, None),
         set_streams
           <[TimeoutEventsStream :=
               mkStream (events r)
                 (<[group := mkGroup (last_delivered g + length msgs)
                               (pel g ∪ list_to_set (ID <$> msgs))]>
                    (groups (streams r !!! TimeoutEventsStream)))]> r)
    end.
Proof.
  intros Hg. unfold xreadgroup, events. rewrite Hg. cbn zeta.
  by destruct (take 10 _).
Qed.

(** Over a healthy round trip, with the sink of the program, an entry is
    acknowledged whether it parses or not. *)
Lemma processMessage_healthy message w :
  net w = [] →
  rdb (run (processMessage config message) w)
  = (xack TimeoutEventsStream group (ID message) (rdb w)).2
  ∧ net (run (processMessage config message) w) = [].
Proof.
  intros Hnet. unfold run, processMessage, processMessageWith.
  assert (∀ w0, net w0 = [] →
                acknowledgeMessage config (ID message) w0
                = (None,
                   set_net [] (set_rdb (xack TimeoutEventsStream group (ID message)
                                          (rdb w0)).2 w0))) as Hack.
  { intros w0 Hw0. unfold acknowledgeMessage, XAck, bind.
    rewrite call_healthy by (unfold next_fault; by rewrite Hw0).
    rewrite replied_reply, replied_store. cbn [fst snd ret]. by rewrite Hw0. }
  destruct (parseTimeoutEvent message) as [event|e].
  - unfold sendNotification, bind. rewrite Hack by done. done.
  - unfold bind, modify. rewrite Hack by done. done.
Qed.

Lemma xack_all_group ids r g :
  groups (streams r !!! TimeoutEventsStream) !! group = Some g →
  let r' := foldl (λ r id, (xack TimeoutEventsStream group id r).2) r ids in
  events r' = events r
  ∧ groups (streams r' !!! TimeoutEventsStream) !! group
    = Some (mkGroup (last_delivered g) (pel g ∖ list_to_set ids))
  ∧ waiting r' = waiting r ∧ states r' = states r ∧ lease r' = lease r.
Proof.
  revert r g. induction ids as [|id ids IH]; intros r g Hg; cbn [foldl].
  - rewrite Hg. repeat split; try done. destruct g as [ld p].
    cbn [last_delivered pel]. by rewrite list_to_set_nil, difference_empty_L.
  - set (r1 := (xack TimeoutEventsStream group id r).2).
    assert (groups (streams r1 !!! TimeoutEventsStream) !! group
            = Some (mkGroup (last_delivered g) (pel g ∖ {[id]}))
            ∧ events r1 = events r ∧ waiting r1 = waiting r ∧ states r1 = states r
            ∧ lease r1 = lease r) as (Hg1 & He1 & Hw1 & Hs1 & Hl1).
    { unfold r1, xack, events. rewrite Hg. cbn [snd streams set_streams].
      rewrite lookup_total_insert_eq. cbn [groups entries].
      by rewrite lookup_insert_eq. }
    destruct (IH r1 _ Hg1) as (He & Hgr & Hw & Hs & Hl).
    rewrite He, Hgr, Hw, Hs, Hl. repeat split; try done.
    cbn [last_delivered pel]. by rewrite list_to_set_cons, difference_difference_l_L.
Qed.

Lemma consume_range msgs w :
  net w = [] →
  rdb (run (for_range msgs (processMessage config)) w)
  = foldl (λ r id, (xack TimeoutEventsStream group id r).2) (rdb w) (ID <$> msgs)
  ∧ net (run (for_range msgs (processMessage config)) w) = [].
Proof.
  revert w. induction msgs as [|m msgs IH]; intros w Hnet; [done|].
  rewrite for_range_cons. destruct (processMessage_healthy m w Hnet) as [Hr Hn].
  destruct (IH _ Hn) as [-> ->]. by rewrite Hr.
Qed.

Lemma consumeMessages_run w g msgs :
  net w = [] →
  groups (streams (rdb w) !!! TimeoutEventsStream) !! group = Some g →
  msgs = take 10 (drop (last_delivered g) (events (rdb w))) →
  run (consumeMessages config) w
  = match msgs with
    | [] => set_net [] w
    | _ =>
        run (for_range msgs (processMessage config))
          (set_net []
             (set_rdb
                (set_streams
                   <[TimeoutEventsStream :=
                       mkStream (events (rdb w))
                         (<[group := mkGroup (last_delivered g + length msgs)
                                       (pel g ∪ list_to_set (ID <$> msgs))]>
                            (groups (streams (rdb w) !!! TimeoutEventsStream)))]>
                   (rdb w)) w))
    end.
Proof.
  intros Hnet Hg Hmsgs.
  unfold run, consumeMessages, consumeMessagesWith, XReadGroup, bind.
  rewrite call_healthy by (unfold next_fault; by rewrite Hnet).
  rewrite (xreadgroup_spec _ _ Hg). rewrite <- Hmsgs, Hnet.
  destruct msgs as [|m ms]; cbn [fst snd failed tail].
  - by rewrite set_rdb_same.
  - cbn [for_range Messages]. unfold bind. fold (processMessage config).
    destruct (processMessage config m _) as [[] w2].
    by destruct (for_range ms _ w2) as [[] w3].
Qed.

(** X11.  A call of [consumeMessages] over a healthy network, with the
    sink of the program, leaves nothing of what it reads pending.  It is
    handed the next entries of the stream that the group has not been
    handed, at most 10 of them; every one of them is acknowledged, whether
    it parses or not; the group's position moves past them, and the stream,
    the waiting index and the notification state are as before. *)
Theorem consumeMessages_acknowledges_all (w : World) (g : Group) :
  let msgs := take 10 (drop (delivered group (rdb w)) (events (rdb w))) in
  let w' := run (consumeMessages config) w in
  net w = [] →
  groups (streams (rdb w) !!! TimeoutEventsStream) !! group = Some g →
  (length msgs ≤ 10)%nat
  ∧ delivered group (rdb w') = (delivered group (rdb w) + length msgs)%nat
  ∧ pending group (rdb w') = pending group (rdb w) ∖ list_to_set (ID <$> msgs)
  ∧ events (rdb w') = events (rdb w)
  ∧ waiting (rdb w') = waiting (rdb w)
  ∧ states (rdb w') = states (rdb w).
Proof.
  intros msgs w' Hnet Hg.
  assert (delivered group (rdb w) = last_delivered g) as Hd
    by (unfold delivered; by rewrite Hg).
  assert (pending group (rdb w) = pel g) as Hp by (unfold pending; by rewrite Hg).
  split; [unfold msgs; rewrite length_take; lia|].
  assert (msgs = take 10 (drop (last_delivered g) (events (rdb w)))) as Hmsgs
    by (unfold msgs; by rewrite Hd).
  pose proof (consumeMessages_run w g msgs Hnet Hg Hmsgs) as Hrun. fold w' in Hrun.
  clearbody msgs w'. clear Hmsgs. rewrite Hrun, Hd, Hp.
  destruct (decide (msgs = [])) as [-> | Hne].
  - cbn [rdb set_net length fmap list_fmap list_to_set]. rewrite Nat.add_0_r.
    unfold delivered, pending. rewrite Hg, difference_empty_L.
    by repeat split.
  - set (r1 := set_streams _ (rdb w)).
    assert (run (for_range msgs (processMessage config)) (set_net [] (set_rdb r1 w))
            = match msgs with
              | [] => set_net [] w
              | _ => run (for_range msgs (processMessage config))
                       (set_net [] (set_rdb r1 w))
              end) as <- by by destruct msgs.
    destruct (consume_range msgs (set_net [] (set_rdb r1 w))) as [-> _]; [done|].
    destruct (xack_all_group (ID <$> msgs) r1
                (mkGroup (last_delivered g + length msgs)
                   (pel g ∪ list_to_set (ID <$> msgs))))
      as (He & Hgr & Hw & Hs & _).
    { unfold r1. cbn [streams set_streams].
      rewrite lookup_total_insert_eq. cbn [groups]. by rewrite lookup_insert_eq. }
    cbn [rdb set_net set_rdb]. unfold delivered, pending.
    rewrite He, Hgr, Hw, Hs. cbn [fmap option_fmap option_map default last_delivered pel].
    split; [done|].
    split.
    { by rewrite difference_union_distr_l_L, difference_diag_L, union_empty_r_L. }
    split; [|done].
    unfold r1, events. cbn [streams set_streams].
    by rewrite lookup_total_insert_eq.
Qed.

End consumer_group.

(** The consumer takes a published event and a poison pill in one call. *)
Lemma consumeMessages_acknowledges_all_witness :
  delivered "timeout-processors"
    (rdb (run (StreamConsumer.consumeMessages config_a) unread_world)) = 2%nat
  ∧ pending "timeout-processors"
      (rdb (run (StreamConsumer.consumeMessages config_a) unread_world)) = ∅.
Proof.
  destruct (consumeMessages_acknowledges_all config_a unread_world (mkGroup 0 ∅))
    as (_ & H1 & H2 & _).
  - reflexivity.
  - vm_compute. reflexivity.
  - split; [exact H1|]. etrans; [exact H2|]. vm_compute. reflexivity.
Defined.

(** ** Each level once *)

Lemma currentLevelOf_itoa z : in_int64 z = true → currentLevelOf (itoa z) = z.
Proof.
  intros Hz. unfold currentLevelOf. pose proof (Atoi_itoa z Hz) as H. rewrite H.
  destruct (String.eqb_spec (itoa z) "") as [Hempty|]; [|done].
  by rewrite Hempty in H.
Qed.

(** Once the due level is the stored one, nothing is due at that wait. *)
Lemma dueLevel_settled wait N cur lvl :
  dueLevel wait N cur = Some lvl → dueLevel wait N lvl = None.
Proof.
  intros H. pose proof (dueLevel_above _ _ _ _ H) as Habove.
  destruct (dueLevel_levels _ _ _ _ H) as [-> | [-> | ->]];
    unfold dueLevel in *; cbn [Z.ltb Z.compare Pos.compare Pos.compare_cont andb] in *;
    rewrite ?andb_false_r in *; cbn [andb] in *.
  - destruct (cur <? 3) eqn:H3; [|apply Z.ltb_ge in H3; lia].
    destruct (cur <? 2) eqn:H2; [|apply Z.ltb_ge in H2; lia].
    rewrite !andb_true_r in H.
    destruct (wait >? mul64 N 3); [done|]. by destruct (wait >? mul64 N 2).
  - destruct (cur <? 3) eqn:H3; [|apply Z.ltb_ge in H3; lia].
    rewrite !andb_true_r in *. by destruct (wait >? mul64 N 3).
  - done.
Qed.

Section each_level_once.

Import StreamProducer.

Variable json_Marshal : TimeoutEvent.t → option string.
Variable config : Config.

#[local] Abbreviation process := (processTimeoutDetection json_Marshal config).

(** X12.  A level is published once.  After a step has published the due
    level of a conversation and recorded it over healthy round trips, the
    detectors read that level; nothing is due for the conversation at the
    same time; a second step for it at that time, by any replica that sees
    this store and whatever the network does, appends nothing and writes
    nothing; and whatever is due for it at any later time is a higher
    level. *)
Theorem escalation_is_published_once c s now w lvl data :
  let w1 := run (process c s now) w in
  healthy 3 w →
  due config c s now (rdb w) = Some lvl →
  json_Marshal (TimeoutEvent.mk c lvl s (now_ms w) 1) = Some data →
  storedLevel (rdb w1) c = lvl
  ∧ due config c s now (rdb w1) = None
  ∧ (∀ w2, rdb w2 = rdb w1 → rdb (run (process c s now) w2) = rdb w1)
  ∧ (∀ now' lvl', due config c s now' (rdb w1) = Some lvl' → lvl < lvl').
Proof.
  intros w1 Hh Hdue Hdata.
  assert (storedLevel (rdb w1) c = lvl) as Hlvl.
  { unfold w1. rewrite (processTimeoutDetection_healthy _ _ _ _ _ _ _ _ Hh Hdue Hdata).
    unfold storedLevel, store_after.
    cbn [TimeoutEvent.ConversationID TimeoutEvent.Level].
    rewrite states_hset, lookup_insert_eq. cbn [default].
    apply currentLevelOf_itoa, in_int64_level. by eapply dueLevel_levels. }
  assert (due config c s now (rdb w1) = None) as Hsettled.
  { unfold due in *. rewrite Hlvl. by eapply dueLevel_settled. }
  split; [done|]. split; [done|]. split.
  - intros w2 Hw2. rewrite processTimeoutDetection_not_due; by rewrite Hw2.
  - intros now' lvl' Hdue'. unfold due in Hdue'. rewrite Hlvl in Hdue'.
    by eapply dueLevel_above.
Qed.

(** ** What a detection pass appends is never a poison pill *)

Lemma clock_call {A} (zero : A) op w :
  now_ms (call zero op w).2 = now_ms w ∧ later (call zero op w).2 = later w.
Proof. by destruct (call_cases zero op w) as [-> | [-> | ->]]. Qed.

Lemma clock_ok_advance w : clock_ok w → clock_ok (advance w).
Proof.
  unfold clock_ok, advance. intros [Hnow Hlater].
  destruct (later w) as [|t ts] eqn:E; [by rewrite E|]. cbn.
  by apply Forall_cons in Hlater.
Qed.

Lemma clock_ok_same w w' :
  now_ms w' = now_ms w → later w' = later w → clock_ok w → clock_ok w'.
Proof. unfold clock_ok. by intros -> ->. Qed.

Lemma step_clock_ok c s now w : clock_ok w → clock_ok (run (process c s now) w).
Proof.
  intros Hw. unfold run, processTimeoutDetection, bind, HGet.
  match goal with
  | |- context [call ?z ?op ?w0] =>
      destruct (clock_call z op w0) as [Hn Hl];
      destruct (call z op w0) as [[currentLevelStr err] w1]
  end.
  cbn [fst snd] in *.
  assert (clock_ok w1) as Hw1 by by eapply clock_ok_same.
  destruct (failed err && negb (is_Nil err)); [done|].
  destruct (dueLevel _ _ _) as [lvl|]; [|done].
  unfold publishTimeoutEvent, bind, time_Now.
  pose proof (clock_ok_advance _ Hw1) as Hw2.
  destruct (json_Marshal _) as [eventData|]; [|done].
  unfold XAdd.
  match goal with
  | |- context [call ?z ?op ?w0] =>
      destruct (clock_call z op w0) as [Hn3 Hl3];
      destruct (call z op w0) as [[messageID err3] w3]
  end.
  cbn [fst snd] in *.
  assert (clock_ok w3) as Hw3 by by eapply clock_ok_same.
  destruct err3; [done|]. cbn [ret fst snd]. unfold HSet.
  match goal with
  | |- context [call ?z ?op ?w0] =>
      destruct (clock_call z op w0) as [Hn4 Hl4];
      destruct (call z op w0) as [[n4 err4] w4]
  end.
  cbn [fst snd] in *. by eapply clock_ok_same.
Qed.

Lemma pass_events_parse cs now w :
  clock_ok w →
  Forall (λ conv, in_int64 (Score conv) = true) cs →
  ∃ new,
    events (rdb (run (for_range cs
                        (λ conv, process (Member conv) (Score conv) now)) w))
    = events (rdb w) ++ new
    ∧ Forall (λ m, ∃ event, carries m event
                            ∧ StreamConsumer.parseTimeoutEvent m = inl event) new.
Proof.
  revert w. induction cs as [|conv cs IH]; intros w Hw Hcs.
  - exists []. by rewrite for_range_nil, app_nil_r.
  - apply Forall_cons in Hcs as [Hconv Hcs]. rewrite for_range_cons.
    destruct (IH (run (process (Member conv) (Score conv) now) w))
      as (new2 & -> & Hnew2); [by apply step_clock_ok|done|].
    destruct (step_events json_Marshal config (Member conv) (Score conv) now w)
      as (new1 & -> & Hnew1).
    exists (new1 ++ new2). split; [by rewrite app_assoc|].
    apply Forall_app. split; [|done].
    destruct Hnew1 as [-> | (m & lvl & -> & Hm & Hdue)]; [done|].
    apply Forall_singleton. eexists. split; [done|].
    apply parse_carried; [done| |done| |done].
    + apply in_int64_level. by eapply dueLevel_levels.
    + apply Hw.
Qed.

(** X13.  Whatever the network does, every entry that a detection pass
    appends to the event stream is one that [parseTimeoutEvent] accepts,
    and it parses to the event whose fields were sent: what the producer
    writes is never a poison pill for the consumer.  The readings of the
    clock are [int64] values. *)
Theorem published_entries_parse (w : World) :
  clock_ok w →
  ∃ new,
    events (rdb (run (detectAndPublishTimeouts json_Marshal config) w))
    = events (rdb w) ++ new
    ∧ Forall (λ m, ∃ event, carries m event
                            ∧ StreamConsumer.parseTimeoutEvent m = inl event) new.
Proof.
  intros Hw.
  unfold run, detectAndPublishTimeouts, bind, time_Now, ZRangeByScoreWithScores.
  match goal with
  | |- context [call ?z ?op ?w0] =>
      pose proof (clock_call z op w0) as [Hn Hl];
      destruct (call_cases z op w0) as [Hc | [Hc | Hc]]; rewrite Hc in Hn, Hl |- *
  end; cbn [fst snd] in *; rewrite ?rdb_advance;
    try (exists []; rewrite app_nil_r; cbn; by rewrite ?rdb_advance).
  rewrite replied_reply. cbn [fst snd]. unfold modify, bind.
  match goal with
  | |- context [for_range ?cs ?b ?w0] =>
      change ((for_range cs b w0).2) with (run (for_range cs b) w0);
      destruct (pass_events_parse cs (now_ms w) w0) as (new & -> & Hnew)
  end.
  - eapply clock_ok_same; [| |by apply (clock_ok_advance w)]; done.
  - apply Forall_forall. intros conv Hconv.
    apply zrangebyscore_elem in Hconv as [_ [Hlo Hhi]].
    destruct Hw as [Hnow _]. apply in_int64_spec in Hnow. apply in_int64_spec.
    unfold min_int64 in *. lia.
  - exists new. split; [|done]. cbn [rdb set_metrics set_net set_rdb].
    by rewrite replied_store.
Qed.

End each_level_once.

Lemma escalation_is_published_once_witness :
  storedLevel
    (rdb (run (StreamProducer.processTimeoutDetection json_stub config_a "convA" 0 2001)
            (scenario_A 2001))) "convA" = 2
  ∧ due config_a "convA" 0 2001
      (rdb (run (StreamProducer.processTimeoutDetection json_stub config_a "convA" 0 2001)
              (scenario_A 2001))) = None.
Proof.
  destruct (escalation_is_published_once json_stub config_a "convA" 0 2001
              (scenario_A 2001) 2 "{}") as (H1 & H2 & _).
  - apply Forall_nil_2.
  - vm_compute. reflexivity.
  - reflexivity.
  - exact (conj H1 H2).
Defined.

Lemma published_entries_parse_witness :
  ∃ new,
    events (rdb (run (StreamProducer.detectAndPublishTimeouts json_stub config_a)
                   (world_at two_waiting 3001)))
    = events (rdb (world_at two_waiting 3001)) ++ new
    ∧ Forall (λ m, ∃ event, carries m event
                            ∧ StreamConsumer.parseTimeoutEvent m = inl event) new.
Proof.
  apply (published_entries_parse json_stub config_a (world_at two_waiting 3001)).
  split; [reflexivity|apply Forall_nil_2].
Defined.

(** ** A checking pass of phase 1 *)

Section phase1_pass.

Import LeaderElection.

Variable config : Config.

Lemma pass_notified cs now w :
  ∃ new,
    notified (run (for_range cs
                     (λ conv, processConversationTimeout config
                                (Member conv) (Score conv) now)) w)
    = notified w ++ new
    ∧ Forall (λ event, ∃ conv cur,
                conv ∈ cs
                ∧ TimeoutEvent.ConversationID event = Member conv
                ∧ TimeoutEvent.AgentMessageTime event = Score conv
                ∧ TimeoutEvent.Attempt event = 1
                ∧ dueLevel (sub64 now (Score conv)) (TimeoutIntervalMS config) cur
                  = Some (TimeoutEvent.Level event)) new.
Proof.
  revert w. induction cs as [|conv cs IH]; intros w.
  - exists []. by rewrite for_range_nil, app_nil_r.
  - rewrite for_range_cons.
    destruct (IH (run (processConversationTimeout config (Member conv) (Score conv) now) w))
      as (new2 & -> & Hnew2).
    assert (∃ new1,
              notified (run (processConversationTimeout config
                               (Member conv) (Score conv) now) w)
              = notified w ++ new1
              ∧ Forall (λ event, ∃ conv0 cur,
                          conv0 ∈ conv :: cs
                          ∧ TimeoutEvent.ConversationID event = Member conv0
                          ∧ TimeoutEvent.AgentMessageTime event = Score conv0
                          ∧ TimeoutEvent.Attempt event = 1
                          ∧ dueLevel (sub64 now (Score conv0)) (TimeoutIntervalMS config) cur
                            = Some (TimeoutEvent.Level event)) new1)
      as (new1 & -> & Hnew1).
    { destruct (processConversationTimeout_notified config (Member conv) (Score conv) now w)
        as [-> | (lvl & Hdue & ->)].
      - exists []. by rewrite app_nil_r.
      - eexists. split; [done|]. apply Forall_singleton.
        exists conv, (storedLevel (rdb w) (Member conv)).
        split; [by apply elem_of_cons; left|done]. }
    exists (new1 ++ new2). split; [by rewrite app_assoc|].
    apply Forall_app. split; [done|].
    eapply Forall_impl; [done|]. cbn beta.
    intros event (conv' & cur & ? & ?). exists conv', cur.
    split; [by apply elem_of_cons; right|done].
Qed.

(** X14.  The checking loop of phase 1 goes by the replica's flag: with
    the flag unset a tick does nothing at all.  Whatever the network does,
    every notification that a tick hands out is due: it is for a
    conversation of the waiting index, carries its time of writing, a level
    among 1, 2 and 3 and attempt 1, and the wait of the conversation at the
    time of the tick exceeds that level times the base interval [N] (for an
    [N] whose triple fits in an [int64], and a clock reading that is an
    [int64]). *)
Theorem phase1_notifications_are_due (w : World) :
  let N := TimeoutIntervalMS config in
  let now := now_ms w in
  let w' := run (timeoutCheckTick config) w in
  min_int64 ≤ 3 * N ≤ max_int64 →
  min_int64 ≤ now ≤ max_int64 →
  (isLeader w = false → w' = w)
  ∧ ∃ new,
      notified w' = notified w ++ new
      ∧ Forall (λ event,
                  waiting (rdb w) !! TimeoutEvent.ConversationID event
                  = Some (TimeoutEvent.AgentMessageTime event)
                  ∧ (TimeoutEvent.Level event = 1 ∨ TimeoutEvent.Level event = 2
                     ∨ TimeoutEvent.Level event = 3)
                  ∧ TimeoutEvent.Attempt event = 1
                  ∧ now - TimeoutEvent.AgentMessageTime event
                    > TimeoutEvent.Level event * N) new.
Proof.
  intros N now w' HN Hnow. subst w'.
  unfold run, timeoutCheckTick, gets, bind. cbn [fst snd].
  destruct (isLeader w) eqn:Hlead; [|split; [done|]; exists []; by rewrite app_nil_r].
  split; [done|].
  unfold checkTimeouts, bind, time_Now, ZRangeByScoreWithScores.
  match goal with
  | |- context [call ?z ?op ?w0] =>
      destruct (call_cases z op w0) as [-> | [-> | ->]]
  end; cbn [fst snd]; try (exists []; rewrite app_nil_r; cbn; by rewrite notified_advance).
  rewrite replied_reply. cbn [fst snd]. unfold modify, bind.
  match goal with
  | |- context [for_range ?cs ?b ?w0] =>
      change ((for_range cs b w0).2) with (run (for_range cs b) w0);
      destruct (pass_notified cs (now_ms w) w0) as (new & -> & Hnew)
  end.
  exists new. split; [cbn; by rewrite notified_advance|].
  eapply Forall_impl; [done|]. cbn beta.
  intros event (conv & cur & Hin & Hc & Hs & Ha & Hdue).
  apply zrangebyscore_elem in Hin as [Hin Hrange]. rewrite rdb_advance in Hin.
  rewrite Hc, Hs. split; [done|].
  split; [by eapply dueLevel_levels|]. split; [done|].
  rewrite dueLevel_exact in Hdue by done.
  unfold sub64 in Hdue. rewrite wrap64_exact in Hdue
    by (unfold min_int64, max_int64 in *; fold now; lia).
  fold N now in Hdue. repeat case_decide; simplify_eq; lia.
Qed.

End phase1_pass.

Lemma phase1_notifications_are_due_witness :
  ∃ new,
    notified (run (LeaderElection.timeoutCheckTick config_a)
                (set_isLeader true (world_at two_waiting 3001)))
    = new
    ∧ Forall (λ event, 3001 - TimeoutEvent.AgentMessageTime event
                       > TimeoutEvent.Level event * 1000) new.
Proof.
  destruct (phase1_notifications_are_due config_a
              (set_isLeader true (world_at two_waiting 3001)))
    as (_ & new & Hnew & Hdue).
  - vm_compute. split; discriminate.
  - vm_compute. split; discriminate.
  - exists new. split; [exact Hnew|].
    eapply Forall_impl; [exact Hdue|]. intros event (_ & _ & _ & H). exact H.
Defined.

(** Phase 1 at 2001 ms of waiting: level 2 is handed out, not level 1. *)
Lemma phase1_thresholds_witness :
  notified (run (LeaderElection.processConversationTimeout config_a "convA" 0 2001)
              (scenario_A 2001))
  = notified (scenario_A 2001) ++ [TimeoutEvent.mk "convA" 2 0 2001 1].
Proof.
  destruct (phase1_thresholds config_a "convA" 0 2001 (scenario_A 2001))
    as (_ & _ & H & _).
  - reflexivity.
  - vm_compute. discriminate.
  - vm_compute. reflexivity.
  - apply Forall_nil_2.
  - apply H. vm_compute. reflexivity.
Defined.

(** ** The thresholds of package [constants] *)

Lemma GetTimeoutThresholdMS_levels N :
  in_int64 N = true →
  constants.GetTimeoutThresholdMS N 1 = N
  ∧ constants.GetTimeoutThresholdMS N 2 = mul64 N 2
  ∧ constants.GetTimeoutThresholdMS N 3 = mul64 N 3.
Proof.
  intros HN%in_int64_spec. unfold constants.GetTimeoutThresholdMS. cbn.
  split; [|done]. unfold mul64. rewrite Z.mul_1_r. by apply wrap64_exact.
Qed.

(** X16.  The detectors escalate to the highest level whose threshold, as
    [GetTimeoutThresholdMS] of package [constants] gives it, the wait
    exceeds and which lies above the current level: the comparisons written
    out in the detectors and the multipliers of the constants agree, also
    where the multiplication wraps around. *)
Theorem dueLevel_is_highest_exceeded (wait N cur lvl : Z) :
  let exceeded l := wait > constants.GetTimeoutThresholdMS N l ∧ cur < l in
  in_int64 N = true →
  dueLevel wait N cur = Some lvl
  ↔ (lvl = 1 ∨ lvl = 2 ∨ lvl = 3)
    ∧ exceeded lvl
    ∧ ∀ l, (l = 1 ∨ l = 2 ∨ l = 3) → lvl < l → ¬ exceeded l.
Proof.
  intros exceeded HN. subst exceeded. cbn beta.
  destruct (GetTimeoutThresholdMS_levels N HN) as (H1 & H2 & H3).
  unfold dueLevel. rewrite !Z.gtb_ltb.
  set (a2 := mul64 N 2) in *. set (a3 := mul64 N 3) in *.
  destruct (Z.ltb_spec a3 wait), (Z.ltb_spec cur 3), (Z.ltb_spec a2 wait),
    (Z.ltb_spec cur 2), (Z.ltb_spec N wait), (Z.ltb_spec cur 1); cbn [andb];
    (split;
     [ intros [= <-]; rewrite ?H1, ?H2, ?H3;
       (split; [auto|]); (split; [lia|]);
       intros l [-> | [-> | ->]] Hl; rewrite ?H1, ?H2, ?H3; lia
     | intros ([-> | [-> | ->]] & Hex & Hmax); rewrite ?H1, ?H2, ?H3 in Hex;
       try lia; try done;
       try (exfalso; apply (Hmax 3); [auto|lia|rewrite H3; lia]);
       try (exfalso; apply (Hmax 2); [auto|lia|rewrite H2; lia]) ]).
Qed.

Lemma dueLevel_is_highest_exceeded_witness :
  dueLevel 2001 1000 0 = Some 2
  ↔ (2 = 1 ∨ 2 = 2 ∨ 2 = 3)
    ∧ (2001 > constants.GetTimeoutThresholdMS 1000 2 ∧ 0 < 2)
    ∧ ∀ l, (l = 1 ∨ l = 2 ∨ l = 3) → 2 < l →
           ¬ (2001 > constants.GetTimeoutThresholdMS 1000 l ∧ 0 < l).
Proof. apply (dueLevel_is_highest_exceeded 2001 1000 0 2). reflexivity. Defined.

(** ** The environment *)

Lemma ParseInt_empty : ParseInt "" = None.
Proof. done. Qed.

Lemma getEnvInt64_parse env key d :
  config_pkg.getEnvInt64 env key d
  = default d (ParseInt (config_pkg.os_Getenv env key)).
Proof.
  unfold config_pkg.getEnvInt64.
  destruct (String.eqb_spec (config_pkg.os_Getenv env key) "") as [-> |]; [done|].
  cbn [negb]. by destruct (ParseInt _).
Qed.

Lemma getEnvInt_parse env key d :
  config_pkg.getEnvInt env key d
  = default d (Atoi (config_pkg.os_Getenv env key)).
Proof.
  unfold config_pkg.getEnvInt.
  destruct (String.eqb_spec (config_pkg.os_Getenv env key) "") as [-> |]; [done|].
  cbn [negb]. by destruct (Atoi _).
Qed.

(** X17.  [Load] takes the numbers of the environment as they stand: a
    variable that holds the decimal text of an [int64] gives that number,
    be it zero or negative, without any check of its sign; a variable that
    is unset, empty or no decimal [int64] gives the default (30000 ms
    for the base interval, 1000 ms for the check interval, 10 s for the
    lease).  The consumer group is never the empty name, and the replica's
    identifier is the generated one exactly when [POD_ID] is unset or
    empty. *)
Theorem Load_takes_numbers_as_they_stand (env : gmap string string) (generated : string) :
  let config := config_pkg.Load env generated in
  (∀ z, in_int64 z = true →
        (env !! "TIMEOUT_INTERVAL_MS" = Some (itoa z) → TimeoutIntervalMS config = z)
        ∧ (env !! "CHECK_INTERVAL_MS" = Some (itoa z) → CheckIntervalMS config = z)
        ∧ (env !! "LEADER_ELECTION_TTL" = Some (itoa z) → LeaderElectionTTL config = z))
  ∧ (ParseInt (default "" (env !! "TIMEOUT_INTERVAL_MS")) = None →
     TimeoutIntervalMS config = 30000)
  ∧ (ParseInt (default "" (env !! "CHECK_INTERVAL_MS")) = None →
     CheckIntervalMS config = 1000)
  ∧ (Atoi (default "" (env !! "LEADER_ELECTION_TTL")) = None →
     LeaderElectionTTL config = 10)
  ∧ ConsumerGroupName config ≠ ""
  ∧ PodID config
    = match env !! "POD_ID" with
      | Some (String a v) => String a v
      | _ => generated
      end.
Proof.
  intros config. subst config. unfold config_pkg.Load.
  cbn [TimeoutIntervalMS CheckIntervalMS LeaderElectionTTL PodID ConsumerGroupName].
  rewrite !getEnvInt64_parse, ?getEnvInt_parse. unfold config_pkg.os_Getenv, Atoi.
  split; [|split; [|split; [|split; [|split]]]].
  - intros z Hz. pose proof (Atoi_itoa z Hz) as Hparse. unfold Atoi in Hparse.
    repeat split; intros ->; cbn [default id]; by rewrite Hparse.
  - by intros ->.
  - by intros ->.
  - by intros ->.
  - unfold config_pkg.getEnv, config_pkg.os_Getenv.
    destruct (env !! "CONSUMER_GROUP_NAME") as [[|a v]|]; done.
  - unfold config_pkg.getEnv, config_pkg.os_Getenv.
    by destruct (env !! "POD_ID") as [[|a v]|].
Qed.

(** ** The HTTP handlers *)

Section handlers.

Import phase2_Service.

Lemma orNow_run timestamp w :
  orNow timestamp w
  = (default (now_ms w) timestamp,
     match timestamp with Some _ => w | None => advance w end).
Proof. by destruct timestamp. Qed.

Lemma orNow_view timestamp w :
  rdb (orNow timestamp w).2 = rdb w
  ∧ next_fault (orNow timestamp w).2 = next_fault w.
Proof.
  rewrite orNow_run. destruct timestamp; cbn [snd]; [done|].
  by rewrite rdb_advance, next_fault_advance.
Qed.

Lemma Exec_faulty pipe w f :
  next_fault w = Some f →
  (Exec pipe w).1 = (tt, Some io_error)
  ∧ rdb (Exec pipe w).2
    = match f with
      | RequestLost => rdb w
      | ReplyLost => foldl (λ r c, run_cmd c r) (rdb w) pipe
      end.
Proof.
  intros Hf. unfold Exec. destruct f.
  - by rewrite call_request_lost.
  - rewrite call_reply_lost by done. by rewrite replied_store.
Qed.

Lemma GetWaitingConversationsCount_run w :
  TimeoutManager.GetWaitingConversationsCount w
  = (match next_fault w with
     | None => (Z.of_nat (size (waiting (rdb w))), None)
     | Some _ => (0, Some (wrapf "failed to get waiting conversations count" io_error))
     end,
     set_net (tail (net w)) w).
Proof.
  unfold TimeoutManager.GetWaitingConversationsCount, bind.
  destruct (ZCard_cases w) as [Hw [[Hf Hr] | [Hf Hr]]];
    destruct (ZCard WaitingConversationsKey w) as [[n e] w1];
    cbn [fst snd] in *; subst w1; injection Hr as -> ->.
  - by rewrite Hf.
  - by destruct (next_fault w).
Qed.

(** X18.  [handleAgentMessage] answers 400 exactly when the route has no
    conversation id or the body does not decode, and then it sends nothing
    to the store and does not read the clock.  Otherwise it tracks the
    conversation at the timestamp of the request, or at the time of the
    call when the request has none: over a healthy round trip it answers
    200 with that time, the waiting index maps the conversation to it and
    the notification state has no entry for it; when the round trip fails
    it answers 500, and when only the reply was lost the conversation is
    tracked all the same. *)
Theorem handleAgentMessage_outcomes (id : string) (decoded : option AgentRequest.t)
    (w : World) :
  let resp := result (handleAgentMessage id decoded) w in
  let w' := run (handleAgentMessage id decoded) w in
  (StatusCode resp = 400 ↔ id = "" ∨ decoded = None)
  ∧ (StatusCode resp = 400 → w' = w)
  ∧ (∀ request,
       id ≠ "" → decoded = Some request →
       let t := default (now_ms w) (AgentRequest.Timestamp request) in
       (next_fault w = None →
        resp = mkResponse 200 (Tracked id t)
        ∧ waiting (rdb w') !! id = Some t ∧ states (rdb w') !! id = None)
       ∧ (next_fault w ≠ None → resp = http_Error "Internal server error" 500)
       ∧ (next_fault w = Some RequestLost → rdb w' = rdb w)
       ∧ (next_fault w = Some ReplyLost →
          waiting (rdb w') !! id = Some t ∧ states (rdb w') !! id = None)).
Proof.
  intros resp w'. subst resp w'. unfold result, run, handleAgentMessage.
  destruct (String.eqb_spec id "") as [-> | Hid].
  { cbn. split; [|split]; [by split; auto|done|]. by intros request []. }
  destruct decoded as [request|].
  2:{ cbn. split; [|split]; [by split; auto|done|]. by intros request _ [=]. }
  unfold bind. rewrite orNow_run.
  destruct (orNow_view (AgentRequest.Timestamp request) w) as [Hr Hf].
  rewrite orNow_run in Hr, Hf. cbn [snd] in Hr, Hf.
  set (w1 := match AgentRequest.Timestamp request with Some _ => w | None => advance w end)
    in *.
  set (t := default (now_ms w) (AgentRequest.Timestamp request)).
  unfold TimeoutManager.TrackAgentMessage, bind.
  cbn [AgentMessage.ConversationID AgentMessage.Timestamp].
  assert (∀ r, r = foldl (λ r c, run_cmd c r) (rdb w1)
                     [ZAdd WaitingConversationsKey (mkZ t id); HDel NotificationStatesKey id] →
               waiting r !! id = Some t ∧ states r !! id = None) as Htracked.
  { intros r ->. cbn [foldl run_cmd].
    rewrite waiting_hdel, states_hdel, waiting_zadd. cbn [Member Score].
    by rewrite lookup_insert_eq, lookup_delete_eq. }
  destruct (next_fault w) as [f|] eqn:Hfw.
  - destruct (Exec_faulty
                [ZAdd WaitingConversationsKey (mkZ t id); HDel NotificationStatesKey id]
                w1 f Hf) as [Hres Hstore].
    destruct (Exec _ w1) as [[[] err] w2]. cbn [fst snd] in *.
    injection Hres as ->. cbn [fst snd ret StatusCode http_Error].
    split; [|split]; [split; [done|by intros [|]]|done|].
    intros request' _ [= <-]. cbn zeta. fold t.
    split; [done|]. split; [done|]. split.
    + intros [= ->]. by rewrite Hstore.
    + intros [= ->]. by apply Htracked.
  - rewrite Exec_run_healthy by done. cbn [fst snd ret StatusCode].
    split; [|split]; [split; [done|by intros [|]]|done|].
    intros request' _ [= <-]. cbn zeta. fold t.
    split; [|done]. intros _. split; [done|].
    cbn [rdb set_net set_rdb]. by apply Htracked.
Qed.

(** X19.  [handleCustomerResponse] answers 400 exactly when the route has
    no conversation id or the body does not decode, and then sends nothing
    to the store.  Otherwise, over a healthy round trip, it answers 200 and
    the conversation is in neither the waiting index nor the notification
    state, whatever the timestamp of the request, be it older than the
    agent message it answers; the timestamp only appears in the answer.
    When the round trip fails it answers 500. *)
Theorem handleCustomerResponse_outcomes (id : string)
    (decoded : option CustomerRequest.t) (w : World) :
  let resp := result (handleCustomerResponse id decoded) w in
  let w' := run (handleCustomerResponse id decoded) w in
  (StatusCode resp = 400 ↔ id = "" ∨ decoded = None)
  ∧ (StatusCode resp = 400 → w' = w)
  ∧ (∀ request,
       id ≠ "" → decoded = Some request →
       (next_fault w = None →
        resp = mkResponse 200
                 (Cleared id (default (now_ms w) (CustomerRequest.Timestamp request)))
        ∧ waiting (rdb w') = delete id (waiting (rdb w))
        ∧ states (rdb w') = delete id (states (rdb w)))
       ∧ (next_fault w ≠ None → resp = http_Error "Internal server error" 500)
       ∧ (next_fault w = Some RequestLost → rdb w' = rdb w)).
Proof.
  intros resp w'. subst resp w'. unfold result, run, handleCustomerResponse.
  destruct (String.eqb_spec id "") as [-> | Hid].
  { cbn. split; [|split]; [by split; auto|done|]. by intros request []. }
  destruct decoded as [request|].
  2:{ cbn. split; [|split]; [by split; auto|done|]. by intros request _ [=]. }
  unfold bind. rewrite orNow_run.
  destruct (orNow_view (CustomerRequest.Timestamp request) w) as [Hr Hf].
  rewrite orNow_run in Hr, Hf. cbn [snd] in Hr, Hf.
  set (w1 := match CustomerRequest.Timestamp request with Some _ => w | None => advance w end)
    in *.
  unfold TimeoutManager.ClearTimeout, bind.
  cbn [CustomerResponse.ConversationID].
  destruct (next_fault w) as [f|] eqn:Hfw.
  - destruct (Exec_faulty
                [ZRem WaitingConversationsKey id; HDel NotificationStatesKey id]
                w1 f Hf) as [Hres Hstore].
    destruct (Exec _ w1) as [[[] err] w2]. cbn [fst snd] in *.
    injection Hres as ->. cbn [fst snd ret StatusCode http_Error].
    split; [|split]; [split; [done|by intros [|]]|done|].
    intros request' _ [= <-].
    split; [done|]. split; [done|]. intros [= ->]. by rewrite Hstore.
  - rewrite Exec_run_healthy by done. cbn [fst snd ret StatusCode].
    split; [|split]; [split; [done|by intros [|]]|done|].
    intros request' _ [= <-].
    split; [|done]. intros _. split; [done|].
    cbn [rdb set_net set_rdb foldl run_cmd].
    by rewrite waiting_hdel, states_hdel, waiting_zrem, states_zrem, Hr.
Qed.

Variable config : Config.

(** X20.  [handleHealth] and [handleStatus] never change the store.  They
    fail (503 for health, 500 for status) exactly when the count of the
    waiting index cannot be read, and then the replica's flag is as it was.
    Otherwise they answer 200 with the size of the waiting index and with
    the answer of [IsLeader], which is [true] only when the lease names this
    replica, and the replica's flag is set to that answer: a request to
    either endpoint brings the flag in line with the store. *)
Theorem health_and_status_report (w : World) :
  let report (handler : M Response) (failure : Response) (body : bool → Z → Z → Body) :=
    rdb (run handler w) = rdb w
    ∧ (next_fault w ≠ None →
       result handler w = failure ∧ isLeader (run handler w) = isLeader w)
    ∧ (next_fault w = None →
       StatusCode (result handler w) = 200
       ∧ ∃ leader now,
           Payload (result handler w)
           = body leader (Z.of_nat (size (waiting (rdb w)))) now
           ∧ isLeader (run handler w) = leader
           ∧ (leader = true → ∃ ttl, lease (rdb w) = Some (PodID config, ttl))) in
  report (handleHealth config) (http_Error "Health check failed" 503) Health
  ∧ report (handleStatus config) (http_Error "Failed to get status" 500)
      (Status (PodID config)).
Proof.
  intros report. subst report. cbn beta.
  assert (∀ (body : bool → Z → Z → Body) (failure : Response),
            let handler :=
              let* (count, err) := TimeoutManager.GetWaitingConversationsCount in
              match err with
              | Some _ => ret failure
              | None =>
                  let* leader := LeaderElection.IsLeader config in
                  let* now := time_Now in
                  ret (mkResponse StatusOK (body leader count now))
              end in
            rdb (run handler w) = rdb w
            ∧ (next_fault w ≠ None →
               result handler w = failure ∧ isLeader (run handler w) = isLeader w)
            ∧ (next_fault w = None →
               StatusCode (result handler w) = 200
               ∧ ∃ leader now,
                   Payload (result handler w)
                   = body leader (Z.of_nat (size (waiting (rdb w)))) now
                   ∧ isLeader (run handler w) = leader
                   ∧ (leader = true → ∃ ttl, lease (rdb w) = Some (PodID config, ttl))))
    as Hboth.
  { intros body failure handler. subst handler. unfold result, run, bind.
    rewrite GetWaitingConversationsCount_run.
    destruct (next_fault w) as [f|] eqn:Hf; cbn [ret fst snd].
    - cbn. split; [done|]. split; [done|]. by intros ?.
    - destruct (IsLeader_run config (set_net (tail (net w)) w)) as (b & -> & Htrue & _).
      unfold time_Now. cbn [fst snd ret StatusCode Payload].
      rewrite rdb_advance. unfold advance. cbn [later set_isLeader set_net].
      split; [done|]. split; [done|].
      intros _. split; [done|]. exists b, (now_ms w).
      split; [done|]. split; [by destruct (later w)|done]. }
  split.
  - apply (Hboth Health).
  - apply (Hboth (Status (PodID config))).
Qed.

End handlers.

(** ** Creating the consumer group *)

Section group_creation.

Import StreamProducer StreamConsumer.

Variable config : Config.

#[local] Abbreviation group := (ConsumerGroupName config).

Lemma createConsumerGroup_run w :
  next_fault w = None →
  createConsumerGroup config w
  = (None,
     set_net (tail (net w))
       (set_rdb
          (match groups (streams (rdb w) !!! TimeoutEventsStream) !! group with
           | Some _ => rdb w
           | None =>
               set_streams
                 <[TimeoutEventsStream :=
                     mkStream (events (rdb w))
                       (<[group := mkGroup (length (events (rdb w))) ∅]>
                          (groups (streams (rdb w) !!! TimeoutEventsStream)))]> (rdb w)
           end) w)).
Proof.
  intros Hf. unfold createConsumerGroup, XGroupCreateMkStream, bind.
  rewrite call_healthy by done. unfold xgroup_create_mkstream, events.
  destruct (groups (streams (rdb w) !!! TimeoutEventsStream) !! group) as [g|];
    cbn [fst snd]; [|done].
  by rewrite bool_decide_eq_true_2.
Qed.

Lemma events_xgroup_create name r :
  events (xgroup_create_mkstream TimeoutEventsStream name r).2 = events r.
Proof.
  unfold xgroup_create_mkstream, events.
  destruct (groups (streams r !!! TimeoutEventsStream) !! name); cbn [snd]; [done|].
  cbn [streams set_streams]. by rewrite lookup_total_insert_eq.
Qed.

(** X21.  [createConsumerGroup] can be repeated: over a healthy round trip
    it returns [nil] whether or not the group exists, and an existing
    group, with its position and its pending entries, is left as it is.  A
    group that it creates starts at the end of the stream: the entries
    that are already there are not handed to it, and the first
    [consumeMessages] that follows reads nothing; the stream itself is
    never changed, whatever the network does. *)
Theorem createConsumerGroup_is_repeatable (w : World) :
  let w' := run (createConsumerGroup config) w in
  events (rdb w') = events (rdb w)
  ∧ (next_fault w = None →
     result (createConsumerGroup config) w = None
     ∧ (∀ g, groups (streams (rdb w) !!! TimeoutEventsStream) !! group = Some g →
             rdb w' = rdb w)
     ∧ (groups (streams (rdb w) !!! TimeoutEventsStream) !! group = None →
        delivered group (rdb w') = length (events (rdb w))
        ∧ pending group (rdb w') = ∅
        ∧ (net w' = [] → rdb (run (consumeMessages config) w') = rdb w'))).
Proof.
  intros w'. split.
  - assert (events (rdb (XGroupCreateMkStream TimeoutEventsStream group w).2)
            = events (rdb w)) as Hcall.
    { unfold XGroupCreateMkStream.
      match goal with
      | |- context [call ?z ?op ?w0] =>
          destruct (call_cases z op w0) as [-> | [-> | ->]]
      end; cbn [snd rdb set_net set_rdb]; try done; apply events_xgroup_create. }
    subst w'. unfold run, createConsumerGroup, bind.
    destruct (XGroupCreateMkStream TimeoutEventsStream group w) as [[v e] w1].
    cbn [snd] in Hcall. by repeat case_match.
  - intros Hf. pose proof (createConsumerGroup_run w Hf) as Hrun.
    assert (result (createConsumerGroup config) w = None) as Hres
      by (unfold result; by rewrite Hrun).
    assert (w' = (createConsumerGroup config w).2) as Hw' by done.
    rewrite Hrun in Hw'. cbn [snd] in Hw'. clearbody w'. subst w'.
    split; [done|]. split.
    + intros g Hg. by rewrite Hg.
    + intros Hg. rewrite Hg. cbn [rdb set_net set_rdb].
      set (r1 := set_streams _ (rdb w)).
      assert (groups (streams r1 !!! TimeoutEventsStream) !! group
              = Some (mkGroup (length (events (rdb w))) ∅)) as Hg1.
      { unfold r1. cbn [streams set_streams]. rewrite lookup_total_insert_eq.
        cbn [groups]. by rewrite lookup_insert_eq. }
      assert (events r1 = events (rdb w)) as He1.
      { unfold r1, events. cbn [streams set_streams]. by rewrite lookup_total_insert_eq. }
      unfold delivered, pending. rewrite Hg1. cbn [fmap option_fmap option_map default
        last_delivered pel].
      split; [done|]. split; [done|]. intros Hnet.
      rewrite (consumeMessages_run config _ _ [] Hnet Hg1); [done|].
      cbn [last_delivered rdb set_net set_rdb]. rewrite He1.
      by rewrite drop_all.
Qed.

End group_creation.

(** ** A lease without a time to live *)

(** X22.  With a time to live that is not positive, which [Load] accepts,
    the election gives no lease at all: the key is written without expiry,
    the renewal that follows deletes it, and the replica believes it leads
    all the same.  The next replica finds no lease and does the same. *)
Theorem nonpositive_ttl_leaves_no_lease (config : Config) (w : World) :
  let w' := run (LeaderElection.leaderElectionTick config) w in
  LeaderElectionTTL config ≤ 0 →
  healthy 2 w →
  lease (rdb w) = None →
  lease (rdb w') = None ∧ isLeader w' = true.
Proof.
  intros w' Httl Hh Hl. subst w'.
  unfold run, LeaderElection.leaderElectionTick, LeaderElection.tryBecomeLeader,
    SetArgs_NX, bind.
  rewrite call_healthy by by eapply healthy_next.
  unfold nilable, set_nx. unfold lease in Hl. rewrite Hl.
  assert ((0 <? LeaderElectionTTL config) = false) as Hpos by by apply Z.ltb_ge.
  rewrite Hpos. cbn [fst snd]. change (String.eqb "OK" "OK") with true. cbv iota.
  unfold gets, modify. cbn [fst snd].
  set (w1 := set_net _ (set_rdb _ w)).
  assert (strings (rdb w1) !! LeaderKey = Some (PodID config, None)) as Hl1.
  { unfold w1. cbn [rdb set_net set_rdb strings set_strings]. by rewrite lookup_insert_eq. }
  assert (∀ w2, rdb w2 = rdb w1 → net w2 = net w1 → isLeader w2 = true →
                lease (rdb (LeaderElection.renewLeadership config w2).2) = None
                ∧ isLeader (LeaderElection.renewLeadership config w2).2 = true) as Hrenew.
  { intros w2 Hr2 Hn2 Hlead2. unfold LeaderElection.renewLeadership, bind.
    rewrite call_healthy
      by (rewrite (next_fault_same w1 w2) by done; by eapply healthy_tail).
    rewrite replied_reply, replied_store.
    unfold LeaderElection.renew_script, get, expire. rewrite Hr2, Hl1.
    cbn [fmap option_fmap option_map fst snd]. rewrite decide_True by done.
    rewrite Hpos. cbn [fst snd Z.eqb]. cbn [ret fst snd rdb set_net set_rdb isLeader].
    split; [|done]. unfold lease. cbn [strings set_strings]. by rewrite lookup_delete_eq. }
  destruct (isLeader w1) eqn:Hw1; cbn [negb]; cbv beta iota; unfold ret; cbv beta iota.
  - by apply Hrenew.
  - by apply Hrenew.
Qed.

Lemma nonpositive_ttl_leaves_no_lease_witness :
  lease (rdb (run (LeaderElection.leaderElectionTick
                     (mkConfig 1000 100 0 "pod-a" "timeout-processors"))
                (world_at empty_redis 0))) = None
  ∧ isLeader (run (LeaderElection.leaderElectionTick
                     (mkConfig 1000 100 0 "pod-a" "timeout-processors"))
                (world_at empty_redis 0)) = true.
Proof.
  apply (nonpositive_ttl_leaves_no_lease
           (mkConfig 1000 100 0 "pod-a" "timeout-processors") (world_at empty_redis 0)).
  - discriminate.
  - apply Forall_nil_2.
  - reflexivity.
Defined.

(** ** An event that cannot be encoded *)

(** X23.  When [json.Marshal] refuses the event of the level that is due,
    the step sends no command after its read: nothing is appended, the
    level is not recorded, and the conversation is due again, at the same
    level, in the next pass. *)
Theorem unencodable_event_is_not_published
    (json_Marshal : TimeoutEvent.t → option string) (config : Config)
    (c : string) (s now : Z) (w : World) (lvl : Z) :
  let w' := run (StreamProducer.processTimeoutDetection json_Marshal config c s now) w in
  due config c s now (rdb w) = Some lvl →
  json_Marshal (TimeoutEvent.mk c lvl s (now_ms w) 1) = None →
  rdb w' = rdb w ∧ due config c s now (rdb w') = Some lvl.
Proof.
  intros w' Hdue Hnone. subst w'.
  destruct (processTimeoutDetection_cases json_Marshal config c s now w)
    as ([|event data|event data] & Hr & H).
  - rewrite Hr. by split.
  - destruct H as (lvl' & Hdue' & -> & Hsome). congruence.
  - destruct H as (lvl' & Hdue' & -> & Hsome). congruence.
Qed.

Lemma unencodable_event_is_not_published_witness :
  rdb (run (StreamProducer.processTimeoutDetection (λ _, None) config_a "convA" 0 1001)
         (scenario_A 1001))
  = rdb (scenario_A 1001)
  ∧ due config_a "convA" 0 1001
      (rdb (run (StreamProducer.processTimeoutDetection (λ _, None) config_a
                   "convA" 0 1001) (scenario_A 1001))) = Some 1.
Proof.
  apply (unencodable_event_is_not_published (λ _, None) config_a "convA" 0 1001
           (scenario_A 1001) 1).
  - vm_compute. reflexivity.
  - reflexivity.
Defined.

(** ** What a pass looks at *)

Lemma metrics_step json_Marshal config c s now w :
  metrics (run (StreamProducer.processTimeoutDetection json_Marshal config c s now) w)
  = metrics w.
Proof.
  unfold run, StreamProducer.processTimeoutDetection, bind, HGet.
  match goal with
  | |- context [call ?z ?op ?w0] =>
      pose proof (metrics_call z op w0) as Hm;
      destruct (call z op w0) as [[currentLevelStr err] w1]
  end.
  cbn [fst snd] in *.
  destruct (failed err && negb (is_Nil err)); [done|].
  destruct (dueLevel _ _ _) as [lvl|]; [|done].
  unfold StreamProducer.publishTimeoutEvent, bind, time_Now.
  destruct (json_Marshal _) as [eventData|]; [|cbn; by rewrite metrics_advance].
  unfold XAdd.
  match goal with
  | |- context [call ?z ?op ?w0] =>
      pose proof (metrics_call z op w0) as Hm3;
      destruct (call z op w0) as [[messageID err3] w3]
  end.
  cbn [fst snd] in *. rewrite metrics_advance in Hm3.
  destruct err3; [cbn; congruence|]. cbn [ret fst snd]. unfold HSet.
  match goal with
  | |- context [call ?z ?op ?w0] =>
      pose proof (metrics_call z op w0) as Hm4;
      destruct (call z op w0) as [[n4 err4] w4]
  end.
  cbn [fst snd ret] in *. congruence.
Qed.

Lemma metrics_pass json_Marshal config cs now w :
  metrics (run (for_range cs
                  (λ conv, StreamProducer.processTimeoutDetection json_Marshal config
                             (Member conv) (Score conv) now)) w)
  = metrics w.
Proof.
  revert w. induction cs as [|conv cs IH]; intros w; [done|].
  by rewrite for_range_cons, IH, metrics_step.
Qed.

Lemma zrangebyscore_length key lo hi r :
  length (zrangebyscore key lo hi r).1
  = size (filter (λ p, in_range lo hi p.2 = true) (zsets r !!! key)).
Proof.
  unfold zrangebyscore. cbn [fst].
  by rewrite merge_sort_Permutation, length_fmap, length_map_to_list.
Qed.

(** X24.  A detection pass looks at the waiting entries whose score lies
    between 0 and the time of the pass, and at no other: whatever the
    network does, every entry it appends names a conversation of the
    waiting index with such a score, so a conversation tracked with a
    negative timestamp or one in the future gets no event; and after a
    healthy scan the gauge of waiting conversations holds the number of
    the entries in that range, not the size of the index. *)
Theorem pass_scans_zero_to_now
    (json_Marshal : TimeoutEvent.t → option string) (config : Config) (w : World) :
  let now := now_ms w in
  let w' := run (StreamProducer.detectAndPublishTimeouts json_Marshal config) w in
  (∃ new,
     events (rdb w') = events (rdb w) ++ new
     ∧ Forall (λ m, ∃ c s,
                 entry_conversation m = Some c
                 ∧ waiting (rdb w) !! c = Some s ∧ 0 ≤ s ≤ now) new)
  ∧ (next_fault w = None →
     WaitingConversationsCount (metrics w')
     = Z.of_nat (size (filter (λ p, in_range 0 now p.2 = true) (waiting (rdb w))))).
Proof.
  intros now w'. subst w'.
  unfold run, StreamProducer.detectAndPublishTimeouts, bind, time_Now,
    ZRangeByScoreWithScores.
  cbn [fst snd]. fold now. split.
  - match goal with
    | |- context [call ?z ?op ?w0] =>
        destruct (call_cases z op w0) as [-> | [-> | ->]]
    end; cbn [fst snd]; rewrite ?rdb_advance;
      try (exists []; rewrite app_nil_r; cbn; by rewrite ?rdb_advance).
    rewrite replied_reply. cbn [fst snd]. unfold modify, bind.
    match goal with
    | |- context [for_range ?cs ?b ?w0] =>
        change ((for_range cs b w0).2) with (run (for_range cs b) w0);
        destruct (pass_events json_Marshal config cs now w0) as (new & -> & Hnew)
    end.
    exists new. split.
    { cbn [rdb set_metrics set_net set_rdb]. by rewrite replied_store. }
    eapply Forall_impl; [done|]. cbn beta.
    intros m (conv & lvl & t & cur & Hin & Hm & _).
    apply zrangebyscore_elem in Hin as [Hin Hrange].
    exists (Member conv), (Score conv).
    split; [by rewrite (carries_conversation _ _ Hm)|done].
  - intros Hf. rewrite call_healthy by by rewrite next_fault_advance.
    rewrite replied_reply. cbn [fst snd]. unfold modify, bind.
    match goal with
    | |- context [for_range ?cs ?b ?w0] =>
        change ((for_range cs b w0).2) with (run (for_range cs b) w0);
        rewrite (metrics_pass json_Marshal config cs now w0)
    end.
    cbn [metrics set_metrics WaitingConversationsCount set_WaitingConversationsCount].
    by rewrite zrangebyscore_length, rdb_advance.
Qed.

(** Of the three entries of the waiting index, one lies before the epoch:
    the pass counts two. *)
Lemma pass_scans_zero_to_now_witness :
  WaitingConversationsCount
    (metrics (run (StreamProducer.detectAndPublishTimeouts json_stub config_a)
                cleanup_world)) = 2.
Proof.
  destruct (pass_scans_zero_to_now json_stub config_a cleanup_world) as [_ H].
  etrans; [apply H; reflexivity|]. vm_compute. reflexivity.
Defined.

(** ** The two detectors share the recorded level *)

(** X25.  A level that the step of phase 1 has handed out and recorded
    over healthy round trips is settled for both detectors: the level
    read for the conversation is that level, nothing is due for it at the
    same time, a second step of phase 1 at that time notifies nothing and
    changes nothing in the store, and a step of phase 2 at that time, by any
    replica in front of this store and whatever the network does, appends
    no event. *)
Theorem phase1_level_is_settled
    (json_Marshal : TimeoutEvent.t → option string) (config : Config)
    (c : string) (s now : Z) (w : World) (lvl : Z) :
  let w1 := run (LeaderElection.processConversationTimeout config c s now) w in
  healthy 2 w →
  due config c s now (rdb w) = Some lvl →
  storedLevel (rdb w1) c = lvl
  ∧ due config c s now (rdb w1) = None
  ∧ (∀ w2, rdb w2 = rdb w1 →
       rdb (run (LeaderElection.processConversationTimeout config c s now) w2) = rdb w1
       ∧ notified (run (LeaderElection.processConversationTimeout config c s now) w2)
         = notified w2)
  ∧ (∀ w2, rdb w2 = rdb w1 →
       rdb (run (StreamProducer.processTimeoutDetection json_Marshal config c s now) w2)
       = rdb w1).
Proof.
  intros w1 Hh Hdue.
  destruct (processConversationTimeout_healthy config c s now w lvl Hh Hdue)
    as (_ & Hstates & _). fold w1 in Hstates.
  assert (storedLevel (rdb w1) c = lvl) as Hlvl.
  { unfold storedLevel. rewrite Hstates, lookup_insert_eq. cbn [default].
    apply currentLevelOf_itoa, in_int64_level. by eapply dueLevel_levels. }
  assert (due config c s now (rdb w1) = None) as Hsettled.
  { unfold due in *. rewrite Hlvl. by eapply dueLevel_settled. }
  split; [done|]. split; [done|]. split.
  - intros w2 Hw2.
    destruct (processConversationTimeout_not_due config c s now w2) as [H1 H2];
      [by rewrite Hw2|]. by rewrite H1, H2.
  - intros w2 Hw2. rewrite processTimeoutDetection_not_due; by rewrite Hw2.
Qed.

Lemma phase1_level_is_settled_witness :
  storedLevel
    (rdb (run (LeaderElection.processConversationTimeout config_a "convA" 0 2001)
            (scenario_A 2001))) "convA" = 2
  ∧ due config_a "convA" 0 2001
      (rdb (run (LeaderElection.processConversationTimeout config_a "convA" 0 2001)
              (scenario_A 2001))) = None.
Proof.
  destruct (phase1_level_is_settled json_stub config_a "convA" 0 2001
              (scenario_A 2001) 2) as (H1 & H2 & _).
  - apply Forall_nil_2.
  - vm_compute. reflexivity.
  - exact (conj H1 H2).
Defined.

(** ** The properties above at concrete inputs *)

(** An entry with attempt 7, and the same entry without the field. *)
Lemma parseTimeoutEvent_reads_five_fields_witness :
  StreamConsumer.parseTimeoutEvent
    (mkXMessage "1-0"
       (delete "attempt"
          (StreamProducer.stream_values (TimeoutEvent.mk "convA" 2 0 2001 7) "{}")))
  = inl (TimeoutEvent.mk "convA" 2 0 2001 1).
Proof.
  destruct (parseTimeoutEvent_reads_five_fields
              (mkXMessage "1-0"
                 (StreamProducer.stream_values (TimeoutEvent.mk "convA" 2 0 2001 7) "{}"))
              (mkXMessage "1-0" ∅)) as (_ & H & _).
  apply (H (TimeoutEvent.mk "convA" 2 0 2001 7)). vm_compute. reflexivity.
Defined.

(** The stored level of [convA] reads "two": the query fails where the
    detectors read 0. *)
Lemma GetNotificationState_agrees_with_detector_witness :
  result (TimeoutManager.GetNotificationState "convA") garbled_world
  = (0, Some (errorf "invalid notification level format"))
  ∧ storedLevel (rdb garbled_world) "convA" = 0.
Proof.
  destruct (GetNotificationState_agrees_with_detector "convA" garbled_world)
    as (_ & _ & H).
  specialize (H eq_refl).
  assert (states (rdb garbled_world) !! "convA" = Some "two") as Hs
    by (vm_compute; reflexivity).
  rewrite Hs in H. change (Atoi "two") with (@None Z) in H. cbv iota in H.
  destruct H as (H1 & H2 & H3). split; [|exact H3].
  apply injective_projections; [exact H1|exact H2].
Defined.

(** A second conversation joins [convC] in the waiting index. *)
Lemma count_after_track_witness :
  result (TimeoutManager.TrackAgentMessage (AgentMessage.mk "convD" "agent_1" "msg_1" 2500) ;;;
          TimeoutManager.GetWaitingConversationsCount) scenario_C
  = (2, None).
Proof.
  destruct (count_after_track (AgentMessage.mk "convD" "agent_1" "msg_1" 2500) scenario_C)
    as (_ & _ & H).
  etrans; [apply H; apply Forall_nil_2|]. vm_compute. reflexivity.
Defined.

(** [pod-a] holds the lease: it is told so, and [pod-b] is not. *)
Lemma IsLeader_exclusive_witness :
  result (LeaderElection.IsLeader config_a) leader_world = true
  ∧ result (LeaderElection.IsLeader config_b) leader_world = false.
Proof.
  destruct (IsLeader_exclusive config_a config_b leader_world leader_world)
    as (_ & _ & _ & H1 & H2).
  assert (result (LeaderElection.IsLeader config_a) leader_world = true) as Ha.
  { apply H1; [reflexivity|]. exists (Some 3). reflexivity. }
  split; [exact Ha|]. apply H2; [discriminate|reflexivity|exact Ha].
Defined.

(** [pod-b] believes it leads while [pod-a] holds the lease. *)
Lemma detection_tick_needs_the_lease_witness :
  rdb (run (StreamProducer.timeoutDetectionTick json_stub config_b)
         (set_isLeader true leader_world)) = rdb leader_world
  ∧ isLeader (run (StreamProducer.timeoutDetectionTick json_stub config_b)
                (set_isLeader true leader_world)) = false.
Proof.
  destruct (detection_tick_needs_the_lease json_stub config_b
              (set_isLeader true leader_world)) as [H _].
  apply H. intros ttl Hl. vm_compute in Hl. discriminate Hl.
Defined.

(** The holder's cleanup removes the conversation that is a day old. *)
Lemma cleanup_tick_needs_the_lease_witness :
  waiting (rdb (run (phase1_Service.cleanupTick config_a) day_old_world))
  = {[ "conv_new" := 99999000 ]}.
Proof.
  destruct (cleanup_tick_needs_the_lease config_a day_old_world) as [_ H].
  destruct H as [H _].
  - exists (Some 3). reflexivity.
  - apply Forall_nil_2.
  - etrans; [exact H|]. vm_compute. reflexivity.
Defined.

(** A negative base interval is taken from the environment as it is. *)
Lemma Load_takes_numbers_as_they_stand_witness :
  TimeoutIntervalMS (config_pkg.Load {[ "TIMEOUT_INTERVAL_MS" := "-5" ]} "host-1a2b3c4d") = -5
  ∧ LeaderElectionTTL (config_pkg.Load {[ "LEADER_ELECTION_TTL" := "ten" ]} "host-1a2b3c4d")
    = 10.
Proof.
  split.
  - destruct (Load_takes_numbers_as_they_stand {[ "TIMEOUT_INTERVAL_MS" := "-5" ]}
                "host-1a2b3c4d") as (H & _).
    destruct (H (-5)) as (H1 & _); [reflexivity|]. apply H1. reflexivity.
  - destruct (Load_takes_numbers_as_they_stand {[ "LEADER_ELECTION_TTL" := "ten" ]}
                "host-1a2b3c4d") as (_ & _ & _ & H & _).
    apply H. reflexivity.
Defined.

(** A request without timestamp is tracked at the time of the call. *)
Lemma handleAgentMessage_outcomes_witness :
  result (phase2_Service.handleAgentMessage "convA"
            (Some (phase2_Service.AgentRequest.mk "agent_1" "msg_1" None)))
    (world_at empty_redis 1000)
  = phase2_Service.mkResponse 200 (phase2_Service.Tracked "convA" 1000)
  ∧ waiting (rdb (run (phase2_Service.handleAgentMessage "convA"
                         (Some (phase2_Service.AgentRequest.mk "agent_1" "msg_1" None)))
                    (world_at empty_redis 1000))) !! "convA" = Some 1000.
Proof.
  destruct (handleAgentMessage_outcomes "convA"
              (Some (phase2_Service.AgentRequest.mk "agent_1" "msg_1" None))
              (world_at empty_redis 1000)) as (_ & _ & H).
  destruct (H (phase2_Service.AgentRequest.mk "agent_1" "msg_1" None))
    as ((H1 & H2 & _) & _); [discriminate|reflexivity|reflexivity|].
  exact (conj H1 H2).
Defined.

(** A customer response dated before the agent message clears [convC]. *)
Lemma handleCustomerResponse_outcomes_witness :
  result (phase2_Service.handleCustomerResponse "convC"
            (Some (phase2_Service.CustomerRequest.mk "customer_1" "msg_2" (Some (-1)))))
    scenario_C
  = phase2_Service.mkResponse 200 (phase2_Service.Cleared "convC" (-1))
  ∧ waiting (rdb (run (phase2_Service.handleCustomerResponse "convC"
                         (Some (phase2_Service.CustomerRequest.mk "customer_1" "msg_2"
                                  (Some (-1)))))
                    scenario_C)) !! "convC" = None.
Proof.
  destruct (handleCustomerResponse_outcomes "convC"
              (Some (phase2_Service.CustomerRequest.mk "customer_1" "msg_2" (Some (-1))))
              scenario_C) as (_ & _ & H).
  destruct (H (phase2_Service.CustomerRequest.mk "customer_1" "msg_2" (Some (-1))))
    as ((H1 & H2 & _) & _); [discriminate|reflexivity|reflexivity|].
  split; [exact H1|]. rewrite H2. apply lookup_delete_eq.
Defined.

(** A health check of [pod-a], which holds the lease but has lost its
    flag, sets the flag again. *)
Lemma health_and_status_report_witness :
  phase2_Service.StatusCode
    (result (phase2_Service.handleHealth config_a) (set_isLeader false leader_world)) = 200
  ∧ rdb (run (phase2_Service.handleHealth config_a) (set_isLeader false leader_world))
    = rdb leader_world.
Proof.
  destruct (health_and_status_report config_a (set_isLeader false leader_world))
    as ((H1 & _ & H2) & _).
  destruct (H2 eq_refl) as [Hcode _]. exact (conj Hcode H1).
Defined.

(** The stream has an entry from before the group was created. *)
Lemma createConsumerGroup_is_repeatable_witness :
  delivered "timeout-processors"
    (rdb (run (StreamProducer.createConsumerGroup config_a) ungrouped_world)) = 1%nat
  ∧ rdb (run (StreamConsumer.consumeMessages config_a)
           (run (StreamProducer.createConsumerGroup config_a) ungrouped_world))
    = rdb (run (StreamProducer.createConsumerGroup config_a) ungrouped_world).
Proof.
  destruct (createConsumerGroup_is_repeatable config_a ungrouped_world) as [_ H].
  destruct (H eq_refl) as (_ & _ & H3).
  destruct H3 as (H4 & _ & H5); [reflexivity|].
  split; [exact H4|]. apply H5. reflexivity.
Defined.
